(** * Recipient management of gopass: [pkg/action/recipients.go]

    A shallow embedding of the recipient commands (print-expiration, add,
    remove, update and the two interactive selections) together with the
    properties the specification states about them.

    The commands are sequential programs that talk to collaborators which
    live outside the file: the crypto backend, the store tree, the
    configuration, the terminal and the clock.  Each collaborator is an
    oracle that may answer differently as the interaction goes on, so every
    oracle takes the history of observable interactions so far; the commands
    thread that history through a small state monad and append to it. *)

From Stdlib Require Import String Ascii List ZArith Bool Arith Lia.
From Stdlib Require Import Permutation DecimalString.
Import ListNotations.
Local Open Scope list_scope.
Local Open Scope string_scope.

(** ** Errors *)

(** Exit codes used with [ExitError]. *)
Inductive exitCode := ExitUnknown | ExitList | ExitRecipients | ExitAborted.

(** An error value produced by a collaborator: the sentinel
    [sub.ErrRecipientChecksumChanged], or any other error (with its text). *)
Inductive exterr :=
| ErrRecipientChecksumChanged
| ErrOther (msg : string).

(** The errors a command returns: a collaborator's error passed through,
    [errors.New msg], or [ExitError(ctx, code, err, format, args...)], kept as
    its exit code and rendered message. *)
Inductive error :=
| External (e : exterr)
| ErrNew (msg : string)
| ExitError (code : exitCode) (msg : string).

(** ** Observable interactions *)

Inductive event :=
| EvCyan (msg : string)                         (* out.Cyan *)
| EvGreen (msg : string)                        (* out.Green *)
| EvPrint (msg : string)                        (* out.Print *)
| EvStdout (msg : string)                       (* fmt.Fprintf(stdout, ...) *)
| EvConfirm (prompt : string) (answer : bool)   (* termio.AskForConfirmation *)
| EvAskForStore (answer : string)               (* cui.AskForStore *)
| EvSelection (title usage : string) (choices : list string)
              (act : string) (sel : Z)          (* cui.GetSelection *)
| EvAddRecipient (noConfirm : bool) (store recp : string)
                 (err : option exterr)          (* s.Store.AddRecipient *)
| EvRemoveRecipient (noConfirm : bool) (store recp : string)
                    (err : option exterr)       (* s.Store.RemoveRecipient *)
| EvSetRecipients (alias : string) (recp : list string)
                  (err : option exterr)         (* subs.SetRecipients *)
| EvNow (t : Z).                                (* time.Now *)

Definition trace := list event.

(** ** Collaborators *)

(** [backend.Crypto].  [FindPublicKeys] and [FindPrivateKeys] are variadic in
    the search terms.  A [time.Time] is the instant in nanoseconds counted
    from the zero time, so that [IsZero] is [= 0]. *)
Record Crypto := {
  FindPublicKeys : trace -> list string -> list string * option exterr;
  FindPrivateKeys : trace -> list string -> list string * option exterr;
  Fingerprint : trace -> string -> string;
  FormatKey : trace -> string -> string;
  ExpirationDateFromKey : trace -> string -> Z * option exterr;
  NameFromKey : trace -> string -> string;
  IDFile : string
}.

(** [*sub.Store], as far as [RecipientsUpdate] uses it. *)
Record SubStore := {
  GetRecipients : trace -> string -> list string * option exterr;
  SetRecipients : trace -> list string -> option exterr;
  sub_Crypto : Crypto
}.

(** Everything else the commands reach through [s.Store], [s.cfg] and the
    packages [termio], [cui], [time], [sort] and [fmt].  A [nil] interface or
    pointer is [None]. *)
Record Env := {
  Store_Crypto : trace -> string -> option Crypto;
  Store_ListRecipients : trace -> string -> list string;
  Store_AddRecipient : trace -> bool -> string -> string -> option exterr;
  Store_RemoveRecipient : trace -> bool -> string -> string -> option exterr;
  Store_MountPoints : trace -> list string;
  Store_GetSubStore : trace -> string -> option SubStore * option exterr;
  cfg_GetRecipientHash : trace -> string -> string -> string;
  termio_AskForConfirmation : trace -> string -> bool;
  cui_AskForStore : trace -> string;
  cui_GetSelection : trace -> string -> string -> list string -> string * Z;
  time_Now : trace -> Z;
  (* sort.Sort(store.ByPathLen(mps)); store.ByPathLen is declared elsewhere *)
  sort_ByPathLen : list string -> list string;
  Time_String : Z -> string;        (* %s of a time.Time *)
  Duration_String : Z -> string;    (* %s of a time.Duration *)
  Error_ : exterr -> string         (* err.Error() *)
}.

(** ** The monad of the commands

    A computation reads the history and extends it; a run-time panic (a
    method call on a nil interface, an index out of range) ends it. *)

Inductive res (A : Type) :=
| Val (a : A)
| Panic.
Arguments Val {A} a.
Arguments Panic {A}.

Definition M (A : Type) := trace -> res A * trace.

Definition ret {A} (a : A) : M A := fun h => (Val a, h).

Definition bind {A B} (m : M A) (f : A -> M B) : M B :=
  fun h => match m h with
           | (Val a, h') => f a h'
           | (Panic, h') => (Panic, h')
           end.

Definition panic {A} : M A := fun h => (Panic, h).

(** Ask an oracle without leaving a mark in the history. *)
Definition query {A} (f : trace -> A) : M A := fun h => (Val (f h), h).

(** Ask an oracle and record the interaction. *)
Definition call {A} (f : trace -> A) (ev : A -> event) : M A :=
  fun h => let a := f h in (Val a, (h ++ [ev a])%list).

Definition emit (e : event) : M unit := fun h => (Val tt, (h ++ [e])%list).

Declare Scope monad_scope.
Delimit Scope monad_scope with monad.
Notation "x <- m ;; k" := (bind m (fun x => k))
  (at level 61, m at next level, right associativity) : monad_scope.
Notation "' p <- m ;; k" := (bind m (fun x => match x with p => k end))
  (at level 61, p pattern, m at next level, right associativity) : monad_scope.
Notation "m ;;; k" := (bind m (fun _ => k))
  (at level 61, right associativity) : monad_scope.
Local Open Scope monad_scope.

(** Method call on a possibly nil interface value. *)
Definition deref {A} (o : option A) : M A :=
  match o with
  | Some a => ret a
  | None => panic
  end.

(** [%d] of a non-negative int. *)
Definition itoa (n : nat) : string := NilEmpty.string_of_uint (Nat.to_uint n).

(** ** Time *)

Definition Hour : Z := 3600 * 1000000000.
Definition minDuration : Z := - 2 ^ 63.
Definition maxDuration : Z := 2 ^ 63 - 1.

(** [t.Sub(u)]: the difference, saturated to the range of a Duration. *)
Definition Time_Sub (t u : Z) : Z :=
  let d := (t - u)%Z in
  if (d <? minDuration)%Z then minDuration
  else if (maxDuration <? d)%Z then maxDuration
  else d.

(** [d.Truncate(m)]: rounding toward zero to a multiple of [m]. *)
Definition Duration_Truncate (d m : Z) : Z :=
  if (m <=? 0)%Z then d else (d - Z.rem d m)%Z.

Section Commands.

Variable W : Env.

Definition Now : M Z := call (time_Now W) EvNow.

(** [time.Until(t)] is [t.Sub(time.Now())]. *)
Definition Until (t : Z) : M Z :=
  now <- Now ;; ret (Time_Sub t now).

(** ** renderExpirationNotice *)

Definition renderExpirationNotice (expirationDate warnThreshold : Z)
  : M (string * bool) :=
  if negb (expirationDate =? 0)%Z then
    now1 <- Now ;;
    if (expirationDate <? now1)%Z then
      ret ("expired at " ++ Time_String W expirationDate, true)
    else
      now2 <- Now ;;
      if (expirationDate <? now2 + warnThreshold)%Z then
        left <- Until expirationDate ;;
        ret ("expiring in ~"
               ++ Duration_String W (Duration_Truncate left Hour)
               ++ " at " ++ Time_String W expirationDate, true)
      else ret ("", false)
  else ret ("", false).

(** ** RecipientsPrintExpiration *)

Definition expirationErr : error := ErrNew "key(s) expired/expiring".

(** The [for ... range] loop of [RecipientsPrintExpiration]: [inl] is the
    early [return err], [inr] the value of [hasErr] when the range is done. *)
Fixpoint expirationLoop (crypto : Crypto) (warnThreshold : Z)
    (recipients : list string) (hasErr : bool) : M (error + bool) :=
  match recipients with
  | [] => ret (inr hasErr)
  | recipient :: rest =>
      let r := "0x" ++ recipient in
      '(expiration, err) <-
         query (fun h => ExpirationDateFromKey crypto h recipient) ;;
      match err with
      | Some e => ret (inl (External e))
      | None =>
          name <- query (fun h => NameFromKey crypto h recipient) ;;
          '(notice, warn) <- renderExpirationNotice expiration warnThreshold ;;
          if warn then
            emit (EvStdout (r ++ " (" ++ name ++ ") " ++ notice ++ "
")) ;;;
            expirationLoop crypto warnThreshold rest true
          else expirationLoop crypto warnThreshold rest hasErr
      end
  end.

Definition RecipientsPrintExpiration (store : string) (warnThreshold : Z)
  : M (option error) :=
  crypto <- query (fun h => Store_Crypto W h store) ;;
  match crypto with
  | None => ret (Some (ErrNew "nil crypto backend"))
  | Some crypto =>
      recipients <- query (fun h => Store_ListRecipients W h store) ;;
      r <- expirationLoop crypto warnThreshold recipients false ;;
      match r with
      | inl err => ret (Some err)
      | inr hasErr => if hasErr then ret (Some expirationErr) else ret None
      end
  end.

(** ** Interactive selection *)

(** [l[i]] for an int [i]: out of range panics. *)
Definition index {A} (l : list A) (i : Z) : M A :=
  if (i <? 0)%Z then panic
  else match nth_error l (Z.to_nat i) with
       | Some a => ret a
       | None => panic
       end.

(** [for _, id := range ids { choices = append(choices, crypto.FormatKey(ctx, id)) }] *)
Fixpoint formatChoices (crypto : option Crypto) (ids choices : list string)
  : M (list string) :=
  match ids with
  | [] => ret choices
  | id :: rest =>
      c <- deref crypto ;;
      f <- query (fun h => FormatKey c h id) ;;
      formatChoices crypto rest (choices ++ [f])%list
  end.

Definition GetSelection (title usage : string) (choices : list string)
  : M (string * Z) :=
  call (fun h => cui_GetSelection W h title usage choices)
       (fun a => EvSelection title usage choices (fst a) (snd a)).

Definition userAborted : error := ExitError ExitAborted "user aborted".

(** The [switch act] shared in shape by both selections. *)
Definition selected (ids : list string) (act : string) (sel : Z)
  : M (list string * option error) :=
  if (act =? "default") || (act =? "show") then
    id <- index ids sel ;; ret ([id], None)
  else ret ([], Some userAborted).

Definition removeTitle : string := "Remove recipient -".
Definition removeUsage : string :=
  "<↑/↓> to change the selection, <→> to remove this recipient, <ESC> to quit".
Definition addTitle : string := "Add Recipient -".
Definition addUsage : string :=
  "<↑/↓> to change the selection, <→> to add this recipient, <ESC> to quit".

Definition recipientsSelectForRemoval (store : string)
  : M (list string * option error) :=
  crypto <- query (fun h => Store_Crypto W h store) ;;
  ids <- query (fun h => Store_ListRecipients W h store) ;;
  choices <- formatChoices crypto ids [] ;;
  if (length choices <? 1)%nat then ret ([], None)
  else
    '(act, sel) <- GetSelection removeTitle removeUsage choices ;;
    selected ids act sel.

Definition recipientsSelectForAdd (store : string)
  : M (list string * option error) :=
  crypto <- query (fun h => Store_Crypto W h store) ;;
  c <- deref crypto ;;
  '(kl, _) <- query (fun h => FindPublicKeys c h []) ;;
  choices <- formatChoices crypto kl [] ;;
  if (length choices <? 1)%nat then ret ([], None)
  else
    '(act, sel) <- GetSelection addTitle addUsage choices ;;
    selected kl act sel.

(** ** Batch loops *)

(** How one iteration of a batch loop ends: [continue] before the counter is
    incremented, the end of the body after it is, or [return err]. *)
Inductive iter :=
| Skipped
| Committed
| Returned (e : error).

(** [for _, r := range rs { body }] with the counter ([added], [removed],
    [changed]); [inl] is the early [return err].  The counter is a Go int
    that counts turns of a range over a slice: it cannot wrap, and is a
    natural number here. *)
Fixpoint forRange (body : string -> M iter) (rs : list string) (count : nat)
  : M (error + nat) :=
  match rs with
  | [] => ret (inr count)
  | r :: rest =>
      it <- body r ;;
      match it with
      | Skipped => forRange body rest count
      | Committed => forRange body rest (S count)
      | Returned e => ret (inl e)
      end
  end.

Definition AskForConfirmation (prompt : string) : M bool :=
  call (fun h => termio_AskForConfirmation W h prompt) (EvConfirm prompt).

(** The four lines printed when no key matches and force is not set. *)
Definition noMatchingKey (r : string) : M unit :=
  emit (EvCyan "Warning: No matching valid key found. If the key is in your keyring you may need to validate it.") ;;;
  emit (EvCyan ("If this is your key: gpg --edit-key " ++ r ++ "; trust (set to ultimate); quit")) ;;;
  emit (EvCyan ("If this is not your key: gpg --edit-key " ++ r ++ "; lsign; trust; save; quit")) ;;;
  emit (EvCyan "You may need to run 'gpg --update-trustdb' afterwards").

(** Lines 133-152 of [RecipientsAdd], repeated as lines 205-224 of
    [RecipientsRemove]: from the public-key lookup to [recp]; [None] is
    [continue]. *)
Definition resolve (c : Crypto) (force : bool) (r : string)
  : M (option string) :=
  '(keys, err) <- query (fun h => FindPublicKeys c h [r]) ;;
  found <- match err with
           | Some e =>
               emit (EvCyan ("WARNING: Failed to list public key '" ++ r
                               ++ "': " ++ Error_ W e)) ;;;
               if negb force then ret None else ret (Some [r])
           | None => ret (Some keys)
           end ;;
  match found with
  | None => ret None
  | Some keys =>
      if (length keys <? 1)%nat && negb force then
        noMatchingKey r ;;; ret None
      else
        match keys with
        | k :: _ => recp <- query (fun h => Fingerprint c h k) ;; ret (Some recp)
        | [] => ret (Some r)
        end
  end.

(** ** RecipientsAdd *)

Definition addPrompt (key store : string) : string :=
  "Do you want to add '" ++ key ++ "' as a recipient to the store '"
    ++ store ++ "'?".

Definition addBody (crypto : option Crypto) (store : string) (force : bool)
    (r : string) : M iter :=
  c <- deref crypto ;;
  found <- resolve c force r ;;
  match found with
  | None => ret Skipped
  | Some recp =>
      key <- query (fun h => FormatKey c h recp) ;;
      yes <- AskForConfirmation (addPrompt key store) ;;
      if negb yes then ret Skipped
      else
        err <- call (fun h => Store_AddRecipient W h true store recp)
                    (EvAddRecipient true store recp) ;;
        match err with
        | Some e =>
            ret (Returned (ExitError ExitRecipients
                   ("failed to add recipient '" ++ r ++ "': " ++ Error_ W e)))
        | None => ret Committed
        end
  end.

Definition noKeyAdded : error := ExitError ExitUnknown "no key added".

Definition RecipientsAdd (store : string) (force : bool) (args : list string)
  : M (option error) :=
  store <- (if store =? "" then call (cui_AskForStore W) EvAskForStore
            else ret store) ;;
  crypto <- query (fun h => Store_Crypto W h store) ;;
  '(recipients, err) <- (if (length args <? 1)%nat
                         then recipientsSelectForAdd store
                         else ret (args, None)) ;;
  match err with
  | Some e => ret (Some e)
  | None =>
      r <- forRange (addBody crypto store force) recipients 0 ;;
      match r with
      | inl e => ret (Some e)
      | inr added =>
          if (added <? 1)%nat then ret (Some noKeyAdded)
          else
            emit (EvGreen ("
Added " ++ itoa added ++ " recipients")) ;;;
            emit (EvCyan "You need to run 'gopass sync' to push these changes") ;;;
            ret None
      end
  end.

(** ** RecipientsRemove *)

Definition removalWarning (r : string) : string :=
  "


@@@@@@@@@@@@@@@@@@@@@@@@@@@@@@@@@@@@@@@@@@@@@@@@@@@@@@@@@@@@@@@@@@@@@@@@@@
@   WARNING: REMOVING A USER WILL NOT REVOKE ACCESS FROM OLD REVISONS!   @
@@@@@@@@@@@@@@@@@@@@@@@@@@@@@@@@@@@@@@@@@@@@@@@@@@@@@@@@@@@@@@@@@@@@@@@@@@
THE USER " ++ r ++ " WILL STILL BE ABLE TO ACCESS ANY OLD COPY OF THE STORE AND
ANY OLD REVISION HE HAD ACCESS TO.

ANY CREDENTIALS THIS USER HAD ACCESS TO NEED TO BE CONSIDERED COMPROMISED
AND SHOULD BE REVOKED.

This feature is only meant for revoking access to any added or changed
credentials.

".

Definition selfPrompt (r : string) : string :=
  "Do you want to remove yourself (" ++ r ++ ") from the recipients?".

(** Lines 196-203: [true] when the body goes on, [false] on [continue]. *)
Definition selfCheck (c : Crypto) (r : string) : M bool :=
  '(kl, err) <- query (fun h => FindPrivateKeys c h [r]) ;;
  match err with
  | None =>
      if (0 <? length kl)%nat then AskForConfirmation (selfPrompt r)
      else ret true
  | Some _ => ret true
  end.

(** Lines 205-230: the body after the self-removal check. *)
Definition removeRest (c : Crypto) (store : string) (force : bool)
    (r : string) : M iter :=
  found <- resolve c force r ;;
  match found with
  | None => ret Skipped
  | Some recp =>
      err <- call (fun h => Store_RemoveRecipient W h true store recp)
                  (EvRemoveRecipient true store recp) ;;
      match err with
      | Some e =>
          ret (Returned (ExitError ExitRecipients
                 ("failed to remove recipient '" ++ recp ++ "': "
                    ++ Error_ W e)))
      | None => emit (EvStdout (removalWarning r)) ;;; ret Committed
      end
  end.

Definition removeBody (crypto : option Crypto) (store : string) (force : bool)
    (r : string) : M iter :=
  c <- deref crypto ;;
  go <- selfCheck c r ;;
  if negb go then ret Skipped else removeRest c store force r.

Definition noKeyRemoved : error := ExitError ExitUnknown "no key removed".

Definition RecipientsRemove (store : string) (force : bool)
    (args : list string) : M (option error) :=
  store <- (if store =? "" then call (cui_AskForStore W) EvAskForStore
            else ret store) ;;
  crypto <- query (fun h => Store_Crypto W h store) ;;
  '(recipients, err) <- (if (length args <? 1)%nat
                         then recipientsSelectForRemoval store
                         else ret (args, None)) ;;
  match err with
  | Some e => ret (Some e)
  | None =>
      r <- forRange (removeBody crypto store force) recipients 0 ;;
      match r with
      | inl e => ret (Some e)
      | inr removed =>
          if (removed <? 1)%nat then ret (Some noKeyRemoved)
          else
            emit (EvGreen ("
Removed " ++ itoa removed ++ " recipients")) ;;;
            emit (EvCyan "You need to run 'gopass sync' to push these changes") ;;;
            ret None
      end
  end.

(** ** RecipientsUpdate *)

(** [for _, r := range recp { out.Print(ctx, "- %s", subs.Crypto().FormatKey(ctx, r)) }] *)
Fixpoint printRecipients (c : Crypto) (recp : list string) : M unit :=
  match recp with
  | [] => ret tt
  | r :: rest =>
      key <- query (fun h => FormatKey c h r) ;;
      emit (EvPrint ("- " ++ key)) ;;;
      printRecipients c rest
  end.

(** The name a node is shown under: the loop variable after
    [if alias == "" { alias = "<root>" }]. *)
Definition label (alias : string) : string :=
  if alias =? "" then "<root>" else alias.

Definition confirmHeader (alias : string) : string :=
  "Please confirm Recipients for " ++ label alias ++ ":".

Definition trustPrompt (alias : string) : string :=
  "Do you trust these recipients for " ++ label alias ++ "?".

(** Lines 264-275: from the header to [changed++]. *)
Definition confirmNode (alias : string) (subs : SubStore)
    (recp : list string) : M iter :=
  emit (EvCyan (confirmHeader alias)) ;;;
  printRecipients (sub_Crypto subs) recp ;;;
  yes <- AskForConfirmation (trustPrompt alias) ;;
  if negb yes then ret Skipped
  else
    err <- call (fun h => SetRecipients subs h recp)
                (EvSetRecipients alias recp) ;;
    match err with
    | Some e => ret (Returned (External e))
    | None => emit (EvPrint "") ;;; ret Committed
    end.

Definition updateBody (alias : string) : M iter :=
  '(subs, err) <- query (fun h => Store_GetSubStore W h alias) ;;
  match err, subs with
  | None, Some subs =>
      '(recp, err) <- query (fun h => GetRecipients subs h "") ;;
      match err with
      | Some ErrRecipientChecksumChanged => confirmNode alias subs recp
      | Some e => ret (Returned (External e))
      | None =>
          hash <- query (fun h =>
                    cfg_GetRecipientHash W h alias (IDFile (sub_Crypto subs))) ;;
          if negb (hash =? "") then ret Skipped
          else confirmNode alias subs recp
      end
  | _, _ => ret Skipped
  end.

(** The nodes in the order the loop visits them:
    [sort.Sort(store.ByPathLen(mps))] and then [append(mps, "")]. *)
Definition updateNodes (mps : list string) : list string :=
  (sort_ByPathLen W mps ++ [""])%list.

Definition RecipientsUpdate : M (option error) :=
  mps <- query (Store_MountPoints W) ;;
  r <- forRange updateBody (updateNodes mps) 0 ;;
  match r with
  | inl e => ret (Some e)
  | inr changed =>
      (if (0 <? changed)%nat
       then emit (EvGreen ("Updated " ++ itoa changed ++ " stores"))
       else emit (EvGreen "Nothing to do")) ;;;
      ret None
  end.

End Commands.

(** ** RecipientsPrint and RecipientsComplete *)

(** [tree.Tree], as far as RecipientsPrint and RecipientsComplete use it:
    [Format(maxDepth)] and [List(maxDepth)]. *)
Record Tree := {
  Tree_Format : Z -> string;
  Tree_List : Z -> list string
}.

(** [s.Store.RecipientsTree(ctx, pretty)]: the first flag says whether the
    context went through [out.WithHidden(ctx, true)], the second is
    [pretty]; a nil tree is [None]. *)
Definition TreeOracle : Type :=
  trace -> bool -> bool -> option Tree * option exterr.

(** RecipientsPrint (lines 40-50). *)
Definition RecipientsPrint (W : Env) (RecipientsTree : TreeOracle)
  : M (option error) :=
  (emit (EvCyan "Hint: run 'gopass sync' to import any missing public keys") ;;;
   x <- query (fun h => RecipientsTree h false true) ;;
   match snd x with
   | Some e =>
       ret (Some (ExitError ExitList
                    ("failed to list recipients: " ++ Error_ W e)%string))
   | None =>
       tree <- deref (fst x) ;;
       emit (EvStdout (Tree_Format tree 0 ++ "
")%string) ;;;
       ret None
   end)%monad.

(** [for _, v := range vs { fmt.Fprintln(stdout, v) }] *)
Fixpoint printLines (vs : list string) : M unit :=
  match vs with
  | [] => ret tt
  | v :: rest => (emit (EvStdout (v ++ "
")%string) ;;; printLines rest)%monad
  end.

(** RecipientsComplete (lines 97-107). *)
Definition RecipientsComplete (W : Env) (RecipientsTree : TreeOracle)
  : M unit :=
  (x <- query (fun h => RecipientsTree h true false) ;;
   match snd x with
   | Some e => emit (EvStdout (Error_ W e ++ "
")%string)
   | None => tree <- deref (fst x) ;; printLines (Tree_List tree 0)
   end)%monad.

Local Open Scope list_scope.

(** ** Reading a history *)

(** What a computation appended to the history it started from is compared
    through these observations. *)

Definition isConfirm (e : event) : bool :=
  match e with EvConfirm _ _ => true | _ => false end.

Definition isAccepted (e : event) : bool :=
  match e with EvConfirm _ true => true | _ => false end.

(** A line on stdout: the only events of the expiration audit besides clock
    readings are its warning lines. *)
Definition isStdout (e : event) : bool :=
  match e with EvStdout _ => true | _ => false end.

(** A call of [AddRecipient] or [RemoveRecipient], whatever it returned. *)
Definition isCommit (e : event) : bool :=
  match e with
  | EvAddRecipient _ _ _ _ | EvRemoveRecipient _ _ _ _ => true
  | _ => false
  end.

(** ... one that returned nil. *)
Definition isCommitted (e : event) : bool :=
  match e with
  | EvAddRecipient _ _ _ None | EvRemoveRecipient _ _ _ None => true
  | _ => false
  end.

(** ... one that returned an error. *)
Definition isFailedCommit (e : event) : bool :=
  match e with
  | EvAddRecipient _ _ _ (Some _) | EvRemoveRecipient _ _ _ (Some _) => true
  | _ => false
  end.

Definition isCyan (e : event) : bool :=
  match e with EvCyan _ => true | _ => false end.

Definition isSetRecipients (e : event) : bool :=
  match e with EvSetRecipients _ _ _ => true | _ => false end.

(** No confirmation was asked for. *)
Definition noConfirm (t : trace) : bool :=
  forallb (fun e => negb (isConfirm e)) t.

Definition count (p : event -> bool) (t : trace) : nat := length (filter p t).

(** The store and recipient of every commit call, in order. *)
Fixpoint commits (t : trace) : list (string * string) :=
  match t with
  | [] => []
  | EvAddRecipient _ s r _ :: t' | EvRemoveRecipient _ s r _ :: t' =>
      (s, r) :: commits t'
  | _ :: t' => commits t'
  end.

(** Something was written to stdout. *)
Definition warned (t : trace) : bool := existsb isStdout t.


(** The three outcomes of a selection over [ids] shown as [choices]: nothing
    to choose from; accept or show of the entry at a valid index; anything
    else is an abort. *)
Definition selectionOutcome (W : Env) (title usage : string)
    (ids choices : list string) (h : trace)
    (out : res (list string * option error) * trace) : Prop :=
  match choices with
  | [] => out = (Val ([], None), h)
  | _ :: _ =>
      let act := fst (cui_GetSelection W h title usage choices) in
      let sel := snd (cui_GetSelection W h title usage choices) in
      let h' := (h ++ [EvSelection title usage choices act sel])%list in
      if (act =? "default") || (act =? "show") then
        forall id,
          (0 <= sel)%Z -> nth_error ids (Z.to_nat sel) = Some id ->
          out = (Val ([id], None), h')
      else out = (Val ([], Some userAborted), h')
  end.

Definition tally (ok bad : nat) (t : trace) : Prop :=
  count isCommitted t = ok /\ count isFailedCommit t = bad.

Definition recipientsError (e : error) : Prop :=
  exists msg, e = ExitError ExitRecipients msg.

(** One iteration of a batch loop commits at most once, and says so. *)
Definition commitStep (out : res iter) (ev : trace) : Prop :=
  match out with
  | Val Skipped => tally 0 0 ev
  | Val Committed => tally 1 0 ev
  | Val (Returned e) => tally 0 1 ev /\ recipientsError e
  | Panic => tally 0 0 ev
  end.

(** A selection, whatever it is over, appends at most the selection event,
    returns at most one identifier, and fails only as an abort that returns
    none. *)
Definition selectionRun (out : res (list string * option error) * trace)
    (h : trace) : Prop :=
  exists new,
    snd out = h ++ new
    /\ tally 0 0 new
    /\ count isCommit new = 0
    /\ forall l e, fst out = Val (l, e) ->
         length l <= 1 /\ (e <> None -> e = Some userAborted /\ l = []).

(** The frame that [RecipientsAdd] and [RecipientsRemove] share around their
    selection, loop body and closing messages. *)
Definition batch (W : Env)
    (select : string -> M (list string * option error))
    (body : option Crypto -> string -> string -> M iter)
    (noKey : error) (done : nat -> M (option error))
    (store : string) (args : list string) : M (option error) :=
  (store <- (if (store =? "")%string
             then call (cui_AskForStore W) EvAskForStore
             else ret store) ;;
   crypto <- query (fun h => Store_Crypto W h store) ;;
   '(recipients, err) <- (if (length args <? 1)%nat
                          then select store
                          else ret (args, None)) ;;
   match err with
   | Some e => ret (Some e)
   | None =>
       r <- forRange (body crypto store) recipients 0 ;;
       match r with
       | inl e => ret (Some e)
       | inr n => if (n <? 1)%nat then ret (Some noKey) else done n
       end
   end)%monad.

Definition isPrint (e : event) : bool :=
  match e with EvPrint _ => true | _ => false end.

(** What one node of the reconciliation leaves behind: a skipped node wrote
    nothing; a node that wrote, or failed writing, was accepted before; a
    node that failed without having been accepted failed in the fetch, with
    an error other than the drift signal, and left nothing at all. *)
Definition updateStep (out : res iter) (ev : trace) : Prop :=
  match out with
  | Val Skipped => count isSetRecipients ev = 0
  | Val Committed => 1 <= count isAccepted ev
  | Val (Returned e) =>
      1 <= count isAccepted ev
      \/ (ev = [] /\ exists x, e = External x
                               /\ x <> ErrRecipientChecksumChanged)
  | Panic => False
  end.




(** What the operator makes of the selection that a command run without
    arguments offers over [ids] at history [h]. *)
Inductive choice :=
| NothingToChoose          (* no entries: the selection is not shown *)
| Chosen (id : string)     (* accept or show, at the index of [id] *)
| Escaped                  (* any other action *)
| OutOfRange.              (* accept or show, at an index outside [ids] *)

Definition offered (W : Env) (title usage : string) (c : Crypto)
    (ids : list string) (h : trace) : choice :=
  match map (FormatKey c h) ids with
  | [] => NothingToChoose
  | choices =>
      let act := fst (cui_GetSelection W h title usage choices) in
      let sel := snd (cui_GetSelection W h title usage choices) in
      if ((act =? "default") || (act =? "show"))%string then
        if (sel <? 0)%Z then OutOfRange
        else match nth_error ids (Z.to_nat sel) with
             | Some id => Chosen id
             | None => OutOfRange
             end
      else Escaped
  end.

(** The selection as it enters the history. *)
Definition selectionEvent (W : Env) (title usage : string) (c : Crypto)
    (ids : list string) (h : trace) : event :=
  let choices := map (FormatKey c h) ids in
  EvSelection title usage choices
    (fst (cui_GetSelection W h title usage choices))
    (snd (cui_GetSelection W h title usage choices)).

(** A failed commit is the last thing in the history. *)
Definition endsFailed (t : trace) : Prop :=
  exists pre x, t = pre ++ [x] /\ isFailedCommit x = true.

(** One candidate handled with a crypto backend: it commits at most once,
    says so, ends on the commit that failed, and does not panic. *)
Definition commitEnd (out : res iter) (ev : trace) : Prop :=
  match out with
  | Val Skipped => tally 0 0 ev
  | Val Committed => tally 1 0 ev
  | Val (Returned e) => tally 0 1 ev /\ recipientsError e /\ endsFailed ev
  | Panic => False
  end.

(** The outcome of a batch command whose loop runs, told from the commits
    in what it appended: nothing committed and nothing failed gives [noKey];
    something committed and nothing failed gives success; and a commit that
    failed is the only one that did, is the last event, and gives a
    recipients error. *)
Definition batchVerdict (noKey : error) (out : res (option error))
    (new : trace) : Prop :=
  let ok := count isCommitted new in
  let bad := count isFailedCommit new in
  (bad = 0 /\ ok = 0 /\ out = Val (Some noKey))
  \/ (bad = 0 /\ 1 <= ok /\ out = Val None)
  \/ (bad = 1 /\ endsFailed new
      /\ exists e, out = Val (Some e) /\ recipientsError e).

(** A run of a batch command from [h], with [h0] the history after the
    store is settled, [ch] what the operator makes of the selection and
    [sel] the selection event: without arguments, leaving the selection
    aborts the command and an index out of range makes it panic, both right
    after the selection; in every other case the loop runs. *)
Definition batchRuns (noKey : error) (args : list string) (ch : choice)
    (sel : event) (h h0 : trace) (run : res (option error) * trace) : Prop :=
  match args, ch with
  | [], Escaped => run = (Val (Some userAborted), h0 ++ [sel])
  | [], OutOfRange => run = (Panic, h0 ++ [sel])
  | _, _ => exists out new, run = (out, h ++ new) /\ batchVerdict noKey out new
  end.

(** The audit, started at history [h], gets through the recipients [pre]
    without a lookup error and leaves the history [h1]: the key that comes
    after [pre] is examined at [h1]. *)
Definition reaches (W : Env) (c : Crypto) (th : Z) (pre : list string)
    (h h1 : trace) : Prop :=
  exists b, expirationLoop W c th pre false h = (Val (inr b), h1).

(** The expiration date of one of the recipients [rs] cannot be read when
    the audit gets to it, at history [h1]: the lookup returns the error
    [e]. *)
Definition lookupFails (W : Env) (c : Crypto) (th : Z) (rs : list string)
    (h : trace) (e : exterr) (h1 : trace) : Prop :=
  exists pre r post t,
    rs = pre ++ r :: post
    /\ reaches W c th pre h h1
    /\ ExpirationDateFromKey c h1 r = (t, Some e).

(** One of the recipients [rs] warns: when the audit gets to it its
    expiration date is read without error, and the notice for that date
    comes with the warn flag set. *)
Definition keyWarns (W : Env) (c : Crypto) (th : Z) (rs : list string)
    (h : trace) : Prop :=
  exists pre r post h1 t notice h2,
    rs = pre ++ r :: post
    /\ reaches W c th pre h h1
    /\ ExpirationDateFromKey c h1 r = (t, None)
    /\ renderExpirationNotice W t th h1 = (Val (notice, true), h2).

(** The recipients of one of the nodes cannot be fetched when the
    reconciliation, started at history [h], gets to that node at history
    [h1]: the node resolves, and the fetch returns the error [x], which is
    not the drift signal. *)
Definition fetchFails (W : Env) (h : trace) (x : exterr) (h1 : trace)
  : Prop :=
  exists before alias after n subs recp,
    updateNodes W (Store_MountPoints W h) = before ++ alias :: after
    /\ forRange (updateBody W) before 0 h = (Val (inr n), h1)
    /\ Store_GetSubStore W h1 alias = (Some subs, None)
    /\ GetRecipients subs h1 "" = (recp, Some x)
    /\ x <> ErrRecipientChecksumChanged.

(** The operator says no to every question. *)
Definition declinesAll (W : Env) : Prop :=
  forall h p, termio_AskForConfirmation W h p = false.

(** The aliases stand in ascending order of their length: none is longer
    than one that comes after it. *)
Fixpoint byLength (l : list string) : bool :=
  match l with
  | [] => true
  | a :: l' =>
      forallb (fun b => (String.length a <=? String.length b)%nat) l'
      && byLength l'
  end.

(** What the reconciliation reports once [changed] nodes were written. *)
Definition reportChanged (changed : nat) (h : trace)
  : res (option error) * trace :=
  (Val None,
   h ++ [EvGreen (if (0 <? changed)%nat
                  then ("Updated " ++ itoa changed ++ " stores")%string
                  else "Nothing to do")]).

(** The three clock readings [renderExpirationNotice] can make from the
    history [h]. *)
Definition reading1 (W : Env) (h : trace) : Z := time_Now W h.

Definition reading2 (W : Env) (h : trace) : Z :=
  time_Now W (h ++ [EvNow (reading1 W h)]).

Definition reading3 (W : Env) (h : trace) : Z :=
  time_Now W (h ++ [EvNow (reading1 W h); EvNow (reading2 W h)]).

Definition isNow (e : event) : bool :=
  match e with EvNow _ => true | _ => false end.

(** A line of the audit about one of the recipients [rs]. *)
Definition auditLine (rs : list string) (e : event) : Prop :=
  exists r name notice,
    In r rs /\ notice <> ""%string
    /\ e = EvStdout ("0x" ++ r ++ " (" ++ name ++ ") " ++ notice ++ "
")%string.

Definition auditEvent (rs : list string) (e : event) : Prop :=
  isNow e = true \/ auditLine rs e.

(** The store a batch command works on: the one given, or the one asked
    for when none is given. *)
Definition chosenStore (W : Env) (store : string) (h : trace) : string :=
  if (store =? "")%string then cui_AskForStore W h else store.

(** The question about the store, when it is asked. *)
Definition askEvents (W : Env) (store : string) (h : trace) : trace :=
  if (store =? "")%string then [EvAskForStore (cui_AskForStore W h)] else [].

(** How the dialogue about one candidate of add-recipients ends: without a
    question, with a declined question, or with an accepted question and,
    right after it, the call of AddRecipient for [store] with the
    storage-layer prompt switched off. *)
Definition addTail (store : string) (tl : trace) : Prop :=
  tl = []
  \/ (exists p, tl = [EvConfirm p false])
  \/ (exists p recp res,
         tl = [EvConfirm p true; EvAddRecipient true store recp res]).

(** How the handling of one candidate [r] of remove-recipients ends: without
    a call of the store, with a failed call of RemoveRecipient, or with a
    successful one and, right after it, the removal warning about [r]. *)
Definition removeTail (store r : string) (tl : trace) : Prop :=
  tl = []
  \/ (exists recp e, tl = [EvRemoveRecipient true store recp (Some e)])
  \/ (exists recp,
         tl = [EvRemoveRecipient true store recp None;
               EvStdout (removalWarning r)]).

(** Warnings and questions. *)
Definition isTalk (e : event) : bool :=
  match e with EvCyan _ | EvConfirm _ _ => true | _ => false end.

(** What a selection leaves in the history: nothing, or the selection. *)
Definition selectionEvents (ev : trace) : Prop :=
  ev = [] \/ exists t u c a s, ev = [EvSelection t u c a s].

(** The events a run of add-recipients on the store [st] may append: talk,
    the two interactive choices, and AddRecipient for [st] with the
    storage-layer prompt switched off. *)
Definition addEvent (st : string) (e : event) : bool :=
  match e with
  | EvCyan _ | EvGreen _ | EvConfirm _ _ | EvAskForStore _
  | EvSelection _ _ _ _ _ => true
  | EvAddRecipient noConfirm s _ _ => noConfirm && (s =? st)%string
  | _ => false
  end.

(** The same for remove-recipients, which also prints the removal warning. *)
Definition removeEvent (st : string) (e : event) : bool :=
  match e with
  | EvCyan _ | EvGreen _ | EvConfirm _ _ | EvAskForStore _
  | EvSelection _ _ _ _ _ | EvStdout _ => true
  | EvRemoveRecipient noConfirm s _ _ => noConfirm && (s =? st)%string
  | _ => false
  end.

(** The four lines about a candidate that matches no key. *)
Definition noMatchEvents (r : string) : trace :=
  [EvCyan "Warning: No matching valid key found. If the key is in your keyring you may need to validate it.";
   EvCyan ("If this is your key: gpg --edit-key " ++ r
             ++ "; trust (set to ultimate); quit")%string;
   EvCyan ("If this is not your key: gpg --edit-key " ++ r
             ++ "; lsign; trust; save; quit")%string;
   EvCyan "You may need to run 'gpg --update-trustdb' afterwards"].

(** The selection of either command over [ids], with a crypto backend. *)
Definition pickFrom (W : Env) (title usage : string) (c : Crypto)
    (ids : list string) (h : trace)
  : res (list string * option error) * trace :=
  match map (FormatKey c h) ids with
  | [] => (Val ([], None), h)
  | choices =>
      let act := fst (cui_GetSelection W h title usage choices) in
      let sel := snd (cui_GetSelection W h title usage choices) in
      selected ids act sel (h ++ [EvSelection title usage choices act sel])
  end.

(** A node the reconciliation passes by at history [h]: it does not
    resolve, or its recipients are read without error and a checksum is
    recorded for it. *)
Definition settled (W : Env) (h : trace) (alias : string) : Prop :=
  match Store_GetSubStore W h alias with
  | (Some subs, None) =>
      snd (GetRecipients subs h "") = None
      /\ cfg_GetRecipientHash W h alias (IDFile (sub_Crypto subs))
         <> ""%string
  | _ => True
  end.

(** A call of SetRecipients that returned nil. *)
Definition isWritten (e : event) : bool :=
  match e with EvSetRecipients _ _ None => true | _ => false end.

(** The dialogue about one node: nothing at all; or the header and the
    recipient lines followed by the question, declined; or followed by the
    question, accepted, and right after it the call of SetRecipients for
    that node (and an empty line when the call succeeded). *)
Definition nodeDialogue (alias : string) (ev : trace) : Prop :=
  ev = []
  \/ exists prints,
       forallb isPrint prints = true
       /\ (ev = EvCyan (confirmHeader alias) :: prints
                  ++ [EvConfirm (trustPrompt alias) false]
           \/ (exists recp e,
                  ev = EvCyan (confirmHeader alias) :: prints
                         ++ [EvConfirm (trustPrompt alias) true;
                             EvSetRecipients alias recp (Some e)])
           \/ (exists recp,
                  ev = EvCyan (confirmHeader alias) :: prints
                         ++ [EvConfirm (trustPrompt alias) true;
                             EvSetRecipients alias recp None;
                             EvPrint ""])).

(** The dialogue and how the iteration ends. *)
Definition nodeStep (alias : string) (out : res iter) (ev : trace) : Prop :=
  nodeDialogue alias ev
  /\ match out with
     | Val Skipped => count isWritten ev = 0
     | Val Committed => count isWritten ev = 1
     | Val (Returned _) => count isWritten ev = 0
     | Panic => False
     end.

(** The lines [printRecipients] prints for [recp] from history [h]. *)
Fixpoint printEvents (c : Crypto) (h : trace) (recp : list string) : trace :=
  match recp with
  | [] => []
  | r :: rest =>
      let e := EvPrint ("- " ++ FormatKey c h r)%string in
      e :: printEvents c (h ++ [e]) rest
  end.

(** How one candidate of add-recipients ends, with what it appended after
    its warnings: skipped without a question or on a no; committed by the
    call of AddRecipient right after the yes; or, when that call fails, the
    recipients error that names the candidate as it was given. *)
Definition addOutcome (W : Env) (store r : string) (out : res iter)
    (tl : trace) : Prop :=
  match out with
  | Val Skipped => tl = [] \/ exists p, tl = [EvConfirm p false]
  | Val Committed =>
      exists p recp,
        tl = [EvConfirm p true; EvAddRecipient true store recp None]
  | Val (Returned x) =>
      exists p recp e,
        tl = [EvConfirm p true; EvAddRecipient true store recp (Some e)]
        /\ x = ExitError ExitRecipients
                 ("failed to add recipient '" ++ r ++ "': "
                    ++ Error_ W e)%string
  | Panic => False
  end.

(** The same for remove-recipients, after its warnings and its self-removal
    question: skipped without a call of the store; committed by the call of
    RemoveRecipient, followed at once by the removal warning about the
    candidate as it was given; or the recipients error that names the
    fingerprint the store was called with. *)
Definition removeOutcome (W : Env) (store r : string) (out : res iter)
    (tl : trace) : Prop :=
  match out with
  | Val Skipped => tl = []
  | Val Committed =>
      exists recp,
        tl = [EvRemoveRecipient true store recp None;
              EvStdout (removalWarning r)]
  | Val (Returned x) =>
      exists recp e,
        tl = [EvRemoveRecipient true store recp (Some e)]
        /\ x = ExitError ExitRecipients
                 ("failed to remove recipient '" ++ recp ++ "': "
                    ++ Error_ W e)%string
  | Panic => False
  end.

(** ** Example worlds *)

(** Modelled from the spec: [store.ByPathLen] is not part of this file; the
    specification has the nodes ordered by ascending alias length.  An
    insertion sort on the length of the alias. *)
Fixpoint insertByLen (a : string) (l : list string) : list string :=
  match l with
  | [] => [a]
  | b :: l' =>
      if (String.length a <=? String.length b)%nat then a :: b :: l'
      else b :: insertByLen a l'
  end.

Definition sortByLen (l : list string) : list string :=
  fold_right insertByLen [] l.

(** A keyring in which [pub] and [priv] answer the lookups, [expiry] gives
    the expiration dates, the fingerprint of a key [k] is [FP:k] and it is
    shown as [<k>]. *)
Definition exCrypto (pub priv : string -> list string * option exterr)
    (expiry : string -> Z * option exterr) : Crypto := {|
  FindPublicKeys := fun _ q => pub (hd "" q);
  FindPrivateKeys := fun _ q => priv (hd "" q);
  Fingerprint := fun _ k => ("FP:" ++ k)%string;
  FormatKey := fun _ k => ("<" ++ k ++ ">")%string;
  ExpirationDateFromKey := fun _ k => expiry k;
  NameFromKey := fun _ k => k;
  IDFile := ".gpg-id"
|}.

(** A world around one crypto backend: [recps] are the recipients of every
    store, [confirm] answers the prompts, [commitErr] is what the store
    returns when a recipient is added or removed, [mounts] are the mount
    points, [nodes] resolves the sub stores, [selection] is what the operator
    picks and the clock stands at [now].  No checksum is recorded. *)
Definition exEnv (crypto : option Crypto) (recps : list string)
    (confirm : string -> bool)
    (commitErr : string -> option exterr)
    (mounts : list string)
    (nodes : string -> option SubStore * option exterr)
    (selection : string * Z) (now : Z) : Env := {|
  Store_Crypto := fun _ _ => crypto;
  Store_ListRecipients := fun _ _ => recps;
  Store_AddRecipient := fun _ _ _ recp => commitErr recp;
  Store_RemoveRecipient := fun _ _ _ recp => commitErr recp;
  Store_MountPoints := fun _ => mounts;
  Store_GetSubStore := fun _ alias => nodes alias;
  cfg_GetRecipientHash := fun _ _ _ => "";
  termio_AskForConfirmation := fun _ p => confirm p;
  cui_AskForStore := fun _ => "";
  cui_GetSelection := fun _ _ _ _ => selection;
  time_Now := fun _ => now;
  sort_ByPathLen := sortByLen;
  Time_String := fun _ => "T";
  Duration_String := fun _ => "D";
  Error_ := fun e => match e with
                     | ErrRecipientChecksumChanged => "checksum changed"
                     | ErrOther m => m
                     end
|}.

(** A keyring that knows the public key [K:r] of every [r] and no private
    key. *)
Definition pubOnly : Crypto :=
  exCrypto (fun r => ([("K:" ++ r)%string], None)) (fun _ => ([], None))
           (fun _ => (0%Z, None)).

(** A keyring whose private-key lookup fails. *)
Definition noSecretKeyring : Crypto :=
  exCrypto (fun r => ([("K:" ++ r)%string], None))
           (fun _ => ([], Some (ErrOther "no secret keyring")))
           (fun _ => (0%Z, None)).

(** A keyring that holds the private key [S:r] of every [r]. *)
Definition ownKey : Crypto :=
  exCrypto (fun r => ([("K:" ++ r)%string], None))
           (fun r => ([("S:" ++ r)%string], None))
           (fun _ => (0%Z, None)).

(** A clock standing at instant [now], and nothing else of interest. *)
Definition clockEnv (now : Z) : Env :=
  exEnv (Some pubOnly) [] (fun _ => true) (fun _ => None) []
        (fun _ => (None, None)) ("default", 0%Z) now.

(** A store that fails to commit the fingerprint [FP:K:b]. *)
Definition diskFull : Env :=
  exEnv (Some pubOnly) [] (fun _ => true)
        (fun recp => if (recp =? "FP:K:b")%string
                     then Some (ErrOther "disk full") else None)
        [] (fun _ => (None, None)) ("default"%string, 0%Z) 0.

(** A store with the recipients [r1] and [r2], in which the operator picks
    the second entry with show. *)
Definition twoRecipients : Env :=
  exEnv (Some pubOnly) ["r1"%string; "r2"%string] (fun _ => true)
        (fun _ => None) [] (fun _ => (None, None)) ("show"%string, 1%Z) 0.

(** A keyring in which key [a] expired at instant 5 and the expiration date
    of key [b] cannot be read. *)
Definition auditCrypto : Crypto :=
  exCrypto (fun r => ([("K:" ++ r)%string], None)) (fun _ => ([], None))
           (fun k => if (k =? "a")%string then (5%Z, None)
                     else if (k =? "b")%string
                          then (0%Z, Some (ErrOther "unreadable key"))
                          else (0%Z, None)).

(** The recipients [a], [b] and [c] audited at instant 10. *)
Definition auditEnv : Env :=
  exEnv (Some auditCrypto) ["a"%string; "b"%string; "c"%string]
        (fun _ => true) (fun _ => None) [] (fun _ => (None, None))
        ("default"%string, 0%Z) 10.

(** A sub store whose recipient list drifted from its checksum. *)
Definition driftStore : SubStore := {|
  GetRecipients := fun _ _ =>
    (["FP:1"%string], Some ErrRecipientChecksumChanged);
  SetRecipients := fun _ _ => None;
  sub_Crypto := pubOnly
|}.

(** A sub store whose recipient list cannot be read. *)
Definition brokenStore : SubStore := {|
  GetRecipients := fun _ _ => ([], Some (ErrOther "io error"));
  SetRecipients := fun _ _ => None;
  sub_Crypto := pubOnly
|}.

(** The mount [m] cannot be read. *)
Definition brokenMount : Env :=
  exEnv (Some pubOnly) [] (fun _ => false) (fun _ => None) ["m"%string]
        (fun alias => if (alias =? "m")%string then (Some brokenStore, None)
                      else (Some driftStore, None))
        ("default"%string, 0%Z) 0.

(** The mounts [teamA/sub] and [teamA] and the root have all drifted; the
    operator declines every confirmation. *)
Definition teamMount : Env :=
  exEnv (Some pubOnly) [] (fun _ => false) (fun _ => None)
        ["teamA/sub"%string; "teamA"%string]
        (fun _ => (Some driftStore, None)) ("default"%string, 0%Z) 0.

(** The mount [m] has drifted and the root cannot be read; the operator
    declines every confirmation. *)
Definition brokenRoot : Env :=
  exEnv (Some pubOnly) [] (fun _ => false) (fun _ => None) ["m"%string]
        (fun alias => if (alias =? "m")%string then (Some driftStore, None)
                      else (Some brokenStore, None))
        ("default"%string, 0%Z) 0.

(** A keyring that knows no key at all. *)
Definition emptyKeyring : Crypto :=
  exCrypto (fun _ => ([], None)) (fun _ => ([], None)) (fun _ => (0%Z, None)).

(** A root store with an empty keyring. *)
Definition emptyKeyringEnv : Env :=
  exEnv (Some emptyKeyring) [] (fun _ => true) (fun _ => None) []
        (fun _ => (None, None)) ("default"%string, 0%Z) 0.

(** A keyring whose public-key lookup fails. *)
Definition lockedKeyring : Crypto :=
  exCrypto (fun _ => ([], Some (ErrOther "keyring locked")))
           (fun _ => ([], None)) (fun _ => (0%Z, None)).

(** The operator leaves the selection over [r1] and [r2] with escape. *)
Definition escapeEnv : Env :=
  exEnv (Some pubOnly) ["r1"%string; "r2"%string] (fun _ => true)
        (fun _ => None) [] (fun _ => (None, None)) ("esc"%string, 0%Z) 0.

(** The root has drifted and the operator accepts. *)
Definition acceptingEnv : Env :=
  exEnv (Some pubOnly) [] (fun _ => true) (fun _ => None) []
        (fun _ => (Some driftStore, None)) ("default"%string, 0%Z) 0.

(** A recipients tree with two entries. *)
Definition twoEntries : TreeOracle :=
  fun _ _ _ =>
    (Some {| Tree_Format := fun _ => "tree";
             Tree_List := fun _ => ["0xA"%string; "0xB"%string] |}, None).

(** A recipients tree that cannot be built. *)
Definition noTree : TreeOracle :=
  fun _ _ _ => (None, Some (ErrOther "no store")).




(** A store around the keyring [pubOnly] whose operator says no to
    everything. *)
Definition decliningEnv : Env :=
  exEnv (Some pubOnly) [] (fun _ => false) (fun _ => None) []
        (fun _ => (None, None)) ("default"%string, 0%Z) 0.

(** The recipients [c], which never expires, and [a], which expired at
    instant 5, audited at instant 10. *)
Definition expiredEnv : Env :=
  exEnv (Some auditCrypto) ["c"%string; "a"%string]
        (fun _ => true) (fun _ => None) [] (fun _ => (None, None))
        ("default"%string, 0%Z) 10.

(** A store without a crypto backend, with one recipient. *)
Definition noBackend : Env :=
  exEnv None ["a"%string] (fun _ => true) (fun _ => None) []
        (fun _ => (None, None)) ("default"%string, 0%Z) 10.

(** A sub store whose recipients are read without error. *)
Definition quietStore : SubStore := {|
  GetRecipients := fun _ _ => (["FP:1"%string], None);
  SetRecipients := fun _ _ => None;
  sub_Crypto := pubOnly
|}.

(** The world [W] with [hash] as the checksum recorded for every node. *)
Definition withHash (W : Env) (hash : string) : Env := {|
  Store_Crypto := Store_Crypto W;
  Store_ListRecipients := Store_ListRecipients W;
  Store_AddRecipient := Store_AddRecipient W;
  Store_RemoveRecipient := Store_RemoveRecipient W;
  Store_MountPoints := Store_MountPoints W;
  Store_GetSubStore := Store_GetSubStore W;
  cfg_GetRecipientHash := fun _ _ _ => hash;
  termio_AskForConfirmation := termio_AskForConfirmation W;
  cui_AskForStore := cui_AskForStore W;
  cui_GetSelection := cui_GetSelection W;
  time_Now := time_Now W;
  sort_ByPathLen := sort_ByPathLen W;
  Time_String := Time_String W;
  Duration_String := Duration_String W;
  Error_ := Error_ W
|}.

(** The mount [team] and the root are read without error and have a
    checksum on record; the mount [old] does not resolve. *)
Definition recordedEnv : Env :=
  withHash
    (exEnv (Some pubOnly) [] (fun _ => true) (fun _ => None)
       ["team"%string; "old"%string]
       (fun alias => if (alias =? "old")%string then (None, None)
                     else (Some quietStore, None))
       ("default"%string, 0%Z) 0)
    "5d41402a".

(** ** Properties *)

(* Messages stay folded while a command is evaluated symbolically. *)
Arguments append : simpl never.
Arguments addPrompt : simpl never.
Arguments selfPrompt : simpl never.
Arguments removalWarning : simpl never.
Arguments confirmHeader : simpl never.
Arguments trustPrompt : simpl never.
Arguments itoa : simpl never.
Arguments removeTitle : simpl never.
Arguments removeUsage : simpl never.
Arguments addTitle : simpl never.
Arguments addUsage : simpl never.

(** *** Counting events *)

Lemma count_app p (t u : trace) : count p (t ++ u) = count p t + count p u.
Proof. unfold count. now rewrite filter_app, length_app. Qed.

(** *** Loops *)

Lemma forRange_app body (l1 l2 : list string) (n : nat) (h : trace) :
  forRange body (l1 ++ l2) n h
  = match forRange body l1 n h with
    | (Val (inr m), h') => forRange body l2 m h'
    | other => other
    end.
Proof.
  revert n h. induction l1 as [| r l1 IH]; intros n h; [reflexivity |].
  cbn [app forRange]. unfold bind.
  destruct (body r h) as [[[| | e] |] h1]; cbn; auto.
Qed.

(** *** The public-key lookup shared by add and remove *)


Lemma resolve_trace (W : Env) (c : Crypto) (force : bool) (r : string)
    (h : trace) :
  exists (v : option string) (ws : trace),
    resolve W c force r h = (Val v, h ++ ws) /\ forallb isCyan ws = true.
Proof.
  unfold resolve, noMatchingKey, bind, query, ret, emit.
  destruct (FindPublicKeys c h [r]) as [keys [e |]].
  - destruct force; cbn.
    + eexists _, [_]. split; reflexivity.
    + eexists _, [_]. split; reflexivity.
  - destruct keys as [| k ks]; cbn.
    + destruct force; cbn.
      * exists (Some r), []. now rewrite app_nil_r.
      * eexists None, [_; _; _; _].
        rewrite <- !app_assoc. split; reflexivity.
    + eexists _, []. now rewrite app_nil_r.
Qed.

(** A lookup that fails is reported; under force the input itself stands in
    for the keys and is sent through [Fingerprint]. *)
Lemma resolve_failed (W : Env) (c : Crypto) (force : bool) (r : string)
    (h : trace) (keys : list string) (e : exterr) :
  FindPublicKeys c h [r] = (keys, Some e) ->
  let h' := h ++ [EvCyan ("WARNING: Failed to list public key '" ++ r
                            ++ "': " ++ Error_ W e)%string] in
  resolve W c force r h
  = (Val (if force then Some (Fingerprint c h' r) else None), h').
Proof.
  intros Hk. unfold resolve, bind, query, emit, ret. rewrite Hk.
  destruct force; reflexivity.
Qed.

(** Without force a lookup that finds nothing is answered with the four
    lines about the missing key. *)
Lemma resolve_unmatched (W : Env) (c : Crypto) (r : string) (h : trace) :
  FindPublicKeys c h [r] = ([], None) ->
  resolve W c false r h = (Val None, h ++ noMatchEvents r).
Proof.
  intros Hk. unfold resolve, noMatchingKey, bind, query, emit, ret.
  rewrite Hk. cbn. unfold noMatchEvents. now rewrite <- !app_assoc.
Qed.

(** *** renderExpirationNotice *)

(** C3, as amended: for every expiration date that is set and every warn
    threshold, if the clock reads strictly later than the expiration date the
    evaluation returns shouldWarn = true with the message
    "expired at <expiration>"; when the clock reads exactly the expiration
    date the key is not reported as expired. *)
Theorem renderExpirationNotice_expired (W : Env) (e th : Z) (h : trace) :
  e <> 0%Z ->
  ((e < time_Now W h)%Z ->
   renderExpirationNotice W e th h
   = (Val (("expired at " ++ Time_String W e)%string, true),
      h ++ [EvNow (time_Now W h)]))
  /\ (time_Now W h = e ->
      forall msg warn h',
        renderExpirationNotice W e th h = (Val (msg, warn), h') ->
        String.prefix "expired at " msg = false).
Proof.
  intros He. unfold renderExpirationNotice.
  destruct (Z.eqb_spec e 0) as [E0 | _]; [contradiction |].
  cbv [negb bind Now Until call ret].
  split.
  - intros Hlt. apply Z.ltb_lt in Hlt. now rewrite Hlt.
  - intros Heq msg warn h' Hrun.
    rewrite Heq, Z.ltb_irrefl in Hrun.
    destruct (_ <? _)%Z in Hrun; inversion Hrun; reflexivity.
Qed.

Lemma renderExpirationNotice_expired_witness :
  renderExpirationNotice (clockEnv 10) 5 0 []
  = (Val ("expired at T", true), [EvNow 10%Z]).
Proof.
  apply (proj1 (renderExpirationNotice_expired (clockEnv 10) 5 0 []
                  ltac:(discriminate))).
  reflexivity.
Defined.

(** C3 as stated fails when the clock reads exactly the expiration date:
    with a zero threshold there is no warning at all. *)
Lemma renderExpirationNotice_at_expiration :
  (5 <> 0)%Z /\ (time_Now (clockEnv 5) [] >= 5)%Z
  /\ renderExpirationNotice (clockEnv 5) 5 0 []
     = (Val ("", false), [EvNow 5%Z; EvNow 5%Z]).
Proof. repeat split; [discriminate | vm_compute; discriminate]. Qed.

(** *** The recipient handed to the store *)

Lemma commits_app (t u : trace) : commits (t ++ u) = commits t ++ commits u.
Proof.
  induction t as [| e t IH]; [reflexivity |].
  destruct e; cbn; now rewrite ?IH.
Qed.

Lemma cyan_count (p : event -> bool) (ws : trace) :
  (forall m, p (EvCyan m) = false) ->
  forallb isCyan ws = true -> count p ws = 0.
Proof.
  intros Hp. induction ws as [| e ws IH]; [reflexivity |].
  destruct e; cbn; try discriminate.
  intros H. unfold count in *. cbn. rewrite Hp. auto.
Qed.

(** What the self-removal check appends: the confirmation, if it asks. *)
Lemma selfCheck_run (W : Env) (c : Crypto) (r : string) (h : trace) :
  selfCheck W c r h
  = match FindPrivateKeys c h [r] with
    | (_ :: _, None) =>
        let a := termio_AskForConfirmation W h (selfPrompt r) in
        (Val a, h ++ [EvConfirm (selfPrompt r) a])
    | _ => (Val true, h)
    end.
Proof.
  unfold selfCheck, bind, query, ret, AskForConfirmation, call.
  destruct (FindPrivateKeys c h [r]) as [[| k kl] [e |]]; reflexivity.
Qed.






(** *** The self-removal check *)

Lemma noConfirm_app (t u : trace) :
  noConfirm (t ++ u) = noConfirm t && noConfirm u.
Proof. apply forallb_app. Qed.

Lemma cyan_noConfirm (ws : trace) :
  forallb isCyan ws = true -> noConfirm ws = true.
Proof.
  induction ws as [| e ws IH]; [reflexivity |].
  destruct e; cbn; try discriminate. exact IH.
Qed.

Lemma noConfirm_In (t : trace) (p : string) (a : bool) :
  noConfirm t = true -> ~ In (EvConfirm p a) t.
Proof.
  intros H Hin. unfold noConfirm in H.
  rewrite forallb_forall in H. specialize (H _ Hin). discriminate.
Qed.

(** After the self-removal check the body of remove asks nothing. *)
Lemma removeRest_trace (W : Env) (c : Crypto) (store : string) (force : bool)
    (r : string) (h : trace) :
  exists (v : iter) (new : trace),
    removeRest W c store force r h = (Val v, h ++ new)
    /\ noConfirm new = true.
Proof.
  unfold removeRest, bind.
  destruct (resolve_trace W c force r h) as [v [ws [Hr Hws]]].
  rewrite Hr. apply cyan_noConfirm in Hws.
  destruct v as [recp |]; unfold call, emit, ret.
  - destruct (Store_RemoveRecipient W _ true store recp) as [e |]; cbn.
    + eexists _, (ws ++ [_]). rewrite <- app_assoc. split; [reflexivity |].
      now rewrite noConfirm_app, Hws.
    + eexists _, (ws ++ [_; _]). rewrite <- !app_assoc.
      split; [reflexivity |]. now rewrite noConfirm_app, Hws.
  - eexists _, ws. now split.
Qed.

(** C10: in remove-recipients the self-removal confirmation is requested only
    when the private-key lookup succeeds and returns at least one match; when
    [FindPrivateKeys] returns an error the error is dropped and the removal
    goes on as if there had been no check: the body is the rest of the body,
    and it asks for no confirmation at all. *)
Theorem self_removal_only_on_match (W : Env) (c : Crypto) (store : string)
    (force : bool) (r : string) (h : trace) :
  exists new,
    snd (removeBody W (Some c) store force r h) = h ++ new
    /\ ((exists p a, In (EvConfirm p a) new)
        <-> (exists k kl, FindPrivateKeys c h [r] = (k :: kl, None)))
    /\ (forall kl e,
           FindPrivateKeys c h [r] = (kl, Some e) ->
           removeBody W (Some c) store force r h
           = removeRest W c store force r h
           /\ noConfirm new = true).
Proof.
  unfold removeBody, bind, deref, ret. rewrite selfCheck_run.
  destruct (FindPrivateKeys c h [r]) as [[| k kl] [e |]] eqn:Hp; cbn.
  1-3: destruct (removeRest_trace W c store force r h) as [v [new [Hr Hn]]];
       rewrite Hr; exists new; cbn; split; [reflexivity |]; split;
       [ split;
         [ intros [p [a Hin]]; now apply noConfirm_In in Hin
         | intros [k' [kl' Heq]]; discriminate ]
       | intros kl' e' Heq; now split ].
  destruct (termio_AskForConfirmation W h (selfPrompt r)); cbn.
  - destruct (removeRest_trace W c store force r
                (h ++ [EvConfirm (selfPrompt r) true])) as [v [new [Hr Hn]]].
    rewrite Hr. exists (EvConfirm (selfPrompt r) true :: new). cbn.
    rewrite <- app_assoc. split; [reflexivity |]. split.
    + split; [intros _; now exists k, kl | intros _; eexists _, _; now left].
    + intros kl' e' Heq; discriminate.
  - exists [EvConfirm (selfPrompt r) false]. split; [reflexivity |]. split.
    + split; [intros _; now exists k, kl | intros _; eexists _, _; now left].
    + intros kl' e' Heq; discriminate.
Qed.

Lemma self_removal_only_on_match_witness :
  removeBody (clockEnv 0) (Some noSecretKeyring) "vault" false "bob" []
  = removeRest (clockEnv 0) noSecretKeyring "vault" false "bob" [].
Proof.
  destruct (self_removal_only_on_match (clockEnv 0) noSecretKeyring "vault"
              false "bob" []) as [new [_ [_ H]]].
  exact (proj1 (H [] (ErrOther "no secret keyring") eq_refl)).
Defined.

(** C2, as amended: remove-recipients has no standard per-candidate
    confirmation.  The only confirmation a candidate can receive is the
    self-removal one; it is asked when the candidate matches one of the
    operator's own private keys, as the first thing the body does and so
    before the commit, and declining it skips the candidate; a candidate that
    matches no private key is handled without any confirmation. *)
Theorem remove_asks_only_self_removal (W : Env) (c : Crypto) (store : string)
    (force : bool) (r : string) (h : trace) :
  exists new,
    snd (removeBody W (Some c) store force r h) = h ++ new
    /\ (forall p a, In (EvConfirm p a) new -> p = selfPrompt r)
    /\ (forall k kl,
           FindPrivateKeys c h [r] = (k :: kl, None) ->
           let a := termio_AskForConfirmation W h (selfPrompt r) in
           exists rest,
             new = EvConfirm (selfPrompt r) a :: rest
             /\ noConfirm rest = true
             /\ (a = false ->
                 rest = []
                 /\ fst (removeBody W (Some c) store force r h) = Val Skipped))
    /\ (FindPrivateKeys c h [r] = ([], None) ->
        noConfirm new = true
        /\ removeBody W (Some c) store force r h
           = removeRest W c store force r h).
Proof.
  unfold removeBody, bind, deref, ret. rewrite selfCheck_run.
  destruct (FindPrivateKeys c h [r]) as [[| k kl] [e |]] eqn:Hp; cbn.
  1-3: destruct (removeRest_trace W c store force r h) as [v [new [Hr Hn]]];
       rewrite Hr; exists new; cbn; split; [reflexivity |]; split;
       [ intros p a Hin; now apply noConfirm_In in Hin
       | split; [intros k' kl' Heq; discriminate | intros Heq; try discriminate; now split] ].
  destruct (termio_AskForConfirmation W h (selfPrompt r)) eqn:Ha; cbn.
  - destruct (removeRest_trace W c store force r
                (h ++ [EvConfirm (selfPrompt r) true])) as [v [new [Hr Hn]]].
    rewrite Hr. exists (EvConfirm (selfPrompt r) true :: new). cbn.
    rewrite <- app_assoc. split; [reflexivity |]. split; [| split].
    + intros p a [Heq | Hin]; [now inversion Heq |].
      now apply noConfirm_In in Hin.
    + intros k' kl' _. exists new. split; [reflexivity |].
      split; [exact Hn | discriminate].
    + discriminate.
  - exists [EvConfirm (selfPrompt r) false]. split; [reflexivity |].
    split; [| split].
    + intros p a [Heq | []]. now inversion Heq.
    + intros k' kl' _. exists []. split; [reflexivity |].
      split; [reflexivity | intros _; split; reflexivity].
    + discriminate.
Qed.

Lemma remove_asks_only_self_removal_witness :
  exists new,
    snd (removeBody (clockEnv 0) (Some ownKey) "vault" false "me" [])
    = [] ++ new
    /\ exists rest,
        new = EvConfirm (selfPrompt "me") true :: rest
        /\ noConfirm rest = true.
Proof.
  destruct (remove_asks_only_self_removal (clockEnv 0) ownKey "vault" false
              "me" []) as [new [Hs [_ [H _]]]].
  exists new. split; [exact Hs |].
  destruct (H "S:me"%string [] eq_refl) as [rest [Hn [Hc _]]].
  exists rest. split; [exact Hn | exact Hc].
Defined.

(** C2 as stated fails: a candidate that is not the operator's own key is
    removed without any confirmation, and the operator's own key is removed
    after the self-removal confirmation alone. *)
Lemma remove_without_standard_confirmation :
  RecipientsRemove (clockEnv 0) "vault" false ["bob"%string] []
  = (Val None,
     [EvRemoveRecipient true "vault" "FP:K:bob" None;
      EvStdout (removalWarning "bob");
      EvGreen "
Removed 1 recipients";
      EvCyan "You need to run 'gopass sync' to push these changes"])
  /\ RecipientsRemove (exEnv (Some ownKey) [] (fun _ => true) (fun _ => None)
                         [] (fun _ => (None, None)) ("default"%string, 0%Z) 0)
       "vault" false ["me"%string] []
     = (Val None,
        [EvConfirm (selfPrompt "me") true;
         EvRemoveRecipient true "vault" "FP:K:me" None;
         EvStdout (removalWarning "me");
         EvGreen "
Removed 1 recipients";
         EvCyan "You need to run 'gopass sync' to push these changes"]).
Proof. split; vm_compute; reflexivity. Qed.

(** *** Invariants of the batch loops *)

Section ForRangeInv.

Variable body : string -> M iter.
(** [Inv count t]: the counter and the events since the loop was entered. *)
Variable Inv : nat -> trace -> Prop.
Variable PostE : error -> trace -> Prop.
Variable PostP : trace -> Prop.

Hypothesis body_step : forall r h,
  exists ev,
    snd (body r h) = h ++ ev
    /\ forall n t, Inv n t ->
         match fst (body r h) with
         | Val Skipped => Inv n (t ++ ev)
         | Val Committed => Inv (S n) (t ++ ev)
         | Val (Returned e) => PostE e (t ++ ev)
         | Panic => PostP (t ++ ev)
         end.

Lemma forRange_inv (rs : list string) : forall n h t,
  Inv n t ->
  exists new,
    snd (forRange body rs n h) = h ++ new
    /\ match fst (forRange body rs n h) with
       | Val (inr m) => Inv m (t ++ new)
       | Val (inl e) => PostE e (t ++ new)
       | Panic => PostP (t ++ new)
       end.
Proof.
  induction rs as [| r rs IH]; intros n h t HI.
  - exists []. cbn. now rewrite !app_nil_r.
  - cbn [forRange]. unfold bind.
    destruct (body_step r h) as [ev [Hs Hstep]]. specialize (Hstep n t HI).
    destruct (body r h) as [[[| | e] |] h1]; cbn in Hs, Hstep; subst h1.
    + destruct (IH n (h ++ ev) (t ++ ev) Hstep) as [new [Hs' Hp]].
      exists (ev ++ new). rewrite !app_assoc. now split.
    + destruct (IH (S n) (h ++ ev) (t ++ ev) Hstep) as [new [Hs' Hp]].
      exists (ev ++ new). rewrite !app_assoc. now split.
    + exists ev. now split.
    + exists ev. now split.
Qed.

End ForRangeInv.

(** A property of what every turn appends, if appending preserves it, is a
    property of what the loop appends. *)
Lemma forRange_all (body : string -> M iter) (P : trace -> Prop) :
  P [] ->
  (forall a b, P a -> P b -> P (a ++ b)) ->
  (forall r h, exists ev, snd (body r h) = h ++ ev /\ P ev) ->
  forall rs n h,
  exists new, snd (forRange body rs n h) = h ++ new /\ P new.
Proof.
  intros Pnil Papp Hb rs n h.
  destruct (forRange_inv body (fun _ t => P t) (fun _ t => P t) P)
    with (rs := rs) (n := n) (h := h) (t := @nil event) as [new [Hs Hp]].
  - intros r h0. destruct (Hb r h0) as [ev [Hs Hev]]. exists ev.
    split; [exact Hs |]. intros m t Ht.
    destruct (fst (body r h0)) as [[| | e] |]; now apply Papp.
  - exact Pnil.
  - exists new. split; [exact Hs |]. cbn [app] in Hp.
    destruct (fst (forRange body rs n h)) as [[e | m] |]; exact Hp.
Qed.

(** *** Counting commits *)

Lemma tally_app ok bad ok' bad' (t u : trace) :
  tally ok bad t -> tally ok' bad' u -> tally (ok + ok') (bad + bad') (t ++ u).
Proof. unfold tally. intros [? ?] [? ?]. rewrite !count_app. lia. Qed.

Lemma tally_cyan (ws : trace) : forallb isCyan ws = true -> tally 0 0 ws.
Proof. intros H. split; apply cyan_count; auto. Qed.

Lemma addBody_step (W : Env) crypto store force r h :
  exists ev,
    snd (addBody W crypto store force r h) = h ++ ev
    /\ commitStep (fst (addBody W crypto store force r h)) ev.
Proof.
  destruct crypto as [c |]; unfold addBody, bind, deref, panic, ret.
  2: { exists []. cbn. rewrite app_nil_r. repeat split. }
  destruct (resolve_trace W c force r h) as [v [ws [Hr Hws]]].
  rewrite Hr. apply tally_cyan in Hws.
  destruct v as [recp |]; unfold query, AskForConfirmation, call, ret.
  - destruct (termio_AskForConfirmation W _ _); cbn.
    + destruct (Store_AddRecipient W _ true store recp) as [e |]; cbn;
        eexists (ws ++ [_; _]); rewrite <- !app_assoc;
        (split; [reflexivity |]).
      * split; [| eexists; reflexivity].
        apply (tally_app 0 0 0 1); [exact Hws | split; reflexivity].
      * apply (tally_app 0 0 1 0); [exact Hws | split; reflexivity].
    + eexists (ws ++ [_]). rewrite <- !app_assoc. split; [reflexivity |].
      apply (tally_app 0 0 0 0); [exact Hws | split; reflexivity].
  - exists ws. now split.
Qed.

Lemma removeRest_step (W : Env) c store force r h :
  exists ev,
    snd (removeRest W c store force r h) = h ++ ev
    /\ commitStep (fst (removeRest W c store force r h)) ev.
Proof.
  unfold removeRest, bind.
  destruct (resolve_trace W c force r h) as [v [ws [Hr Hws]]].
  rewrite Hr. apply tally_cyan in Hws.
  destruct v as [recp |]; unfold call, emit, ret.
  - destruct (Store_RemoveRecipient W _ true store recp) as [e |]; cbn.
    + eexists (ws ++ [_]). rewrite <- !app_assoc. split; [reflexivity |].
      split; [| eexists; reflexivity].
      apply (tally_app 0 0 0 1); [exact Hws | split; reflexivity].
    + eexists (ws ++ [_; _]). rewrite <- !app_assoc.
      split; [reflexivity |].
      apply (tally_app 0 0 1 0); [exact Hws | split; reflexivity].
  - exists ws. now split.
Qed.

Lemma removeBody_step (W : Env) crypto store force r h :
  exists ev,
    snd (removeBody W crypto store force r h) = h ++ ev
    /\ commitStep (fst (removeBody W crypto store force r h)) ev.
Proof.
  destruct crypto as [c |]; unfold removeBody, bind, deref, panic, ret.
  2: { exists []. cbn. rewrite app_nil_r. repeat split. }
  rewrite selfCheck_run.
  destruct (FindPrivateKeys c h [r]) as [[| k kl] [e |]]; cbn;
    try apply removeRest_step.
  destruct (termio_AskForConfirmation W h (selfPrompt r)); cbn.
  - destruct (removeRest_step W c store force r
                (h ++ [EvConfirm (selfPrompt r) true])) as [ev [Hs Hc]].
    exists (EvConfirm (selfPrompt r) true :: ev).
    rewrite Hs, <- app_assoc. split; [reflexivity |].
    destruct (fst (removeRest W c store force r _)) as [[| | e] |];
      cbn in *; unfold tally, count in *; cbn; exact Hc.
  - eexists [_]. split; [reflexivity | split; reflexivity].
Qed.

(** *** Interactive selection *)

Lemma formatChoices_some (c : Crypto) (ids : list string) :
  forall acc h,
    formatChoices (Some c) ids acc h
    = (Val (acc ++ map (FormatKey c h) ids), h).
Proof.
  induction ids as [| id ids IH]; intros acc h; cbn.
  - unfold ret. now rewrite app_nil_r.
  - unfold bind, ret, query. rewrite IH, <- app_assoc. reflexivity.
Qed.

Lemma formatChoices_nil (ids acc : list string) (h : trace) :
  formatChoices None ids acc h
  = match ids with [] => (Val acc, h) | _ => (Panic, h) end.
Proof. destruct ids; reflexivity. Qed.

(** The selection never returns more than one identifier and appends nothing
    that is a commit or a confirmation. *)
Lemma selected_short (ids : list string) (act : string) (sel : Z) (h : trace) :
  snd (selected ids act sel h) = h
  /\ forall l e, fst (selected ids act sel h) = Val (l, e) -> length l <= 1.
Proof.
  unfold selected, index, bind, ret, panic.
  destruct ((act =? "default")%string || (act =? "show")%string).
  - destruct (sel <? 0)%Z; cbn.
    + split; [reflexivity | discriminate].
    + destruct (nth_error ids (Z.to_nat sel)); cbn;
        (split; [reflexivity |]); intros l e H; inversion H; cbn; lia.
  - cbn. split; [reflexivity |]. intros l e H; inversion H; cbn; lia.
Qed.

Lemma selection_tail (W : Env) (title usage : string)
    (ids choices : list string) (h : trace) :
  selectionRun
    (bind (GetSelection W title usage choices)
          (fun x => let '(act, sel) := x in selected ids act sel) h) h.
Proof.
  unfold bind, GetSelection, call.
  destruct (cui_GetSelection W h title usage choices) as [act sel]. cbn.
  pose proof (selected_short ids act sel
                (h ++ [EvSelection title usage choices act sel])) as [Hs Hl].
  destruct (selected ids act sel _) as [[[l e] |] h1] eqn:Hsel;
    cbn in Hs; subst h1; eexists [_]; (split; [reflexivity |]);
    (split; [split; reflexivity |]); (split; [reflexivity |]);
    intros l' e' H; inversion H; subst.
  split; [now apply (Hl l' e') |].
  revert Hsel. unfold selected, index, bind, ret, panic.
  destruct ((act =? "default")%string || (act =? "show")%string).
  - destruct (sel <? 0)%Z; [discriminate |].
    destruct (nth_error ids (Z.to_nat sel)); [| discriminate].
    intros Heq; inversion Heq. now intros [].
  - intros Heq; inversion Heq. now split.
Qed.

Lemma selectionRun_quiet (l : list string) (h : trace) :
  length l <= 1 -> selectionRun (Val (l, None), h) h.
Proof.
  intros Hl. exists []. cbn. rewrite app_nil_r.
  split; [reflexivity |]. split; [split; reflexivity |].
  split; [reflexivity |].
  intros l' e' H; inversion H; subst. split; [exact Hl |]. now intros [].
Qed.

Lemma selectionRun_panic (h : trace) : selectionRun (Panic, h) h.
Proof.
  exists []. cbn. rewrite app_nil_r. repeat split; discriminate.
Qed.

Lemma recipientsSelectForRemoval_run (W : Env) (store : string) (h : trace) :
  selectionRun (recipientsSelectForRemoval W store h) h.
Proof.
  unfold recipientsSelectForRemoval.
  unfold bind at 1 2 3. unfold query.
  destruct (Store_Crypto W h store) as [c |].
  - rewrite formatChoices_some. cbn [app].
    destruct (map _ _) as [| ch chs]; cbn [length Nat.ltb Nat.leb].
    + apply selectionRun_quiet; cbn; lia.
    + apply selection_tail.
  - rewrite formatChoices_nil.
    destruct (Store_ListRecipients W h store).
    + apply selectionRun_quiet; cbn; lia.
    + apply selectionRun_panic.
Qed.

Lemma recipientsSelectForAdd_run (W : Env) (store : string) (h : trace) :
  selectionRun (recipientsSelectForAdd W store h) h.
Proof.
  unfold recipientsSelectForAdd.
  unfold bind at 1 2 3 4. unfold query, deref, ret, panic.
  destruct (Store_Crypto W h store) as [c |]; [| apply selectionRun_panic].
  destruct (FindPublicKeys c h []) as [kl e].
  rewrite formatChoices_some. cbn [app].
  destruct (map _ _) as [| ch chs]; cbn [length Nat.ltb Nat.leb].
  - apply selectionRun_quiet; cbn; lia.
  - apply selection_tail.
Qed.

(** *** The outcome of add-recipients and remove-recipients *)

Lemma batch_loop (body : string -> M iter) :
  (forall r h, exists ev,
      snd (body r h) = h ++ ev /\ commitStep (fst (body r h)) ev) ->
  forall rs h,
  exists new,
    snd (forRange body rs 0 h) = h ++ new
    /\ match fst (forRange body rs 0 h) with
       | Val (inr m) => tally m 0 new
       | Val (inl e) => (exists ok, tally ok 1 new) /\ recipientsError e
       | Panic => exists ok, tally ok 0 new
       end.
Proof.
  intros Hb rs h.
  apply (forRange_inv body (fun n t => tally n 0 t)
           (fun e t => (exists ok, tally ok 1 t) /\ recipientsError e)
           (fun t => exists ok, tally ok 0 t)) with (t := []).
  - intros r h0. destruct (Hb r h0) as [ev [Hs Hc]]. exists ev.
    split; [exact Hs |]. intros n t HI.
    destruct (fst (body r h0)) as [[| | e] |]; cbn in Hc.
    + replace n with (n + 0) by lia. now apply (tally_app n 0 0 0).
    + replace (S n) with (n + 1) by lia. now apply (tally_app n 0 1 0).
    + destruct Hc as [Hc He]. split; [| exact He].
      exists (n + 0). now apply (tally_app n 0 0 1).
    + exists (n + 0). now apply (tally_app n 0 0 0).
  - split; reflexivity.
Qed.

Lemma askStore_run (W : Env) (store : string) (h : trace) :
  exists s ev,
    (if (store =? "")%string then call (cui_AskForStore W) EvAskForStore
     else ret store) h = (Val s, h ++ ev)
    /\ tally 0 0 ev /\ count isCommit ev = 0.
Proof.
  destruct (store =? "")%string; unfold call, ret.
  - eexists _, [_]. repeat split.
  - exists store, []. rewrite app_nil_r. repeat split.
Qed.

Lemma RecipientsAdd_batch (W : Env) store force args :
  RecipientsAdd W store force args
  = batch W (recipientsSelectForAdd W)
      (fun crypto st => addBody W crypto st force) noKeyAdded
      (fun added =>
         emit (EvGreen ("
Added " ++ itoa added ++ " recipients")%string) ;;;
         emit (EvCyan "You need to run 'gopass sync' to push these changes") ;;;
         ret None)%monad
      store args.
Proof. reflexivity. Qed.

Lemma RecipientsRemove_batch (W : Env) store force args :
  RecipientsRemove W store force args
  = batch W (recipientsSelectForRemoval W)
      (fun crypto st => removeBody W crypto st force) noKeyRemoved
      (fun removed =>
         emit (EvGreen ("
Removed " ++ itoa removed ++ " recipients")%string) ;;;
         emit (EvCyan "You need to run 'gopass sync' to push these changes") ;;;
         ret None)%monad
      store args.
Proof. reflexivity. Qed.

(** The store of the command and the question about it. *)
Lemma askStore_chosen (W : Env) (store : string) (h : trace) :
  (if (store =? "")%string then call (cui_AskForStore W) EvAskForStore
   else ret store) h
  = (Val (chosenStore W store h), h ++ askEvents W store h).
Proof.
  unfold chosenStore, askEvents, call, ret.
  destruct (store =? "")%string; [reflexivity | now rewrite app_nil_r].
Qed.

(** With a crypto backend both selections are [pickFrom]. *)
Lemma recipientsSelectForRemoval_pick (W : Env) (store : string) (h : trace)
    (c : Crypto) :
  Store_Crypto W h store = Some c ->
  recipientsSelectForRemoval W store h
  = pickFrom W removeTitle removeUsage c (Store_ListRecipients W h store) h.
Proof.
  intros Hc. unfold recipientsSelectForRemoval, pickFrom.
  unfold bind at 1 2 3. unfold query. rewrite Hc, formatChoices_some.
  cbn [app]. destruct (map _ _) as [| ch chs]; [reflexivity |].
  cbn [length Nat.ltb Nat.leb]. unfold bind, GetSelection, call.
  now destruct (cui_GetSelection W h removeTitle removeUsage (ch :: chs)).
Qed.

Lemma recipientsSelectForAdd_pick (W : Env) (store : string) (h : trace)
    (c : Crypto) :
  Store_Crypto W h store = Some c ->
  recipientsSelectForAdd W store h
  = pickFrom W addTitle addUsage c (fst (FindPublicKeys c h [])) h.
Proof.
  intros Hc. unfold recipientsSelectForAdd, pickFrom.
  unfold bind at 1 2 3 4. unfold query, deref, ret. rewrite Hc.
  destruct (FindPublicKeys c h []) as [kl e]. cbn [fst].
  rewrite formatChoices_some.
  cbn [app]. destruct (map _ _) as [| ch chs]; [reflexivity |].
  cbn [length Nat.ltb Nat.leb]. unfold bind, GetSelection, call.
  now destruct (cui_GetSelection W h addTitle addUsage (ch :: chs)).
Qed.

(** The selection, told from what the operator makes of it. *)
Lemma pickFrom_offered (W : Env) (title usage : string) (c : Crypto)
    (ids : list string) (h : trace) :
  pickFrom W title usage c ids h
  = match offered W title usage c ids h with
    | NothingToChoose => (Val ([], None), h)
    | Chosen id =>
        (Val ([id], None), h ++ [selectionEvent W title usage c ids h])
    | Escaped =>
        (Val ([], Some userAborted),
         h ++ [selectionEvent W title usage c ids h])
    | OutOfRange => (Panic, h ++ [selectionEvent W title usage c ids h])
    end.
Proof.
  unfold pickFrom, offered, selectionEvent.
  destruct (map (FormatKey c h) ids) as [| ch chs]; [reflexivity |].
  cbv zeta. unfold selected, index, bind, ret, panic.
  destruct ((_ =? "default")%string || (_ =? "show")%string);
    [| reflexivity].
  destruct (_ <? 0)%Z; [reflexivity |].
  now destruct (nth_error ids _).
Qed.

Lemma endsFailed_app (t u : trace) : endsFailed u -> endsFailed (t ++ u).
Proof.
  intros [pre [x [-> Hx]]]. exists (t ++ pre), x.
  now rewrite app_assoc.
Qed.

(** With a crypto backend the handling of a candidate does not panic, and
    a commit that fails is the last thing it does. *)
Lemma addBody_end (W : Env) c store force r h :
  exists ev,
    snd (addBody W (Some c) store force r h) = h ++ ev
    /\ commitEnd (fst (addBody W (Some c) store force r h)) ev.
Proof.
  unfold addBody, bind, deref, ret.
  destruct (resolve_trace W c force r h) as [v [ws [Hr Hws]]].
  rewrite Hr. apply tally_cyan in Hws.
  destruct v as [recp |]; unfold query, AskForConfirmation, call, ret.
  - destruct (termio_AskForConfirmation W _ _); cbn.
    + destruct (Store_AddRecipient W _ true store recp) as [e |]; cbn;
        eexists (ws ++ [_; _]); rewrite <- !app_assoc;
        (split; [reflexivity |]).
      * split; [| split; [eexists; reflexivity |]].
        -- apply (tally_app 0 0 0 1); [exact Hws | split; reflexivity].
        -- eexists (ws ++ [_]), _. rewrite <- app_assoc.
           split; reflexivity.
      * apply (tally_app 0 0 1 0); [exact Hws | split; reflexivity].
    + eexists (ws ++ [_]). rewrite <- !app_assoc. split; [reflexivity |].
      apply (tally_app 0 0 0 0); [exact Hws | split; reflexivity].
  - exists ws. now split.
Qed.

Lemma removeRest_end (W : Env) c store force r h :
  exists ev,
    snd (removeRest W c store force r h) = h ++ ev
    /\ commitEnd (fst (removeRest W c store force r h)) ev.
Proof.
  unfold removeRest, bind.
  destruct (resolve_trace W c force r h) as [v [ws [Hr Hws]]].
  rewrite Hr. apply tally_cyan in Hws.
  destruct v as [recp |]; unfold call, emit, ret.
  - destruct (Store_RemoveRecipient W _ true store recp) as [e |]; cbn.
    + eexists (ws ++ [_]). rewrite <- !app_assoc. split; [reflexivity |].
      split; [| split; [eexists; reflexivity |]].
      * apply (tally_app 0 0 0 1); [exact Hws | split; reflexivity].
      * eexists ws, _. split; reflexivity.
    + eexists (ws ++ [_; _]). rewrite <- !app_assoc.
      split; [reflexivity |].
      apply (tally_app 0 0 1 0); [exact Hws | split; reflexivity].
  - exists ws. now split.
Qed.

Lemma removeBody_end (W : Env) c store force r h :
  exists ev,
    snd (removeBody W (Some c) store force r h) = h ++ ev
    /\ commitEnd (fst (removeBody W (Some c) store force r h)) ev.
Proof.
  unfold removeBody, bind, deref, ret. rewrite selfCheck_run.
  destruct (FindPrivateKeys c h [r]) as [[| k kl] [e |]]; cbn;
    try apply removeRest_end.
  destruct (termio_AskForConfirmation W h (selfPrompt r)); cbn.
  - destruct (removeRest_end W c store force r
                (h ++ [EvConfirm (selfPrompt r) true])) as [ev [Hs Hc]].
    exists (EvConfirm (selfPrompt r) true :: ev).
    rewrite Hs, <- app_assoc. split; [reflexivity |].
    destruct (fst (removeRest W c store force r _)) as [[| | e] |];
      cbn in *; try exact Hc.
    destruct Hc as [Ht [He Hend]]. split; [exact Ht |]. split; [exact He |].
    now apply (endsFailed_app [EvConfirm (selfPrompt r) true]).
  - eexists [_]. split; [reflexivity | split; reflexivity].
Qed.

Section BatchRun.

Variable W : Env.
Variable select : string -> M (list string * option error).
Variable body : option Crypto -> string -> string -> M iter.
Variable noKey : error.
Variable done : nat -> M (option error).
Variable c : Crypto.

Hypothesis body_end : forall st r h,
  exists ev,
    snd (body (Some c) st r h) = h ++ ev
    /\ commitEnd (fst (body (Some c) st r h)) ev.
Hypothesis done_run : forall n h,
  exists ev, done n h = (Val None, h ++ ev) /\ tally 0 0 ev.

Lemma loop_end (st : string) (rs : list string) (h : trace) :
  exists out new,
    forRange (body (Some c) st) rs 0 h = (Val out, h ++ new)
    /\ match out with
       | inr m => tally m 0 new
       | inl e => (exists ok, tally ok 1 new) /\ recipientsError e
                  /\ endsFailed new
       end.
Proof.
  destruct (forRange_inv (body (Some c) st) (fun n t => tally n 0 t)
              (fun e t => (exists ok, tally ok 1 t) /\ recipientsError e
                          /\ endsFailed t)
              (fun _ => False)) with (rs := rs) (n := 0) (h := h)
                                     (t := @nil event) as [new [Hs Hp]].
  - intros r h0. destruct (body_end st r h0) as [ev [Hs Hc]]. exists ev.
    split; [exact Hs |]. intros n t HI.
    destruct (fst (body (Some c) st r h0)) as [[| | e] |]; cbn in Hc.
    + replace n with (n + 0) by lia. now apply (tally_app n 0 0 0).
    + replace (S n) with (n + 1) by lia. now apply (tally_app n 0 1 0).
    + destruct Hc as [Hc [He Hend]]. split; [| split].
      * exists (n + 0). now apply (tally_app n 0 0 1).
      * exact He.
      * now apply endsFailed_app.
    + exact Hc.
  - split; reflexivity.
  - cbn [app] in Hp.
    destruct (forRange (body (Some c) st) rs 0 h) as [[[e | m] |] h1];
      cbn in Hs, Hp; subst h1; [| | contradiction].
    + now exists (inl e), new.
    + now exists (inr m), new.
Qed.

Lemma batch_run (store : string) (args : list string) (h : trace)
    (rs : list string) (e1 : trace) :
  let h0 := h ++ askEvents W store h in
  let st := chosenStore W store h in
  Store_Crypto W h0 st = Some c ->
  (if (length args <? 1)%nat then select st else ret (args, None)) h0
  = (Val (rs, None), h0 ++ e1) ->
  tally 0 0 e1 ->
  exists out new,
    batch W select body noKey done store args h = (out, h ++ new)
    /\ batchVerdict noKey out new.
Proof.
  intros h0 st Hc Hsel T1.
  assert (T0 : tally 0 0 (askEvents W store h))
    by (unfold askEvents; destruct (store =? "")%string; split; reflexivity).
  unfold batch. unfold bind at 1. rewrite askStore_chosen. fold h0 st.
  unfold bind at 1. unfold query at 1. rewrite Hc.
  unfold bind at 1. rewrite Hsel. unfold bind.
  destruct (loop_end st rs (h0 ++ e1)) as [out [e2 [Hl T2]]].
  rewrite Hl. unfold h0. destruct out as [e | n].
  - destruct T2 as [[ok T2] [He Hend]].
    eexists _, (askEvents W store h ++ e1 ++ e2). rewrite !app_assoc.
    split; [reflexivity |]. right; right.
    pose proof (tally_app _ _ _ _ _ _ T0
                  (tally_app _ _ _ _ _ _ T1 T2)) as [_ Hb].
    rewrite <- !app_assoc. split; [exact Hb |]. split.
    + apply endsFailed_app. now apply endsFailed_app.
    + now exists e.
  - pose proof (tally_app _ _ _ _ _ _ T0
                  (tally_app _ _ _ _ _ _ T1 T2)) as T.
    destruct n as [| n]; cbn [Nat.ltb Nat.leb].
    + eexists _, (askEvents W store h ++ e1 ++ e2). rewrite !app_assoc.
      split; [reflexivity |]. left.
      rewrite <- !app_assoc. destruct T as [? ?]. auto.
    + destruct (done_run (S n) (((h ++ askEvents W store h) ++ e1) ++ e2))
        as [e3 [H3 T3]]. rewrite H3.
      eexists _, (askEvents W store h ++ e1 ++ e2 ++ e3).
      rewrite !app_assoc. split; [reflexivity |]. right; left.
      pose proof (tally_app _ _ _ _ _ _ T0
                    (tally_app _ _ _ _ _ _ T1
                       (tally_app _ _ _ _ _ _ T2 T3))) as [Ho Hb].
      rewrite <- !app_assoc. rewrite Ho, Hb. cbn.
      split; [reflexivity |]. split; [lia | reflexivity].
Qed.

Lemma batch_stops (store : string) (args : list string) (h : trace)
    (out : res (list string * option error)) (h1 : trace) :
  let h0 := h ++ askEvents W store h in
  let st := chosenStore W store h in
  (if (length args <? 1)%nat then select st else ret (args, None)) h0
  = (out, h1) ->
  match out with
  | Val (_, Some e) =>
      batch W select body noKey done store args h = (Val (Some e), h1)
  | Panic => batch W select body noKey done store args h = (Panic, h1)
  | _ => True
  end.
Proof.
  intros h0 st Hsel.
  destruct out as [[rs [e |]] |]; [| exact I |];
    unfold batch; unfold bind at 1; rewrite askStore_chosen; fold h0 st;
    unfold bind at 1; unfold query at 1;
    unfold bind at 1; rewrite Hsel; reflexivity.
Qed.

Lemma batch_offered (store : string) (args : list string) (h : trace)
    (title usage : string) (ids : list string) :
  let h0 := h ++ askEvents W store h in
  let st := chosenStore W store h in
  Store_Crypto W h0 st = Some c ->
  select st h0 = pickFrom W title usage c ids h0 ->
  batchRuns noKey args (offered W title usage c ids h0)
    (selectionEvent W title usage c ids h0) h h0
    (batch W select body noKey done store args h).
Proof.
  intros h0 st Hc Hpick. unfold batchRuns.
  assert (Hargs : forall a l, args = a :: l ->
            exists out new,
              batch W select body noKey done store args h = (out, h ++ new)
              /\ batchVerdict noKey out new).
  { intros a l ->.
    apply (batch_run store (a :: l) h (a :: l) []); [exact Hc | |].
    - cbn [length Nat.ltb Nat.leb]. unfold ret. now rewrite app_nil_r.
    - split; reflexivity. }
  destruct args as [| a l];
    [| destruct (offered W title usage c ids h0); now apply (Hargs a l)].
  rewrite pickFrom_offered in Hpick.
  destruct (offered W title usage c ids h0) as [| id | |].
  - apply (batch_run store [] h [] []); [exact Hc | |].
    + cbn [length Nat.ltb Nat.leb]. fold h0 st. rewrite Hpick.
      now rewrite app_nil_r.
    + split; reflexivity.
  - apply (batch_run store [] h [id]
             [selectionEvent W title usage c ids h0]); [exact Hc | |].
    + cbn [length Nat.ltb Nat.leb]. fold h0 st. exact Hpick.
    + split; reflexivity.
  - apply (batch_stops store [] h (Val ([], Some userAborted))).
    cbn [length Nat.ltb Nat.leb]. exact Hpick.
  - apply (batch_stops store [] h Panic).
    cbn [length Nat.ltb Nat.leb]. exact Hpick.
Qed.

End BatchRun.

Lemma emit2_run (g c : string) (h : trace) :
  exists ev,
    (emit (EvGreen g) ;;; emit (EvCyan c) ;;; ret None)%monad h
    = (@Val (option error) None, h ++ ev)
    /\ tally 0 0 ev.
Proof.
  exists [EvGreen g; EvCyan c].
  unfold bind, emit, ret. rewrite <- app_assoc. repeat split.
Qed.

(** C5, as amended: with a crypto backend for the store, and with its
    candidates given as arguments or picked in the selection (or none to
    pick from), add-recipients and remove-recipients fail with
    "no key added" / "no key removed" when nothing was committed and no
    commit failed, succeed when something was committed and no commit
    failed, and return a recipients error right after the one commit that
    failed, whatever was committed before; they do not panic.  Run without
    arguments, they return the user-aborted error when the operator leaves
    the selection, and panic when the chosen index is out of range, both
    right after the selection.  Without a crypto backend add-recipients
    panics, and so does remove-recipients unless it has neither arguments
    nor recipients to choose from. *)
Theorem batch_needs_a_commit (W : Env) (store : string) (force : bool)
    (args : list string) (h : trace) :
  let h0 := h ++ askEvents W store h in
  let st := chosenStore W store h in
  (forall c,
      Store_Crypto W h0 st = Some c ->
      let keys := fst (FindPublicKeys c h0 []) in
      let recps := Store_ListRecipients W h0 st in
      batchRuns noKeyAdded args
        (offered W addTitle addUsage c keys h0)
        (selectionEvent W addTitle addUsage c keys h0) h h0
        (RecipientsAdd W store force args h)
      /\ batchRuns noKeyRemoved args
           (offered W removeTitle removeUsage c recps h0)
           (selectionEvent W removeTitle removeUsage c recps h0) h h0
           (RecipientsRemove W store force args h))
  /\ (Store_Crypto W h0 st = None ->
      RecipientsAdd W store force args h = (Panic, h0)
      /\ RecipientsRemove W store force args h
         = match args, Store_ListRecipients W h0 st with
           | [], [] => (Val (Some noKeyRemoved), h0)
           | _, _ => (Panic, h0)
           end).
Proof.
  intros h0 st. split.
  - intros c Hc keys recps. split.
    + rewrite RecipientsAdd_batch.
      apply batch_offered;
        [| intros n h1; apply emit2_run | exact Hc |].
      * intros st0 r h1. apply addBody_end.
      * now apply recipientsSelectForAdd_pick.
    + rewrite RecipientsRemove_batch.
      apply batch_offered;
        [| intros n h1; apply emit2_run | exact Hc |].
      * intros st0 r h1. apply removeBody_end.
      * now apply recipientsSelectForRemoval_pick.
  - intros Hc. split.
    + unfold RecipientsAdd. unfold bind at 1. rewrite askStore_chosen.
      fold h0 st. unfold bind at 1. unfold query at 1. rewrite Hc.
      destruct args as [| a l]; cbn [length Nat.ltb Nat.leb].
      * unfold bind at 1. unfold recipientsSelectForAdd.
        unfold bind at 1. unfold query at 1. rewrite Hc. reflexivity.
      * reflexivity.
    + unfold RecipientsRemove. unfold bind at 1. rewrite askStore_chosen.
      fold h0 st. unfold bind at 1. unfold query at 1. rewrite Hc.
      destruct args as [| a l]; cbn [length Nat.ltb Nat.leb].
      * unfold bind at 1. unfold recipientsSelectForRemoval.
        unfold bind at 1 2 3. unfold query. rewrite Hc.
        rewrite formatChoices_nil.
        now destruct (Store_ListRecipients W h0 st).
      * reflexivity.
Qed.

Lemma batch_needs_a_commit_witness :
  (let new := [EvConfirm (addPrompt "<FP:K:bob>" "vault") false] in
   RecipientsAdd decliningEnv "vault" false ["bob"%string] []
   = (Val (Some noKeyAdded), [] ++ new)
   /\ batchVerdict noKeyAdded (Val (Some noKeyAdded)) new)
  /\ RecipientsAdd noBackend "vault" false ["bob"%string] []
     = (Panic, [] ++ []).
Proof.
  split.
  - intros new.
    destruct (proj1 (proj1 (batch_needs_a_commit decliningEnv "vault" false
                              ["bob"%string] [])
                       pubOnly eq_refl)) as [out [new' [Hrun Hv]]].
    vm_compute in Hrun. inversion Hrun; subst out new'.
    split; [reflexivity | exact Hv].
  - exact (proj1 (proj2 (batch_needs_a_commit noBackend "vault" false
                           ["bob"%string] []) eq_refl)).
Defined.

(** C5 as stated fails: with one successful commit behind it, the batch
    still fails when the next commit does; and with no commit at all the
    command does not return "no key removed" when the operator leaves the
    selection, nor "no key added" when the store has no crypto backend. *)
Lemma batch_outcome_beyond_the_count :
  (RecipientsAdd diskFull "vault" false ["a"%string; "b"%string] []
   = (Val (Some (ExitError ExitRecipients
                   "failed to add recipient 'b': disk full")),
      [EvConfirm (addPrompt "<FP:K:a>" "vault") true;
       EvAddRecipient true "vault" "FP:K:a" None;
       EvConfirm (addPrompt "<FP:K:b>" "vault") true;
       EvAddRecipient true "vault" "FP:K:b" (Some (ErrOther "disk full"))])
   /\ count isCommitted
        (snd (RecipientsAdd diskFull "vault" false
                ["a"%string; "b"%string] []))
      = 1)
  /\ RecipientsRemove escapeEnv "vault" false [] []
     = (Val (Some userAborted),
        [EvSelection removeTitle removeUsage ["<r1>"%string; "<r2>"%string]
           "esc" 0])
  /\ RecipientsAdd noBackend "vault" false ["bob"%string] [] = (Panic, []).
Proof. repeat split; vm_compute; reflexivity. Qed.

(** *** At most one interactively chosen recipient *)

Lemma count_isCommit (t : trace) :
  count isCommit t = count isCommitted t + count isFailedCommit t.
Proof.
  unfold count. induction t as [| e t IH]; [reflexivity |].
  destruct e as [| | | | | | | ? ? ? [|] | ? ? ? [|] | |]; cbn; lia.
Qed.

Lemma tally_isCommit ok bad (t : trace) :
  tally ok bad t -> count isCommit t = ok + bad.
Proof. intros [? ?]. rewrite count_isCommit. lia. Qed.

Lemma forRange_commit_bound (body : string -> M iter) :
  (forall r h, exists ev,
      snd (body r h) = h ++ ev /\ commitStep (fst (body r h)) ev) ->
  forall rs n h,
  exists new,
    snd (forRange body rs n h) = h ++ new
    /\ count isCommit new <= length rs.
Proof.
  intros Hb rs. induction rs as [| r rs IH]; intros n h.
  - exists []. cbn. now rewrite app_nil_r.
  - cbn [forRange length]. unfold bind.
    destruct (Hb r h) as [ev [Hs Hc]].
    assert (Hev : count isCommit ev <= 1).
    { destruct (fst (body r h)) as [[| | e] |]; cbn in Hc;
        [| | destruct Hc as [Hc _] |];
        apply tally_isCommit in Hc; lia. }
    destruct (body r h) as [[[| | e] |] h1]; cbn in Hs; subst h1.
    + destruct (IH n (h ++ ev)) as [new [Hs' Hn]].
      exists (ev ++ new). rewrite app_assoc, count_app.
      split; [exact Hs' | lia].
    + destruct (IH (S n) (h ++ ev)) as [new [Hs' Hn]].
      exists (ev ++ new). rewrite app_assoc, count_app.
      split; [exact Hs' | lia].
    + exists ev. split; [reflexivity | lia].
    + exists ev. split; [reflexivity | lia].
Qed.

Section BatchBound.

Variable W : Env.
Variable select : string -> M (list string * option error).
Variable body : option Crypto -> string -> string -> M iter.
Variable noKey : error.
Variable done : nat -> M (option error).

Hypothesis select_run : forall st h, selectionRun (select st h) h.
Hypothesis body_run : forall crypto st r h,
  exists ev,
    snd (body crypto st r h) = h ++ ev
    /\ commitStep (fst (body crypto st r h)) ev.
Hypothesis done_run : forall n h,
  exists ev, done n h = (Val None, h ++ ev) /\ tally 0 0 ev.

(** Without arguments the loop runs over what the selection returned. *)
Lemma batch_selected_bound (store : string) (h : trace) :
  exists out new,
    batch W select body noKey done store [] h = (out, h ++ new)
    /\ count isCommit new <= 1.
Proof.
  unfold batch.
  destruct (askStore_run W store h) as [s [e0 [H0 [_ C0]]]].
  unfold bind at 1. rewrite H0. unfold bind at 1. unfold query at 1.
  set (crypto := Store_Crypto W (h ++ e0) s).
  unfold bind at 1. cbn [length Nat.ltb Nat.leb].
  destruct (select_run s (h ++ e0)) as [e1 [H1 [_ [C1 Hl]]]].
  destruct (select s (h ++ e0)) as [[[recipients [e |]] |] h1];
    cbn in H1; subst h1.
  - eexists _, (e0 ++ e1). rewrite app_assoc. split; [reflexivity |].
    rewrite count_app. lia.
  - destruct (Hl recipients None eq_refl) as [Hlen _].
    unfold bind.
    destruct (forRange_commit_bound (body crypto s) (body_run crypto s)
                recipients 0 ((h ++ e0) ++ e1)) as [e2 [H2 C2]].
    destruct (forRange (body crypto s) recipients 0 ((h ++ e0) ++ e1))
      as [[[e | n] |] h2]; cbn in H2; subst h2.
    + eexists _, (e0 ++ e1 ++ e2). rewrite !app_assoc.
      split; [reflexivity |]. rewrite <- !app_assoc, !count_app. lia.
    + destruct n as [| n]; cbn [Nat.ltb Nat.leb].
      * eexists _, (e0 ++ e1 ++ e2). rewrite !app_assoc.
        split; [reflexivity |]. rewrite <- !app_assoc, !count_app. lia.
      * destruct (done_run (S n) (((h ++ e0) ++ e1) ++ e2))
          as [e3 [H3 T3]]. rewrite H3. apply tally_isCommit in T3.
        eexists _, (e0 ++ e1 ++ e2 ++ e3). rewrite !app_assoc.
        split; [reflexivity |]. rewrite <- !app_assoc, !count_app. lia.
    + eexists _, (e0 ++ e1 ++ e2). rewrite !app_assoc.
      split; [reflexivity |]. rewrite <- !app_assoc, !count_app. lia.
  - eexists _, (e0 ++ e1). rewrite app_assoc. split; [reflexivity |].
    rewrite count_app. lia.
Qed.

End BatchBound.

Lemma selected_outcome (W : Env) (title usage : string)
    (ids : list string) (ch : string) (chs : list string) (h : trace) :
  selectionOutcome W title usage ids (ch :: chs) h
    (bind (GetSelection W title usage (ch :: chs))
          (fun x => let '(act, sel) := x in selected ids act sel) h).
Proof.
  unfold selectionOutcome, bind, GetSelection, call.
  destruct (cui_GetSelection W h title usage (ch :: chs)) as [act sel].
  cbn [fst snd]. unfold selected, index, bind, ret.
  destruct ((act =? "default")%string || (act =? "show")%string);
    [| reflexivity].
  intros id Hsel Hid. apply Z.ltb_ge in Hsel. now rewrite Hsel, Hid.
Qed.

(** C9: an interactive selection returns at most one candidate.  With a
    crypto backend at hand, the removal selection over the recipients of the
    store and the add selection over all public keys return an empty list and
    no error when there is nothing to choose from, the one chosen identifier
    on accept or show (of a valid index), and the user-aborted error with no
    candidate otherwise; whatever happens, the list returned has at most one
    element, and a command run without arguments calls the store for at most
    one commit. *)
Theorem selection_at_most_one (W : Env) (store : string) (h : trace) :
  (forall c,
      Store_Crypto W h store = Some c ->
      let ids := Store_ListRecipients W h store in
      let kl := fst (FindPublicKeys c h []) in
      selectionOutcome W removeTitle removeUsage ids
        (map (FormatKey c h) ids) h (recipientsSelectForRemoval W store h)
      /\ selectionOutcome W addTitle addUsage kl
           (map (FormatKey c h) kl) h (recipientsSelectForAdd W store h))
  /\ (forall l e,
         fst (recipientsSelectForRemoval W store h) = Val (l, e)
         \/ fst (recipientsSelectForAdd W store h) = Val (l, e) ->
         length l <= 1)
  /\ (forall force,
         (exists out new,
             RecipientsAdd W store force [] h = (out, h ++ new)
             /\ count isCommit new <= 1)
         /\ (exists out new,
                RecipientsRemove W store force [] h = (out, h ++ new)
                /\ count isCommit new <= 1)).
Proof.
  split; [| split].
  - intros c Hc ids kl. split.
    + unfold recipientsSelectForRemoval.
      unfold bind at 1 2 3. unfold query. rewrite Hc.
      rewrite formatChoices_some. cbn [app]. fold ids.
      destruct (map (FormatKey c h) ids) as [| ch chs] eqn:Hm;
        cbn [length Nat.ltb Nat.leb].
      * reflexivity.
      * apply selected_outcome.
    + unfold recipientsSelectForAdd.
      unfold bind at 1 2 3 4. unfold query, deref, ret. rewrite Hc.
      subst kl. destruct (FindPublicKeys c h []) as [kl e]. cbn [fst].
      rewrite formatChoices_some. cbn [app].
      destruct (map (FormatKey c h) kl) as [| ch chs] eqn:Hm;
        cbn [length Nat.ltb Nat.leb].
      * reflexivity.
      * apply selected_outcome.
  - intros l e [H | H].
    + destruct (recipientsSelectForRemoval_run W store h)
        as [new [_ [_ [_ Hl]]]]. now apply (Hl l e).
    + destruct (recipientsSelectForAdd_run W store h)
        as [new [_ [_ [_ Hl]]]]. now apply (Hl l e).
  - intros force. split.
    + rewrite RecipientsAdd_batch. apply batch_selected_bound.
      * apply recipientsSelectForAdd_run.
      * intros crypto st. apply addBody_step.
      * intros n. apply emit2_run.
    + rewrite RecipientsRemove_batch. apply batch_selected_bound.
      * apply recipientsSelectForRemoval_run.
      * intros crypto st. apply removeBody_step.
      * intros n. apply emit2_run.
Qed.

Lemma selection_at_most_one_witness :
  recipientsSelectForRemoval twoRecipients "vault" []
  = (Val (["r2"%string], None),
     [] ++ [EvSelection removeTitle removeUsage
              ["<r1>"%string; "<r2>"%string] "show" 1]).
Proof.
  exact (proj1 (proj1 (selection_at_most_one twoRecipients "vault" [])
                  pubOnly eq_refl)
           "r2"%string ltac:(discriminate) eq_refl).
Defined.

(** *** The expiration audit *)

(** Evaluating one expiration date reads the clock and prints nothing. *)
Lemma renderExpirationNotice_quiet (W : Env) (e th : Z) (h : trace) :
  exists v ev,
    renderExpirationNotice W e th h = (Val v, h ++ ev) /\ warned ev = false.
Proof.
  unfold renderExpirationNotice, Until, Now, bind, call, ret.
  destruct (negb (e =? 0)%Z).
  - destruct (e <? time_Now W h)%Z.
    + eexists _, [_]. split; reflexivity.
    + destruct (e <? time_Now W _ + th)%Z.
      * eexists _, [_; _; _]. rewrite <- !app_assoc. split; reflexivity.
      * eexists _, [_; _]. rewrite <- !app_assoc. split; reflexivity.
  - eexists _, []. rewrite app_nil_r. split; reflexivity.
Qed.

(** One turn of the loop of the audit. *)
Lemma expirationLoop_cons (W : Env) (c : Crypto) (th : Z) (r : string)
    (rest : list string) (hasErr : bool) (h : trace) :
  expirationLoop W c th (r :: rest) hasErr h
  = match ExpirationDateFromKey c h r with
    | (_, Some x) => (Val (inl (External x)), h)
    | (t, None) =>
        match renderExpirationNotice W t th h with
        | (Val (notice, true), h') =>
            expirationLoop W c th rest true
              (h' ++ [EvStdout ("0x" ++ r ++ " (" ++ NameFromKey c h r
                                  ++ ") " ++ notice ++ "
")%string])
        | (Val (_, false), h') => expirationLoop W c th rest hasErr h'
        | (Panic, h') => (Panic, h')
        end
    end.
Proof.
  cbn [expirationLoop]. unfold bind, query, emit, ret.
  destruct (ExpirationDateFromKey c h r) as [t [x |]]; [reflexivity |].
  destruct (renderExpirationNotice W t th h) as [[[notice [|]] |] h'];
    reflexivity.
Qed.

Lemma expirationLoop_app (W : Env) (c : Crypto) (th : Z)
    (l1 l2 : list string) :
  forall hasErr h b h1,
    expirationLoop W c th l1 hasErr h = (Val (inr b), h1) ->
    expirationLoop W c th (l1 ++ l2) hasErr h
    = expirationLoop W c th l2 b h1.
Proof.
  induction l1 as [| r l1 IH]; intros hasErr h b h1.
  - cbn. unfold ret. intros H; inversion H; reflexivity.
  - cbn [app]. rewrite !expirationLoop_cons.
    destruct (ExpirationDateFromKey c h r) as [t [x |]]; [discriminate |].
    destruct (renderExpirationNotice W t th h) as [[[notice [|]] |] h2];
      [apply IH | apply IH | discriminate].
Qed.

Lemma expirationLoop_abort (W : Env) (c : Crypto) (th : Z) (r : string)
    (rest : list string) (hasErr : bool) (h : trace) (t : Z) (e : exterr) :
  ExpirationDateFromKey c h r = (t, Some e) ->
  expirationLoop W c th (r :: rest) hasErr h = (Val (inl (External e)), h).
Proof. intros H. rewrite expirationLoop_cons. now rewrite H. Qed.

(** The ways to split a list that ends in [x] around one of its
    elements. *)
Lemma snoc_split {A} (l : list A) (x : A) (pre : list A) (y : A)
    (post : list A) :
  l ++ [x] = pre ++ y :: post ->
  (post = [] /\ pre = l /\ y = x)
  \/ exists post', post = post' ++ [x] /\ l = pre ++ y :: post'.
Proof.
  intros Heq. destruct post as [| z post].
  - apply app_inj_tail in Heq as [Hl Hx]. left. now repeat split.
  - destruct (exists_last (l := z :: post) ltac:(discriminate))
      as [post' [w Hlast]].
    rewrite Hlast in Heq |- *.
    rewrite app_comm_cons, app_assoc in Heq.
    apply app_inj_tail in Heq as [Hl Hw]. subst w.
    right. now exists post'.
Qed.

(** The loop over [l1 ++ l2] is the loop over [l1] followed, if that one
    gets through, by the loop over [l2]. *)
Lemma expirationLoop_snoc (W : Env) (c : Crypto) (th : Z)
    (l1 l2 : list string) :
  forall hasErr h,
    expirationLoop W c th (l1 ++ l2) hasErr h
    = match expirationLoop W c th l1 hasErr h with
      | (Val (inr b), h1) => expirationLoop W c th l2 b h1
      | other => other
      end.
Proof.
  induction l1 as [| r l1 IH]; intros hasErr h; [reflexivity |].
  cbn [app]. rewrite !expirationLoop_cons.
  destruct (ExpirationDateFromKey c h r) as [t [x |]]; [reflexivity |].
  destruct (renderExpirationNotice W t th h) as [[[notice [|]] |] h2];
    [apply IH | apply IH | reflexivity].
Qed.

Lemma reaches_unique (W : Env) (c : Crypto) (th : Z) (pre : list string)
    (h h1 h2 : trace) :
  reaches W c th pre h h1 -> reaches W c th pre h h2 -> h1 = h2.
Proof. intros [b1 H1] [b2 H2]. rewrite H1 in H2. now inversion H2. Qed.

Lemma lookupFails_snoc (W : Env) (c : Crypto) (th : Z) (l : list string)
    (x : string) (h : trace) (e : exterr) (h1 : trace) :
  lookupFails W c th l h e h1 -> lookupFails W c th (l ++ [x]) h e h1.
Proof.
  intros [pre [r [post [t [-> [Hr He]]]]]].
  exists pre, r, (post ++ [x]), t. rewrite <- app_assoc. now repeat split.
Qed.

Lemma keyWarns_snoc (W : Env) (c : Crypto) (th : Z) (l : list string)
    (x : string) (h : trace) :
  keyWarns W c th l h -> keyWarns W c th (l ++ [x]) h.
Proof.
  intros [pre [r [post [h1 [t [notice [h2 [-> [Hr [He Hn]]]]]]]]]].
  exists pre, r, (post ++ [x]), h1, t, notice, h2.
  rewrite <- app_assoc. now repeat split.
Qed.

(** The loop of the audit, told from what happens to each key: it returns
    the error of the lookup that fails, at the history where it fails; and
    when no lookup fails, the flag it returns says whether a key warned. *)
Lemma expirationLoop_verdict (W : Env) (c : Crypto) (th : Z)
    (rs : list string) (h : trace) :
  exists out new,
    expirationLoop W c th rs false h = (Val out, h ++ new)
    /\ match out with
       | inl err =>
           exists e, err = External e
                     /\ lookupFails W c th rs h e (h ++ new)
       | inr b =>
           (forall e h1, ~ lookupFails W c th rs h e h1)
           /\ (b = true <-> keyWarns W c th rs h)
       end.
Proof.
  induction rs as [| x l IH] using rev_ind.
  - exists (inr false), []. cbn. unfold ret. rewrite app_nil_r.
    split; [reflexivity |]. split.
    + intros e h1 [pre [r [post [t [Heq _]]]]]. now destruct pre.
    + split; [discriminate |].
      intros [pre [r [post [h1 [t [n [h2 [Heq _]]]]]]]]. now destruct pre.
  - destruct IH as [out [new [Hl Ho]]].
    rewrite expirationLoop_snoc, Hl. destruct out as [err | b].
    + destruct Ho as [e [-> Hf]].
      exists (inl (External e)), new. split; [reflexivity |].
      exists e. split; [reflexivity | now apply lookupFails_snoc].
    + destruct Ho as [Hno Hb].
      assert (Hreach : reaches W c th l h (h ++ new)) by now exists b.
      rewrite expirationLoop_cons.
      destruct (ExpirationDateFromKey c (h ++ new) x) as [t [e |]] eqn:He.
      * exists (inl (External e)), new. split; [reflexivity |].
        exists e. split; [reflexivity |].
        exists l, x, [], t. now repeat split.
      * assert (Hnone : forall e h1,
                   ~ lookupFails W c th (l ++ [x]) h e h1).
        { intros e h1 [pre [r [post [t' [Heq [Hr Hf]]]]]].
          apply snoc_split in Heq as [[_ [-> ->]] | [post' [_ ->]]].
          - rewrite (reaches_unique W c th l h _ _ Hr Hreach) in Hf.
            rewrite He in Hf. discriminate.
          - apply (Hno e h1). now exists pre, r, post', t'. }
        destruct (renderExpirationNotice_quiet W t th (h ++ new))
          as [[notice warn] [ev [Hn _]]].
        rewrite Hn. destruct warn.
        -- cbn [expirationLoop]. unfold ret.
           eexists (inr true), (new ++ ev ++ [_]). rewrite !app_assoc.
           split; [reflexivity |]. split; [exact Hnone |].
           split; [intros _ | reflexivity].
           exists l, x, [], (h ++ new), t, notice, ((h ++ new) ++ ev).
           now repeat split.
        -- cbn [expirationLoop]. unfold ret.
           exists (inr b), (new ++ ev). rewrite !app_assoc.
           split; [reflexivity |]. split; [exact Hnone |].
           split.
           ++ intros Hbt. apply keyWarns_snoc. now apply Hb.
           ++ intros [pre [r [post [h1 [t' [n' [h2 [Heq [Hr [Hd Hw]]]]]]]]]].
              apply snoc_split in Heq as [[_ [-> ->]] | [post' [_ ->]]].
              ** rewrite (reaches_unique W c th l h _ _ Hr Hreach) in Hd, Hw.
                 rewrite He in Hd. inversion Hd; subst t'.
                 rewrite Hn in Hw. discriminate.
              ** apply Hb. now exists pre, r, post', h1, t', n', h2.
Qed.

(** C6, as amended: with a crypto backend for the store, a key whose
    expiration date cannot be read ends the audit at once with the error of
    that lookup, at the history reached before it: the recipients after it
    are not examined.  The audit returns a lookup error only for a lookup
    that failed; it returns the keys-expiring error exactly when no lookup
    fails and at least one key warned, and succeeds exactly when no lookup
    fails and no key warned.  Without a crypto backend the audit fails at
    once with "nil crypto backend", before any key is examined. *)
Theorem audit_fails_iff_warned (W : Env) (store : string) (th : Z)
    (h : trace) :
  let rs := Store_ListRecipients W h store in
  (forall c,
      Store_Crypto W h store = Some c ->
      (forall e h1,
          lookupFails W c th rs h e h1 ->
          RecipientsPrintExpiration W store th h
          = (Val (Some (External e)), h1))
      /\ exists out new,
           RecipientsPrintExpiration W store th h = (Val out, h ++ new)
           /\ (forall e, out = Some (External e) ->
                         lookupFails W c th rs h e (h ++ new))
           /\ (out = Some expirationErr
               <-> (forall e h1, ~ lookupFails W c th rs h e h1)
                   /\ keyWarns W c th rs h)
           /\ (out = None
               <-> (forall e h1, ~ lookupFails W c th rs h e h1)
                   /\ ~ keyWarns W c th rs h))
  /\ (Store_Crypto W h store = None ->
      RecipientsPrintExpiration W store th h
      = (Val (Some (ErrNew "nil crypto backend")), h)).
Proof.
  intros rs. split.
  - intros c Hc. split.
    + intros e h1 [pre [r [post [t [Heq [[b Hr] He]]]]]].
      unfold RecipientsPrintExpiration, bind, query. rewrite Hc.
      fold rs. rewrite Heq.
      rewrite (expirationLoop_app W c th pre (r :: post) false h b h1 Hr).
      now rewrite (expirationLoop_abort W c th r post b h1 t e He).
    + unfold RecipientsPrintExpiration, bind, query. rewrite Hc. fold rs.
      destruct (expirationLoop_verdict W c th rs h) as [out [new [Hl Ho]]].
      rewrite Hl. destruct out as [err | b].
      * destruct Ho as [e [-> Hf]].
        exists (Some (External e)), new. split; [reflexivity |].
        split; [| split].
        -- intros e' Heq. inversion Heq; subst e'. exact Hf.
        -- split; [discriminate |]. intros [Hno _]. now elim (Hno _ _ Hf).
        -- split; [discriminate |]. intros [Hno _]. now elim (Hno _ _ Hf).
      * destruct Ho as [Hno Hb]. destruct b.
        -- exists (Some expirationErr), new. split; [reflexivity |].
           split; [discriminate |]. split.
           ++ split; [intros _; split; [exact Hno | now apply Hb] | reflexivity].
           ++ split; [discriminate |]. intros [_ Hn]. elim Hn. now apply Hb.
        -- exists None, new. split; [reflexivity |].
           split; [discriminate |]. split.
           ++ split; [discriminate |]. intros [_ Hk].
              apply Hb in Hk. discriminate.
           ++ split; [intros _; split; [exact Hno |] | reflexivity].
              intros Hk. apply Hb in Hk. discriminate.
  - intros Hc. unfold RecipientsPrintExpiration, bind, query.
    now rewrite Hc.
Qed.

Lemma audit_fails_iff_warned_witness :
  RecipientsPrintExpiration auditEnv "vault" 0 []
  = (Val (Some (External (ErrOther "unreadable key"))),
     [EvNow 10%Z; EvStdout "0xa (a) expired at T
"])
  /\ (keyWarns expiredEnv auditCrypto 0 ["c"%string; "a"%string] []
      /\ RecipientsPrintExpiration expiredEnv "vault" 0 []
         = (Val (Some expirationErr),
            [EvNow 10%Z; EvStdout "0xa (a) expired at T
"]))
  /\ RecipientsPrintExpiration noBackend "vault" 0 []
     = (Val (Some (ErrNew "nil crypto backend")), []).
Proof.
  split; [| split].
  - apply (proj1 (proj1 (audit_fails_iff_warned auditEnv "vault" 0 [])
                    auditCrypto eq_refl)).
    exists ["a"%string], "b"%string, ["c"%string], 0%Z.
    split; [reflexivity |]. split; [| reflexivity].
    exists true. reflexivity.
  - destruct (proj2 (proj1 (audit_fails_iff_warned expiredEnv "vault" 0 [])
                       auditCrypto eq_refl))
      as [out [new [Hrun [_ [Hexp _]]]]].
    split; [| reflexivity].
    apply Hexp. vm_compute in Hrun. now inversion Hrun.
  - exact (proj2 (audit_fails_iff_warned noBackend "vault" 0 []) eq_refl).
Defined.

(** C6 as stated fails: without a crypto backend the audit fails although
    no key warned and no expiration lookup failed; no key was examined. *)
Lemma audit_without_backend :
  Store_ListRecipients noBackend [] "vault" = ["a"%string]
  /\ RecipientsPrintExpiration noBackend "vault" 0 []
     = (Val (Some (ErrNew "nil crypto backend")), []).
Proof. split; reflexivity. Qed.

(** *** Reconciliation *)

Lemma printRecipients_run (c : Crypto) (recp : list string) :
  forall h, exists prints,
    printRecipients c recp h = (Val tt, h ++ prints)
    /\ forallb isPrint prints = true.
Proof.
  induction recp as [| r recp IH]; intros h.
  - exists []. cbn. unfold ret. now rewrite app_nil_r.
  - cbn [printRecipients]. unfold bind, query, emit.
    destruct (IH (h ++ [EvPrint ("- " ++ FormatKey c h r)%string]))
      as [prints [Hp Hf]].
    rewrite Hp. eexists (_ :: prints). rewrite <- app_assoc.
    split; [reflexivity | exact Hf].
Qed.

(** The confirmation step of a node: the header, one line per recipient, the
    single question, and only on yes the write. *)
Lemma confirmNode_run (W : Env) (alias : string) (subs : SubStore)
    (recp : list string) (h : trace) :
  exists prints,
    forallb isPrint prints = true
    /\ let h1 := h ++ EvCyan (confirmHeader alias) :: prints in
       let a := termio_AskForConfirmation W h1 (trustPrompt alias) in
       let h2 := h1 ++ [EvConfirm (trustPrompt alias) a] in
       confirmNode W alias subs recp h
       = if a then
           match SetRecipients subs h2 recp with
           | Some e =>
               (Val (Returned (External e)),
                h2 ++ [EvSetRecipients alias recp (Some e)])
           | None =>
               (Val Committed,
                h2 ++ [EvSetRecipients alias recp None; EvPrint ""])
           end
         else (Val Skipped, h2).
Proof.
  unfold confirmNode. unfold bind at 1. unfold emit at 1.
  unfold bind at 1.
  destruct (printRecipients_run (sub_Crypto subs) recp
              (h ++ [EvCyan (confirmHeader alias)])) as [prints [Hp Hf]].
  rewrite Hp. exists prints. split; [exact Hf |].
  rewrite <- app_assoc. cbn [app].
  unfold bind, AskForConfirmation, call, emit, ret. cbv zeta.
  destruct (termio_AskForConfirmation W _ (trustPrompt alias)); cbn.
  - destruct (SetRecipients subs _ recp); [reflexivity |].
    now rewrite <- app_assoc.
  - reflexivity.
Qed.

Lemma updateBody_fatal (W : Env) (alias : string) (subs : SubStore)
    (recp : list string) (e : exterr) (h : trace) :
  Store_GetSubStore W h alias = (Some subs, None) ->
  GetRecipients subs h "" = (recp, Some e) ->
  e <> ErrRecipientChecksumChanged ->
  updateBody W alias h = (Val (Returned (External e)), h).
Proof.
  intros Hs Hr He. unfold updateBody, bind, query, ret. rewrite Hs, Hr.
  destruct e; [now elim He | reflexivity].
Qed.

(** C7: for every node that resolves, a recipient fetch that fails with the
    checksum-drift signal, or one that succeeds while no checksum is recorded
    for the node, goes on to the confirmation step (header, the recipients,
    the question); a fetch that fails with any other error makes the whole
    reconciliation return that error on the spot: the nodes after it are not
    visited and nothing is appended to the history. *)
Theorem fetch_drift_confirms_other_aborts (W : Env) (alias : string)
    (subs : SubStore) (recp : list string) (h : trace) :
  Store_GetSubStore W h alias = (Some subs, None) ->
  (GetRecipients subs h "" = (recp, Some ErrRecipientChecksumChanged)
   \/ (GetRecipients subs h "" = (recp, None)
       /\ cfg_GetRecipientHash W h alias (IDFile (sub_Crypto subs))
          = ""%string) ->
   updateBody W alias h = confirmNode W alias subs recp h
   /\ exists prints rest,
        forallb isPrint prints = true
        /\ snd (confirmNode W alias subs recp h)
           = h ++ EvCyan (confirmHeader alias) :: prints
               ++ EvConfirm (trustPrompt alias)
                    (termio_AskForConfirmation W
                       (h ++ EvCyan (confirmHeader alias) :: prints)
                       (trustPrompt alias)) :: rest)
  /\ (forall e,
         GetRecipients subs h "" = (recp, Some e) ->
         e <> ErrRecipientChecksumChanged ->
         (forall rest n,
             forRange (updateBody W) (alias :: rest) n h
             = (Val (inl (External e)), h))
         /\ forall h0 before after n,
              updateNodes W (Store_MountPoints W h0)
              = before ++ alias :: after ->
              forRange (updateBody W) before 0 h0 = (Val (inr n), h) ->
              RecipientsUpdate W h0 = (Val (Some (External e)), h)).
Proof.
  intros Hs. split.
  - intros Hfetch. split.
    + unfold updateBody, bind, query, ret. rewrite Hs.
      destruct Hfetch as [Hr | [Hr Hh]]; rewrite Hr; [reflexivity |].
      now rewrite Hh.
    + destruct (confirmNode_run W alias subs recp h) as [prints [Hf Hrun]].
      cbv zeta in Hrun. rewrite Hrun. exists prints.
      destruct (termio_AskForConfirmation W _ (trustPrompt alias)).
      * destruct (SetRecipients subs _ recp); eexists; (split; [exact Hf |]);
          cbn [snd]; rewrite <- !app_assoc; reflexivity.
      * eexists. split; [exact Hf |].
        cbn [snd]. rewrite <- !app_assoc. reflexivity.
  - intros e Hr He.
    pose proof (updateBody_fatal W alias subs recp e h Hs Hr He) as Hb.
    split.
    + intros rest n. cbn [forRange]. unfold bind. now rewrite Hb.
    + intros h0 before after n Hn Hloop.
      unfold RecipientsUpdate. unfold bind at 1. unfold query at 1.
      unfold bind at 1. rewrite Hn, forRange_app, Hloop.
      cbn [forRange]. unfold bind at 1. rewrite Hb. reflexivity.
Qed.

Lemma fetch_drift_confirms_other_aborts_witness :
  RecipientsUpdate brokenMount []
  = (Val (Some (External (ErrOther "io error"))), []).
Proof.
  apply (proj2 (proj2 (fetch_drift_confirms_other_aborts brokenMount "m"
                         brokenStore [] [] eq_refl)
                  (ErrOther "io error") eq_refl ltac:(discriminate))
           [] [] [""%string] 0);
    reflexivity.
Defined.

Lemma count_forallb (p q : event -> bool) (t : trace) :
  (forall e, q e = true -> p e = false) ->
  forallb q t = true -> count p t = 0.
Proof.
  intros Hpq. unfold count. induction t as [| e t IH]; [reflexivity |].
  cbn. intros H. apply andb_prop in H as [He Ht].
  rewrite (Hpq e He). auto.
Qed.

Lemma confirmNode_step (W : Env) alias subs recp h :
  exists ev,
    snd (confirmNode W alias subs recp h) = h ++ ev
    /\ updateStep (fst (confirmNode W alias subs recp h)) ev.
Proof.
  destruct (confirmNode_run W alias subs recp h) as [prints [Hf Hrun]].
  cbv zeta in Hrun. rewrite Hrun.
  assert (Hs : count isSetRecipients prints = 0)
    by (apply (count_forallb _ isPrint); [now intros [] | exact Hf]).
  destruct (termio_AskForConfirmation W _ (trustPrompt alias)).
  - destruct (SetRecipients subs _ recp) as [e |]; cbn [fst snd];
      rewrite <- !app_assoc; eexists; (split; [reflexivity |]);
      cbn [updateStep]; [left |];
      unfold count; cbn; rewrite filter_app, length_app; cbn; lia.
  - cbn [fst snd]. rewrite <- !app_assoc. eexists. split; [reflexivity |].
    cbn [updateStep]. unfold count in *. cbn.
    rewrite filter_app, length_app, Hs. reflexivity.
Qed.

Lemma updateBody_step (W : Env) alias h :
  exists ev,
    snd (updateBody W alias h) = h ++ ev
    /\ updateStep (fst (updateBody W alias h)) ev.
Proof.
  unfold updateBody, bind, query, ret.
  destruct (Store_GetSubStore W h alias) as [[subs |] [e |]];
    try (exists []; rewrite app_nil_r; split; reflexivity).
  destruct (GetRecipients subs h "") as [recp [[| msg] |]].
  - apply confirmNode_step.
  - exists []. rewrite app_nil_r. split; [reflexivity |].
    right. split; [reflexivity |]. eexists. split; [reflexivity | discriminate].
  - destruct (negb _).
    + exists []. rewrite app_nil_r. split; reflexivity.
    + apply confirmNode_step.
Qed.

(** The loop of the reconciliation when nothing is accepted. *)
Lemma update_loop (W : Env) (nodes : list string) (h : trace) :
  exists out new,
    forRange (updateBody W) nodes 0 h = (Val out, h ++ new)
    /\ (count isAccepted new = 0 ->
        count isSetRecipients new = 0
        /\ match out with
           | inr changed => changed = 0
           | inl e => exists x, e = External x
                                /\ x <> ErrRecipientChecksumChanged
           end).
Proof.
  destruct (forRange_inv (updateBody W)
              (fun n t => count isAccepted t = 0 ->
                          n = 0 /\ count isSetRecipients t = 0)
              (fun e t => count isAccepted t = 0 ->
                          count isSetRecipients t = 0
                          /\ exists x, e = External x
                                       /\ x <> ErrRecipientChecksumChanged)
              (fun _ => False)) with (rs := nodes) (n := 0) (h := h)
                                     (t := @nil event)
    as [new [Hs Hp]].
  - intros r h0. destruct (updateBody_step W r h0) as [ev [Hs Hstep]].
    exists ev. split; [exact Hs |]. intros n t HI.
    destruct (fst (updateBody W r h0)) as [[| | e] |]; cbn in Hstep.
    + rewrite !count_app. intros Ha.
      destruct HI as [Hn Hset]; [lia |]. split; [exact Hn | lia].
    + rewrite !count_app. intros Ha. lia.
    + rewrite !count_app. intros Ha.
      destruct Hstep as [Hacc | [Hnil Hx]]; [lia |].
      subst ev. destruct HI as [_ Hset]; [cbn in Ha; unfold count in *; cbn in Ha; lia |].
      split; [unfold count in *; cbn; lia | exact Hx].
    + exact Hstep.
  - intros _. split; reflexivity.
  - cbn [app] in Hp.
    destruct (forRange (updateBody W) nodes 0 h) as [[[e | n] |] h1];
      cbn in Hs, Hp; subst h1; [| | contradiction].
    + exists (inl e), new. split; [reflexivity | exact Hp].
    + exists (inr n), new. split; [reflexivity |].
      intros Ha. destruct (Hp Ha) as [Hn Hset]. now split.
Qed.

(** A loop that returns an error got through the turns before the one
    that returned it. *)
Lemma forRange_returned (body : string -> M iter) (rs : list string) :
  forall n h e h',
    forRange body rs n h = (Val (inl e), h') ->
    exists before r after m h1,
      rs = before ++ r :: after
      /\ forRange body before n h = (Val (inr m), h1)
      /\ body r h1 = (Val (Returned e), h').
Proof.
  induction rs as [| r rs IH]; intros n h e h' Hrun; [discriminate |].
  cbn [forRange] in Hrun. unfold bind in Hrun.
  destruct (body r h) as [[[| | e0] |] h0] eqn:Hb; try discriminate.
  - destruct (IH n h0 e h' Hrun) as [before [r' [after [m [h1 [-> [Hl Hr]]]]]]].
    exists (r :: before), r', after, m, h1.
    split; [reflexivity |]. split; [| exact Hr].
    cbn [forRange]. unfold bind. now rewrite Hb.
  - destruct (IH (S n) h0 e h' Hrun)
      as [before [r' [after [m [h1 [-> [Hl Hr]]]]]]].
    exists (r :: before), r', after, m, h1.
    split; [reflexivity |]. split; [| exact Hr].
    cbn [forRange]. unfold bind. now rewrite Hb.
  - inversion Hrun; subst. exists [], r, rs, n, h.
    now repeat split.
Qed.

(** A node ends the run either after a yes, or with the error of its fetch
    and without a trace. *)
Lemma updateBody_returned (W : Env) (alias : string) (h : trace)
    (e : error) (h' : trace) :
  updateBody W alias h = (Val (Returned e), h') ->
  (exists ev, h' = h ++ ev /\ 1 <= count isAccepted ev)
  \/ (h' = h
      /\ exists subs recp x,
           Store_GetSubStore W h alias = (Some subs, None)
           /\ GetRecipients subs h "" = (recp, Some x)
           /\ x <> ErrRecipientChecksumChanged
           /\ e = External x).
Proof.
  intros Hrun.
  assert (Hc : forall subs recp,
             confirmNode W alias subs recp h = (Val (Returned e), h') ->
             exists ev, h' = h ++ ev /\ 1 <= count isAccepted ev).
  { intros subs recp Hcn.
    destruct (confirmNode_step W alias subs recp h) as [ev [Hs Hst]].
    rewrite Hcn in Hs, Hst. cbn in Hs, Hst. exists ev.
    split; [exact Hs |]. destruct Hst as [Ha | [-> _]]; [exact Ha |].
    exfalso. destruct (confirmNode_run W alias subs recp h)
      as [prints [_ Hr]]. cbv zeta in Hr. rewrite Hcn in Hr.
    rewrite app_nil_r in Hs. subst h'.
    destruct (termio_AskForConfirmation W _ _);
      [destruct (SetRecipients subs _ recp) |];
      inversion Hr as [[Hv Hh]];
      apply (f_equal (@length event)) in Hh;
      rewrite !length_app in Hh; cbn in Hh; lia. }
  revert Hrun. unfold updateBody, bind, query, ret.
  destruct (Store_GetSubStore W h alias) as [[subs |] [err |]] eqn:Hs;
    try discriminate.
  destruct (GetRecipients subs h "") as [recp [[| msg] |]] eqn:Hg.
  - intros Hcn. left. now apply (Hc subs recp).
  - intros Hrun. inversion Hrun; subst. right. split; [reflexivity |].
    exists subs, recp, (ErrOther msg).
    split; [reflexivity |]. split; [exact Hg |].
    split; [discriminate | reflexivity].
  - destruct (negb _); [discriminate |].
    intros Hcn. left. now apply (Hc subs recp).
Qed.

(** With an operator who declines everything no node is accepted. *)
Lemma updateBody_declined (W : Env) (alias : string) (h : trace) :
  declinesAll W ->
  exists ev,
    snd (updateBody W alias h) = h ++ ev /\ count isAccepted ev = 0.
Proof.
  intros Hd.
  assert (Hc : forall subs recp, exists ev,
             snd (confirmNode W alias subs recp h) = h ++ ev
             /\ count isAccepted ev = 0).
  { intros subs recp.
    destruct (confirmNode_run W alias subs recp h) as [prints [Hf Hr]].
    cbv zeta in Hr. rewrite Hr, Hd. cbn [snd]. rewrite <- app_assoc.
    eexists. split; [reflexivity |].
    cbn [app]. rewrite app_comm_cons, count_app.
    assert (Ha : count isAccepted prints = 0)
      by (apply (count_forallb _ isPrint); [now intros [] | exact Hf]).
    unfold count in *. cbn. rewrite Ha. reflexivity. }
  unfold updateBody, bind, query, ret.
  destruct (Store_GetSubStore W h alias) as [[subs |] [err |]];
    try (exists []; rewrite app_nil_r; split; reflexivity).
  destruct (GetRecipients subs h "") as [recp [[| msg] |]].
  - apply Hc.
  - exists []. rewrite app_nil_r. split; reflexivity.
  - destruct (negb _); [| apply Hc].
    exists []. rewrite app_nil_r. split; reflexivity.
Qed.

(** A fetch that fails with another error than the drift signal ends the
    run on the spot. *)
Lemma fetch_aborts (W : Env) (h : trace) (x : exterr) (h1 : trace) :
  fetchFails W h x h1 ->
  RecipientsUpdate W h = (Val (Some (External x)), h1).
Proof.
  intros [before [alias [after [n [subs [recp [Hn [Hl [Hs [Hg Hx]]]]]]]]]].
  unfold RecipientsUpdate. unfold bind at 1. unfold query at 1.
  unfold bind at 1. rewrite Hn, forRange_app, Hl.
  cbn [forRange]. unfold bind at 1.
  now rewrite (updateBody_fatal W alias subs recp x h1 Hs Hg Hx).
Qed.

(** C8, as amended: declining the single confirmation of a node skips the
    node after the header, the recipient lines and the question, without a
    call of SetRecipients.  A fetch that fails with an error other than the
    drift signal ends the run with that error.  In a run of an operator who
    declines every question no confirmation is accepted; and a run in which
    no confirmation is accepted calls SetRecipients for no node, returns an
    error only if it is the error of such a failed fetch, and returns
    success, reporting that there was nothing to do, exactly when no fetch
    fails that way. *)
Theorem declined_nodes_write_nothing (W : Env) (h : trace) :
  (forall alias subs recp h0,
      exists prints,
        forallb isPrint prints = true
        /\ (termio_AskForConfirmation W
              (h0 ++ EvCyan (confirmHeader alias) :: prints)
              (trustPrompt alias) = false ->
            confirmNode W alias subs recp h0
            = (Val Skipped,
               h0 ++ EvCyan (confirmHeader alias) :: prints
                  ++ [EvConfirm (trustPrompt alias) false])))
  /\ (forall x h1,
         fetchFails W h x h1 ->
         RecipientsUpdate W h = (Val (Some (External x)), h1))
  /\ exists out new,
       RecipientsUpdate W h = (Val out, h ++ new)
       /\ (declinesAll W -> count isAccepted new = 0)
       /\ (count isAccepted new = 0 ->
           count isSetRecipients new = 0
           /\ (forall e, out = Some e ->
                 exists x, e = External x /\ fetchFails W h x (h ++ new))
           /\ (out = None <-> forall x h1, ~ fetchFails W h x h1)
           /\ (out = None ->
               exists pre, new = pre ++ [EvGreen "Nothing to do"])).
Proof.
  split; [| split; [apply fetch_aborts |]].
  - intros alias subs recp h0.
    destruct (confirmNode_run W alias subs recp h0) as [prints [Hf Hrun]].
    exists prints. split; [exact Hf |]. intros Ha.
    cbv zeta in Hrun. rewrite Hrun, Ha.
    now rewrite <- app_assoc.
  - set (nodes := updateNodes W (Store_MountPoints W h)).
    destruct (update_loop W nodes h) as [out [new [Hl Hp]]].
    assert (Hdecl : declinesAll W -> count isAccepted new = 0).
    { intros Hd.
      destruct (forRange_all (updateBody W)
                  (fun t => count isAccepted t = 0)) with
        (rs := nodes) (n := 0) (h := h) as [new' [Hs Hc]].
      - reflexivity.
      - intros a b Ha Hb. rewrite count_app. lia.
      - intros r h0. now apply updateBody_declined.
      - rewrite Hl in Hs. cbn in Hs. apply app_inv_head in Hs. now subst. }
    destruct out as [e | changed].
    + assert (Hrun : RecipientsUpdate W h = (Val (Some e), h ++ new)).
      { unfold RecipientsUpdate. unfold bind at 1. unfold query at 1.
        unfold bind at 1. fold nodes. now rewrite Hl. }
      exists (Some e), new. split; [exact Hrun |]. split; [exact Hdecl |].
      intros Ha. destruct (Hp Ha) as [Hset _]. split; [exact Hset |].
      assert (Hf : exists x, e = External x /\ fetchFails W h x (h ++ new)).
      { destruct (forRange_returned _ _ _ _ _ _ Hl)
          as [before [r [after [m [h1 [Hn [Hb Hr]]]]]]].
        destruct (update_loop W before h) as [o1 [n1 [Hl1 _]]].
        rewrite Hb in Hl1. inversion Hl1 as [[Ho Hh1]].
        destruct (updateBody_returned W r h1 e _ Hr)
          as [[ev [Hev Hacc]] | [Hh [subs [recp [x [Hs [Hg [Hx He]]]]]]]].
        - exfalso. rewrite Hh1, <- app_assoc in Hev.
          apply app_inv_head in Hev. subst new.
          rewrite count_app in Ha. lia.
        - exists x. split; [exact He |].
          exists before, r, after, m, subs, recp.
          rewrite Hh. now repeat split. }
      split; [| split].
      * intros e' Heq. inversion Heq; subst e'. exact Hf.
      * split; [discriminate |]. intros Hno.
        destruct Hf as [x [_ Hf]]. now elim (Hno _ _ Hf).
      * discriminate.
    + assert (Hrun : count isAccepted new = 0 ->
                RecipientsUpdate W h
                = (Val None, h ++ new ++ [EvGreen "Nothing to do"])).
      { intros Ha. destruct (Hp Ha) as [_ Hc]. subst changed.
        unfold RecipientsUpdate. unfold bind at 1. unfold query at 1.
        unfold bind at 1. fold nodes. rewrite Hl.
        unfold bind, emit, ret. cbn. now rewrite <- app_assoc. }
      assert (Hrun' : exists g,
                RecipientsUpdate W h = (Val None, h ++ new ++ [EvGreen g])).
      { unfold RecipientsUpdate. unfold bind at 1. unfold query at 1.
        unfold bind at 1. fold nodes. rewrite Hl.
        unfold bind, emit, ret.
        destruct (0 <? changed)%nat; eexists; now rewrite <- app_assoc. }
      destruct Hrun' as [g Hg].
      exists None, (new ++ [EvGreen g]). split; [exact Hg |].
      assert (Hcount : forall p, p (EvGreen g) = false ->
                 count p (new ++ [EvGreen g]) = count p new).
      { intros p Hpg. rewrite count_app. unfold count. cbn.
        rewrite Hpg. cbn. lia. }
      rewrite !Hcount by reflexivity. split; [exact Hdecl |].
      intros Ha. destruct (Hp Ha) as [Hset _]. split; [exact Hset |].
      split; [discriminate |]. split.
      * split; [| reflexivity]. intros _ x h1 Hf.
        apply fetch_aborts in Hf. rewrite Hg in Hf. discriminate.
      * intros _. exists new.
        specialize (Hrun Ha). rewrite Hg in Hrun.
        inversion Hrun as [Heq]. apply app_inv_head in Heq.
        exact Heq.
Qed.

Lemma declined_nodes_write_nothing_witness :
  (exists prints,
      confirmNode teamMount "teamA" driftStore ["FP:1"%string] []
      = (Val Skipped,
         [] ++ EvCyan (confirmHeader "teamA") :: prints
            ++ [EvConfirm (trustPrompt "teamA") false]))
  /\ (exists new,
       RecipientsUpdate teamMount [] = (Val None, [] ++ new)
       /\ count isSetRecipients new = 0
       /\ exists pre, new = pre ++ [EvGreen "Nothing to do"])
  /\ RecipientsUpdate brokenMount []
     = (Val (Some (External (ErrOther "io error"))), []).
Proof.
  split; [| split].
  - destruct (proj1 (declined_nodes_write_nothing teamMount [])
                "teamA"%string driftStore ["FP:1"%string] [])
      as [prints [_ H]].
    exists prints. apply H. reflexivity.
  - destruct (proj2 (proj2 (declined_nodes_write_nothing teamMount [])))
      as [out [new [Hrun [Hd Hq]]]].
    destruct (Hq (Hd (fun _ _ => eq_refl))) as [Hset [_ [Hnone Hend]]].
    assert (Ho : out = None).
    { apply Hnone.
      intros x h1
        [before [alias [after [n [subs [recp [_ [_ [Hs [Hg Hx]]]]]]]]]].
      cbn in Hs. inversion Hs; subst subs. cbn in Hg.
      inversion Hg; subst x. now elim Hx. }
    subst out. exists new. split; [exact Hrun |].
    split; [exact Hset | now apply Hend].
  - apply (proj1 (proj2 (declined_nodes_write_nothing brokenMount []))).
    exists [], "m"%string, [""%string], 0, brokenStore, [].
    repeat split; discriminate.
Defined.

(** C8 as stated fails: the only confirmation of the run is declined, and
    the run does not return success, because the root cannot be read. *)
Lemma declined_run_can_fail :
  RecipientsUpdate brokenRoot []
  = (Val (Some (External (ErrOther "io error"))),
     [EvCyan "Please confirm Recipients for m:";
      EvPrint "- <FP:1>";
      EvConfirm "Do you trust these recipients for m?" false]).
Proof. vm_compute. reflexivity. Qed.

(** *** The order of the nodes *)

Lemma insertByLen_perm (a : string) (l : list string) :
  Permutation (insertByLen a l) (a :: l).
Proof.
  induction l as [| b l IH]; cbn; [apply Permutation_refl |].
  destruct (String.length a <=? String.length b)%nat.
  - apply Permutation_refl.
  - apply perm_trans with (b :: a :: l); [now apply perm_skip | apply perm_swap].
Qed.

Lemma sortByLen_perm (l : list string) : Permutation (sortByLen l) l.
Proof.
  induction l as [| a l IH]; cbn; [apply perm_nil |].
  apply perm_trans with (a :: sortByLen l);
    [apply insertByLen_perm | now apply perm_skip].
Qed.

(** In an ascending list nothing that stands before an alias is longer
    than it. *)
Lemma byLength_before (l1 : list string) (a : string) (l2 : list string) :
  byLength (l1 ++ a :: l2) = true ->
  forall b, In b l1 -> String.length b <= String.length a.
Proof.
  induction l1 as [| x l1 IH]; intros H b Hin; [destruct Hin |].
  cbn in H. apply andb_prop in H as [Hx Hrest].
  destruct Hin as [-> | Hin]; [| now apply IH].
  rewrite forallb_forall in Hx. apply Nat.leb_le, Hx.
  apply in_or_app. right. now left.
Qed.

(** C1, as amended: the reconciliation visits the mount aliases in the
    order in which the sort by path length leaves them, ascending in the
    length of the alias, and then the root (the empty alias): the root is
    the last node, not the first.  Every node but the last is a mount, with
    the root still to come and no longer alias before it; the last node is
    the root, with every mount before it.  The root has its turn at the
    history the mounts leave, and no turn at all when a mount ends the
    run. *)
Theorem root_is_reconciled_last (W : Env) (h : trace) :
  let mps := Store_MountPoints W h in
  let sorted := sort_ByPathLen W mps in
  Permutation sorted mps ->
  byLength sorted = true ->
  updateNodes W mps = sorted ++ [""%string]
  /\ (forall a, In a (updateNodes W mps) <-> In a mps \/ a = ""%string)
  /\ (forall before a after,
         updateNodes W mps = before ++ a :: after ->
         match after with
         | [] => a = ""%string /\ Permutation before mps
         | _ :: _ =>
             In a mps
             /\ (exists mid, after = mid ++ [""%string])
             /\ forall b, In b before -> String.length b <= String.length a
         end)
  /\ RecipientsUpdate W h
     = match forRange (updateBody W) sorted 0 h with
       | (Val (inr m), h1) =>
           match updateBody W "" h1 with
           | (Val Skipped, h2) => reportChanged m h2
           | (Val Committed, h2) => reportChanged (S m) h2
           | (Val (Returned e), h2) => (Val (Some e), h2)
           | (Panic, h2) => (Panic, h2)
           end
       | (Val (inl e), h1) => (Val (Some e), h1)
       | (Panic, h1) => (Panic, h1)
       end.
Proof.
  intros mps sorted Hperm Hasc. unfold updateNodes. fold mps. fold sorted.
  split; [reflexivity |]. split; [| split].
  - intros a. rewrite in_app_iff. cbn. split.
    + intros [H | [H | []]]; [left | now right].
      now apply (Permutation_in a Hperm).
    + intros [H | H]; [left | right; now left].
      now apply (Permutation_in a (Permutation_sym Hperm)).
  - intros before a after Heq.
    destruct after as [| x after].
    + apply app_inj_tail in Heq as [Hb Ha]. subst before a. now split.
    + destruct (exists_last (l := x :: after) ltac:(discriminate))
        as [mid [z Hlast]].
      rewrite Hlast in Heq |- *.
      rewrite app_comm_cons, app_assoc in Heq.
      apply app_inj_tail in Heq as [Hs Hz]. subst z.
      split; [| split].
      * apply (Permutation_in a Hperm). rewrite Hs.
        apply in_or_app. right. now left.
      * now exists mid.
      * rewrite Hs in Hasc. now apply byLength_before with (l2 := mid).
  - unfold RecipientsUpdate. unfold bind at 1. unfold query at 1.
    unfold bind at 1. unfold updateNodes. fold mps. fold sorted.
    rewrite forRange_app.
    destruct (forRange (updateBody W) sorted 0 h) as [[[e | m] |] h1];
      [reflexivity | | reflexivity].
    cbn [forRange]. unfold bind.
    destruct (updateBody W "" h1) as [[[| | e] |] h2]; try reflexivity;
      unfold ret, emit, reportChanged.
    now destruct (0 <? m)%nat.
Qed.

Lemma root_is_reconciled_last_witness :
  updateNodes teamMount ["teamA/sub"%string; "teamA"%string]
  = ["teamA"%string; "teamA/sub"%string] ++ [""%string]
  /\ (In "teamA/sub"%string ["teamA/sub"%string; "teamA"%string]
      /\ (exists mid, [""%string] = mid ++ [""%string])
      /\ forall b, In b ["teamA"%string]
                   -> String.length b <= String.length "teamA/sub").
Proof.
  pose proof (root_is_reconciled_last teamMount []
                (sortByLen_perm _) eq_refl) as [Hn [_ [Hpos _]]].
  split; [exact Hn |].
  exact (Hpos ["teamA"%string] "teamA/sub"%string [""%string] eq_refl).
Defined.

(** C1 as stated fails: the root is not processed before "teamA" but after
    every mount. *)
Lemma root_after_teamA :
  updateNodes teamMount (Store_MountPoints teamMount [])
  = ["teamA"%string; "teamA/sub"%string; ""%string]
  /\ RecipientsUpdate teamMount []
     = (Val None,
        [EvCyan "Please confirm Recipients for teamA:";
         EvPrint "- <FP:1>";
         EvConfirm "Do you trust these recipients for teamA?" false;
         EvCyan "Please confirm Recipients for teamA/sub:";
         EvPrint "- <FP:1>";
         EvConfirm "Do you trust these recipients for teamA/sub?" false;
         EvCyan "Please confirm Recipients for <root>:";
         EvPrint "- <FP:1>";
         EvConfirm "Do you trust these recipients for <root>?" false;
         EvGreen "Nothing to do"]).
Proof. split; vm_compute; reflexivity. Qed.

(** ** Further properties of the commands *)

(** *** The expiration notice *)

Lemma append_nonempty (a : ascii) (s t : string) :
  (String a s ++ t)%string <> ""%string.
Proof. cbn. discriminate. Qed.

(** X1: the notice always comes back, and it warns exactly when the date is
    set and either lies before the first clock reading or before the second
    reading plus the threshold; the message is empty exactly when it does
    not warn. *)
Theorem notice_warns_iff (W : Env) (e th : Z) (h : trace) :
  exists msg warn h',
    renderExpirationNotice W e th h = (Val (msg, warn), h')
    /\ (warn = true
        <-> e <> 0%Z /\ ((e < reading1 W h)%Z \/ (e < reading2 W h + th)%Z))
    /\ (warn = false <-> msg = ""%string).
Proof.
  unfold renderExpirationNotice, reading2, reading1, Until, Now, bind, call,
    ret.
  destruct (Z.eqb_spec e 0) as [E0 | E0]; cbn [negb].
  - eexists _, _, _. split; [reflexivity |]. split; [| tauto].
    split; [discriminate | intros [H _]; contradiction].
  - destruct (Z.ltb_spec e (time_Now W h)) as [L1 | L1].
    + eexists _, _, _. split; [reflexivity |]. split.
      * split; [intros _; split; [exact E0 | now left] | reflexivity].
      * split; [discriminate |]. intros H. now apply append_nonempty in H.
    + destruct (Z.ltb_spec e (time_Now W (h ++ [EvNow (time_Now W h)]) + th))
        as [L2 | L2].
      * eexists _, _, _. split; [reflexivity |]. split.
        -- split; [intros _; split; [exact E0 | now right] | reflexivity].
        -- split; [discriminate |]. intros H. now apply append_nonempty in H.
      * eexists _, _, _. split; [reflexivity |]. split; [| tauto].
        split; [discriminate |]. intros [_ [H | H]]; lia.
Qed.

Lemma Truncate_Hour (d : Z) :
  (exists k, Duration_Truncate d Hour = k * Hour)%Z
  /\ ((0 <= d)%Z ->
      (0 <= Duration_Truncate d Hour <= d)%Z
      /\ (d - Duration_Truncate d Hour < Hour)%Z)
  /\ ((d <= 0)%Z ->
      (d <= Duration_Truncate d Hour <= 0)%Z
      /\ (Duration_Truncate d Hour - d < Hour)%Z).
Proof.
  unfold Duration_Truncate.
  assert (HH : (0 < Hour)%Z) by (unfold Hour; lia).
  destruct (Z.leb_spec Hour 0) as [Hle | _]; [lia |]. cbv beta iota.
  pose proof (Z.quot_rem' d Hour) as Hqr.
  split; [| split].
  - exists (Z.quot d Hour). rewrite Hqr at 1. ring.
  - intros Hd. pose proof (Z.rem_bound_pos d Hour Hd HH).
    pose proof (Z.rem_le d Hour Hd HH). lia.
  - intros Hd. assert (Hn : (0 <= - d)%Z) by lia.
    pose proof (Z.rem_bound_pos (- d) Hour Hn HH) as Hb.
    pose proof (Z.rem_le (- d) Hour Hn HH) as Hle.
    rewrite Z.rem_opp_l' in Hb, Hle. lia.
Qed.

(** X2: a date that is set, not yet behind the first clock reading and less
    than the threshold ahead of the second gets the message "expiring in
    ~<d> at <date>" after a third reading, where <d> is the time left at that
    reading cut to whole hours toward zero: a multiple of an hour, never
    beyond the time left and less than an hour short of it. *)
Theorem notice_expiring_soon (W : Env) (e th : Z) (h : trace) :
  e <> 0%Z ->
  (reading1 W h <= e)%Z ->
  (e < reading2 W h + th)%Z ->
  let left := Time_Sub e (reading3 W h) in
  let d := Duration_Truncate left Hour in
  renderExpirationNotice W e th h
  = (Val (("expiring in ~" ++ Duration_String W d ++ " at "
             ++ Time_String W e)%string, true),
     h ++ [EvNow (reading1 W h); EvNow (reading2 W h);
           EvNow (reading3 W h)])
  /\ (exists k, d = k * Hour)%Z
  /\ ((0 <= left)%Z -> (0 <= d <= left)%Z /\ (left - d < Hour)%Z)
  /\ ((left <= 0)%Z -> (left <= d <= 0)%Z /\ (d - left < Hour)%Z).
Proof.
  intros E0 L1 L2 left d. split; [| apply Truncate_Hour].
  unfold renderExpirationNotice, Until, Now, bind, call, ret.
  unfold reading3, reading2, reading1 in *.
  destruct (Z.eqb_spec e 0) as [E | _]; [contradiction |]. cbn [negb].
  destruct (Z.ltb_spec e (time_Now W h)) as [L | _]; [lia |].
  destruct (Z.ltb_spec e (time_Now W (h ++ [EvNow (time_Now W h)]) + th))
    as [_ | L]; [| lia].
  subst d left. rewrite <- !app_assoc. reflexivity.
Qed.

Lemma notice_expiring_soon_witness :
  renderExpirationNotice (clockEnv 10) 20 100 []
  = (Val ("expiring in ~D at T"%string, true),
     [] ++ [EvNow 10%Z; EvNow 10%Z; EvNow 10%Z]).
Proof.
  apply (proj1 (notice_expiring_soon (clockEnv 10) 20 100 []
                  ltac:(discriminate) ltac:(discriminate) eq_refl)).
Defined.

(** X3: evaluating a date only reads the clock: whatever it appends to the
    history is a clock reading, there are at most three of them, and none
    when the date is not set. *)
Theorem notice_only_reads_the_clock (W : Env) (e th : Z) (h : trace) :
  exists ev,
    snd (renderExpirationNotice W e th h) = h ++ ev
    /\ forallb isNow ev = true
    /\ length ev <= 3
    /\ (e = 0%Z -> ev = []).
Proof.
  unfold renderExpirationNotice, Until, Now, bind, call, ret.
  destruct (Z.eqb_spec e 0) as [E0 | E0]; cbn [negb].
  - exists []. rewrite app_nil_r. cbn.
    split; [reflexivity |]. split; [reflexivity |]. split; [lia | reflexivity].
  - destruct (e <? time_Now W h)%Z.
    + eexists [_]. cbn.
      split; [reflexivity |]. split; [reflexivity |].
      split; [lia | intros; contradiction].
    + destruct (e <? time_Now W _ + th)%Z.
      * eexists [_; _; _]. rewrite <- !app_assoc. cbn.
        split; [reflexivity |]. split; [reflexivity |].
        split; [lia | intros; contradiction].
      * eexists [_; _]. rewrite <- !app_assoc. cbn.
        split; [reflexivity |]. split; [reflexivity |].
        split; [lia | intros; contradiction].
Qed.

(** *** The expiration audit reads and prints, nothing else *)

Lemma notice_run (W : Env) (e th : Z) (h : trace) :
  exists msg warn ev,
    renderExpirationNotice W e th h = (Val (msg, warn), h ++ ev)
    /\ forallb isNow ev = true
    /\ count isStdout ev = 0
    /\ (warn = true -> msg <> ""%string).
Proof.
  unfold renderExpirationNotice, Until, Now, bind, call, ret.
  destruct (negb (e =? 0)%Z).
  - destruct (e <? time_Now W h)%Z.
    + eexists _, _, [_]. repeat split. intros _. apply append_nonempty.
    + destruct (e <? time_Now W _ + th)%Z.
      * eexists _, _, [_; _; _]. rewrite <- !app_assoc. repeat split.
        intros _. apply append_nonempty.
      * eexists _, _, [_; _]. rewrite <- !app_assoc. repeat split.
        discriminate.
  - eexists _, _, []. rewrite app_nil_r. repeat split. discriminate.
Qed.

Lemma auditEvent_now (rs : list string) (ev : trace) :
  forallb isNow ev = true -> Forall (auditEvent rs) ev.
Proof.
  intros H. apply Forall_forall. intros x Hx. left.
  rewrite forallb_forall in H. now apply H.
Qed.

Lemma auditEvent_cons (r : string) (rs : list string) (ev : trace) :
  Forall (auditEvent rs) ev -> Forall (auditEvent (r :: rs)) ev.
Proof.
  apply Forall_impl. intros e [H | [r' [name [notice [Hin H]]]]];
    [now left | right].
  exists r', name, notice. split; [now right | exact H].
Qed.

Lemma expirationLoop_events (W : Env) (c : Crypto) (th : Z)
    (rs : list string) :
  forall hasErr h,
  exists out new,
    expirationLoop W c th rs hasErr h = (Val out, h ++ new)
    /\ Forall (auditEvent rs) new
    /\ count isStdout new <= length rs.
Proof.
  induction rs as [| r rs IH]; intros hasErr h.
  - exists (inr hasErr), []. cbn. unfold ret. rewrite app_nil_r.
    split; [reflexivity |]. split; [constructor | reflexivity].
  - rewrite expirationLoop_cons.
    destruct (ExpirationDateFromKey c h r) as [t [x |]].
    + exists (inl (External x)), []. rewrite app_nil_r.
      split; [reflexivity |]. split; [constructor | cbn; lia].
    + destruct (notice_run W t th h) as [msg [warn [ev [Hr [Hn [Hc Hm]]]]]].
      rewrite Hr. destruct warn.
      * match goal with
        | |- context [expirationLoop W c th rs true ?hh] =>
            destruct (IH true hh) as [out [new [Hl [Hf Hb]]]]
        end.
        rewrite Hl. eexists out, (ev ++ [_] ++ new).
        rewrite !app_assoc. split; [reflexivity |].
        rewrite <- !app_assoc. split.
        -- apply Forall_app. split; [now apply auditEvent_now |].
           apply Forall_app. split.
           ++ constructor; [| constructor]. right.
              exists r, (NameFromKey c h r), msg.
              split; [now left |]. split; [now apply Hm | reflexivity].
           ++ now apply auditEvent_cons.
        -- rewrite !count_app, Hc. cbn [length]. unfold count at 1. cbn. lia.
      * destruct (IH hasErr (h ++ ev)) as [out [new [Hl [Hf Hb]]]].
        rewrite Hl. exists out, (ev ++ new). rewrite app_assoc.
        split; [reflexivity |]. split.
        -- apply Forall_app. split; [now apply auditEvent_now |].
           now apply auditEvent_cons.
        -- rewrite count_app, Hc. cbn [length]. lia.
Qed.

(** X4: the expiration audit always returns (it cannot panic), and all it
    does besides reading the clock is print: every event it appends is a
    clock reading or a line "0x<recipient> (<name>) <notice>" about one of
    the recipients of the store with a notice that is not empty, and it
    prints at most one line per recipient. *)
Theorem audit_only_prints (W : Env) (store : string) (th : Z) (h : trace) :
  exists out new,
    RecipientsPrintExpiration W store th h = (Val out, h ++ new)
    /\ Forall (auditEvent (Store_ListRecipients W h store)) new
    /\ count isStdout new <= length (Store_ListRecipients W h store).
Proof.
  unfold RecipientsPrintExpiration, bind, query.
  destruct (Store_Crypto W h store) as [c |].
  - destruct (expirationLoop_events W c th (Store_ListRecipients W h store)
                false h) as [out [new [Hl [Hf Hb]]]].
    rewrite Hl. destruct out as [e | [|]]; eexists _, new;
      (split; [reflexivity | now split]).
  - eexists _, []. unfold ret. rewrite app_nil_r.
    split; [reflexivity |]. split; [constructor | cbn; lia].
Qed.

Lemma expirationLoop_forever (W : Env) (c : Crypto) (th : Z)
    (rs : list string) (h : trace) :
  (forall r, In r rs -> ExpirationDateFromKey c h r = (0%Z, None)) ->
  forall hasErr,
    expirationLoop W c th rs hasErr h = (Val (inr hasErr), h).
Proof.
  induction rs as [| r rs IH]; intros Hz hasErr; [reflexivity |].
  rewrite expirationLoop_cons, (Hz r (or_introl eq_refl)).
  unfold renderExpirationNotice. cbn [Z.eqb negb]. unfold ret.
  apply IH. intros r' Hin. apply Hz. now right.
Qed.

(** X5: when the store has a crypto backend and none of its recipients has
    an expiration date (keys valid forever; also when it has no recipients
    at all), the audit succeeds whatever the threshold, without reading the
    clock and without printing. *)
Theorem audit_of_keys_valid_forever (W : Env) (store : string) (th : Z)
    (h : trace) (c : Crypto) :
  Store_Crypto W h store = Some c ->
  (forall r, In r (Store_ListRecipients W h store) ->
             ExpirationDateFromKey c h r = (0%Z, None)) ->
  RecipientsPrintExpiration W store th h = (Val None, h).
Proof.
  intros Hc Hz. unfold RecipientsPrintExpiration, bind, query. rewrite Hc.
  now rewrite (expirationLoop_forever W c th _ h Hz false).
Qed.

Lemma audit_of_keys_valid_forever_witness :
  RecipientsPrintExpiration twoRecipients "vault" 5 [] = (Val None, []).
Proof.
  apply (audit_of_keys_valid_forever twoRecipients "vault" 5 [] pubOnly
           eq_refl).
  intros r _. reflexivity.
Defined.

(** *** What add and remove put into the history *)

Lemma addBody_shape (W : Env) crypto store force r h :
  exists ws tl,
    snd (addBody W crypto store force r h) = h ++ ws ++ tl
    /\ forallb isCyan ws = true
    /\ addTail store tl.
Proof.
  destruct crypto as [c |]; unfold addBody, bind, deref, panic, ret.
  2: { exists [], []. cbn. rewrite app_nil_r.
       split; [reflexivity |]. split; [reflexivity | now left]. }
  destruct (resolve_trace W c force r h) as [v [ws [Hr Hws]]].
  rewrite Hr.
  destruct v as [recp |]; unfold query, AskForConfirmation, call, ret.
  - destruct (termio_AskForConfirmation W _ _); cbn.
    + destruct (Store_AddRecipient W _ true store recp) as [e |]; cbn;
        eexists ws, [_; _]; rewrite <- !app_assoc;
        (split; [reflexivity |]); (split; [exact Hws |]);
        right; right; eexists _, _, _; reflexivity.
    + eexists ws, [_]. rewrite <- !app_assoc. split; [reflexivity |].
      split; [exact Hws |]. right; left. eexists. reflexivity.
  - exists ws, []. rewrite app_nil_r. cbn.
    split; [reflexivity |]. split; [exact Hws | now left].
Qed.

Lemma removeRest_shape (W : Env) c store force r h :
  exists ws tl,
    snd (removeRest W c store force r h) = h ++ ws ++ tl
    /\ forallb isCyan ws = true
    /\ removeTail store r tl.
Proof.
  unfold removeRest, bind.
  destruct (resolve_trace W c force r h) as [v [ws [Hr Hws]]].
  rewrite Hr.
  destruct v as [recp |]; unfold call, emit, ret.
  - destruct (Store_RemoveRecipient W _ true store recp) as [e |]; cbn.
    + eexists ws, [_]. rewrite <- !app_assoc. split; [reflexivity |].
      split; [exact Hws |]. right; left. eexists _, _. reflexivity.
    + eexists ws, [_; _]. rewrite <- !app_assoc. split; [reflexivity |].
      split; [exact Hws |]. right; right. eexists. reflexivity.
  - exists ws, []. rewrite app_nil_r. cbn.
    split; [reflexivity |]. split; [exact Hws | now left].
Qed.

Lemma cyan_talk (ws : trace) :
  forallb isCyan ws = true -> forallb isTalk ws = true.
Proof.
  induction ws as [| e ws IH]; [reflexivity |].
  destruct e; cbn; try discriminate. exact IH.
Qed.

Lemma removeBody_shape (W : Env) crypto store force r h :
  exists pre tl,
    snd (removeBody W crypto store force r h) = h ++ pre ++ tl
    /\ forallb isTalk pre = true
    /\ removeTail store r tl.
Proof.
  destruct crypto as [c |]; unfold removeBody, bind, deref, panic, ret.
  2: { exists [], []. cbn. rewrite app_nil_r.
       split; [reflexivity |]. split; [reflexivity | now left]. }
  rewrite selfCheck_run.
  assert (Hrest : forall h0, exists pre tl,
             snd (removeRest W c store force r h0) = h0 ++ pre ++ tl
             /\ forallb isTalk pre = true /\ removeTail store r tl).
  { intros h0. destruct (removeRest_shape W c store force r h0)
      as [ws [tl [Hs [Hws Ht]]]].
    exists ws, tl. split; [exact Hs |]. split; [now apply cyan_talk |].
    exact Ht. }
  destruct (FindPrivateKeys c h [r]) as [[| k kl] [e |]]; cbn;
    try apply Hrest.
  destruct (termio_AskForConfirmation W h (selfPrompt r)); cbn.
  - destruct (Hrest (h ++ [EvConfirm (selfPrompt r) true]))
      as [pre [tl [Hs [Hp Ht]]]].
    exists (EvConfirm (selfPrompt r) true :: pre), tl.
    rewrite Hs, <- !app_assoc. split; [reflexivity |].
    split; [exact Hp | exact Ht].
  - exists [EvConfirm (selfPrompt r) false], []. cbn.
    split; [reflexivity |]. split; [reflexivity | now left].
Qed.

Lemma selection_tail_events (W : Env) (title usage : string)
    (ids choices : list string) (h : trace) :
  exists ev,
    snd (bind (GetSelection W title usage choices)
           (fun x => let '(act, sel) := x in selected ids act sel) h)
    = h ++ ev
    /\ selectionEvents ev.
Proof.
  unfold bind, GetSelection, call.
  destruct (cui_GetSelection W h title usage choices) as [act sel]. cbn.
  pose proof (selected_short ids act sel
                (h ++ [EvSelection title usage choices act sel])) as [Hs _].
  destruct (selected ids act sel _) as [[v |] h1]; cbn in Hs; subst h1;
    eexists [_]; (split; [reflexivity |]); right;
    eexists _, _, _, _, _; reflexivity.
Qed.

Lemma recipientsSelectForRemoval_events (W : Env) (store : string)
    (h : trace) :
  exists ev,
    snd (recipientsSelectForRemoval W store h) = h ++ ev
    /\ selectionEvents ev.
Proof.
  unfold recipientsSelectForRemoval.
  unfold bind at 1 2 3. unfold query.
  destruct (Store_Crypto W h store) as [c |].
  - rewrite formatChoices_some. cbn [app].
    destruct (map _ _) as [| ch chs]; cbn [length Nat.ltb Nat.leb].
    + exists []. unfold ret. cbn. rewrite app_nil_r. split; [reflexivity | now left].
    + apply selection_tail_events.
  - rewrite formatChoices_nil.
    destruct (Store_ListRecipients W h store);
      exists []; unfold ret; cbn; rewrite app_nil_r;
      (split; [reflexivity | now left]).
Qed.

Lemma recipientsSelectForAdd_events (W : Env) (store : string) (h : trace) :
  exists ev,
    snd (recipientsSelectForAdd W store h) = h ++ ev
    /\ selectionEvents ev.
Proof.
  unfold recipientsSelectForAdd.
  unfold bind at 1 2 3 4. unfold query, deref, ret, panic.
  destruct (Store_Crypto W h store) as [c |].
  2: { exists []. cbn. rewrite app_nil_r. split; [reflexivity | now left]. }
  destruct (FindPublicKeys c h []) as [kl e].
  rewrite formatChoices_some. cbn [app].
  destruct (map _ _) as [| ch chs]; cbn [length Nat.ltb Nat.leb].
  - exists []. cbn. rewrite app_nil_r. split; [reflexivity | now left].
  - apply selection_tail_events.
Qed.

(** *** A property of every piece is a property of the run *)

Section BatchAll.

Variable W : Env.
Variable select : string -> M (list string * option error).
Variable body : option Crypto -> string -> string -> M iter.
Variable noKey : error.
Variable done : nat -> M (option error).
Variable P : string -> trace -> Prop.

Hypothesis P_nil : forall st, P st [].
Hypothesis P_app : forall st a b, P st a -> P st b -> P st (a ++ b).
Hypothesis P_ask : forall st, P st [EvAskForStore st].
Hypothesis select_P : forall st h,
  exists ev, snd (select st h) = h ++ ev /\ P st ev.
Hypothesis body_P : forall crypto st r h,
  exists ev, snd (body crypto st r h) = h ++ ev /\ P st ev.
Hypothesis done_P : forall st n h,
  exists ev, snd (done n h) = h ++ ev /\ P st ev.

Lemma batch_all (store : string) (args : list string) (h : trace) :
  exists new,
    snd (batch W select body noKey done store args h) = h ++ new
    /\ P (chosenStore W store h) new.
Proof.
  unfold batch, chosenStore.
  set (s := if (store =? "")%string then cui_AskForStore W h else store).
  assert (H0 : exists e0,
             (if (store =? "")%string
              then call (cui_AskForStore W) EvAskForStore
              else ret store) h = (Val s, h ++ e0) /\ P s e0).
  { subst s. destruct (store =? "")%string; unfold call, ret.
    - eexists [_]. split; [reflexivity | apply P_ask].
    - exists []. rewrite app_nil_r. split; [reflexivity | apply P_nil]. }
  destruct H0 as [e0 [H0 P0]].
  unfold bind at 1. rewrite H0. unfold bind at 1. unfold query at 1.
  set (crypto := Store_Crypto W (h ++ e0) s).
  unfold bind at 1.
  assert (H1 : exists e1,
             snd ((if (length args <? 1)%nat then select s
                   else ret (args, None)) (h ++ e0)) = (h ++ e0) ++ e1
             /\ P s e1).
  { destruct (length args <? 1)%nat; [apply select_P |].
    exists []. cbn. rewrite app_nil_r. split; [reflexivity | apply P_nil]. }
  destruct H1 as [e1 [H1 P1]].
  destruct ((if (length args <? 1)%nat then select s else ret (args, None))
              (h ++ e0)) as [[[recipients [e |]] |] h1];
    cbn in H1; subst h1.
  - exists (e0 ++ e1). rewrite app_assoc. split; [reflexivity |].
    now apply P_app.
  - unfold bind.
    destruct (forRange_all (body crypto s) (P s) (P_nil s) (P_app s)
                (body_P crypto s) recipients 0 ((h ++ e0) ++ e1))
      as [e2 [H2 P2]].
    destruct (forRange (body crypto s) recipients 0 ((h ++ e0) ++ e1))
      as [[[e | n] |] h2]; cbn in H2; subst h2.
    + exists (e0 ++ e1 ++ e2). rewrite !app_assoc. split; [reflexivity |].
      rewrite <- !app_assoc. auto.
    + destruct (n <? 1)%nat.
      * exists (e0 ++ e1 ++ e2). rewrite !app_assoc.
        split; [reflexivity |]. rewrite <- !app_assoc. auto.
      * destruct (done_P s n (((h ++ e0) ++ e1) ++ e2)) as [e3 [H3 P3]].
        exists (e0 ++ e1 ++ e2 ++ e3). rewrite !app_assoc.
        split; [exact H3 |].
        rewrite <- !app_assoc. auto.
    + exists (e0 ++ e1 ++ e2). rewrite !app_assoc. split; [reflexivity |].
      rewrite <- !app_assoc. auto.
  - exists (e0 ++ e1). rewrite app_assoc. split; [reflexivity |].
    now apply P_app.
Qed.

End BatchAll.

Lemma emit2_events (g c : string) (h : trace) :
  (emit (EvGreen g) ;;; emit (EvCyan c) ;;; ret None)%monad h
  = (@Val (option error) None, h ++ [EvGreen g; EvCyan c]).
Proof. unfold bind, emit, ret. now rewrite <- app_assoc. Qed.

Lemma forallb_weaken (p q : event -> bool) (t : trace) :
  (forall e, p e = true -> q e = true) ->
  forallb p t = true -> forallb q t = true.
Proof.
  intros Hpq. rewrite !forallb_forall. intros H e He. apply Hpq. now apply H.
Qed.

(** X6: in a run of add-recipients the calls of AddRecipient and the
    accepted confirmations are equally many: nothing is handed to the store
    without a yes, and every yes is followed by the call. *)
Theorem add_commits_once_per_yes (W : Env) (store : string) (force : bool)
    (args : list string) (h : trace) :
  exists new,
    snd (RecipientsAdd W store force args h) = h ++ new
    /\ count isCommit new = count isAccepted new.
Proof.
  rewrite RecipientsAdd_batch.
  apply (batch_all W _ _ _ _
           (fun _ t => count isCommit t = count isAccepted t)).
  - reflexivity.
  - intros _ a b Ha Hb. rewrite !count_app. lia.
  - reflexivity.
  - intros st h0.
    destruct (recipientsSelectForAdd_events W st h0) as [ev [Hs He]].
    exists ev. split; [exact Hs |].
    destruct He as [-> | [t [u [c [a [s ->]]]]]]; reflexivity.
  - intros crypto st r h0.
    destruct (addBody_shape W crypto st force r h0)
      as [ws [tl [Hs [Hws Ht]]]].
    exists (ws ++ tl). split; [exact Hs |]. rewrite !count_app.
    rewrite (cyan_count isCommit ws), (cyan_count isAccepted ws);
      auto.
    destruct Ht as [-> | [[p ->] | [p [recp [res ->]]]]]; reflexivity.
  - intros _ n h0. eexists. rewrite emit2_events.
    split; [reflexivity | reflexivity].
Qed.

(** X7: add-recipients and remove-recipients only ever call the store for
    the store they work on (the one given, or the one asked for), and always
    with the storage-layer confirmation switched off; add-recipients never
    removes, remove-recipients never adds, and neither rewrites a recipient
    list. *)
Theorem batch_touches_only_its_store (W : Env) (store : string)
    (force : bool) (args : list string) (h : trace) :
  (exists new,
      snd (RecipientsAdd W store force args h) = h ++ new
      /\ forallb (addEvent (chosenStore W store h)) new = true)
  /\ (exists new,
         snd (RecipientsRemove W store force args h) = h ++ new
         /\ forallb (removeEvent (chosenStore W store h)) new = true).
Proof.
  split.
  - rewrite RecipientsAdd_batch.
    apply (batch_all W _ _ _ _
             (fun st t => forallb (addEvent st) t = true)).
    + reflexivity.
    + intros st a b Ha Hb. now rewrite forallb_app, Ha, Hb.
    + reflexivity.
    + intros st h0.
      destruct (recipientsSelectForAdd_events W st h0) as [ev [Hs He]].
      exists ev. split; [exact Hs |].
      destruct He as [-> | [t [u [c [a [s ->]]]]]]; reflexivity.
    + intros crypto st r h0.
      destruct (addBody_shape W crypto st force r h0)
        as [ws [tl [Hs [Hws Ht]]]].
      exists (ws ++ tl). split; [exact Hs |]. rewrite forallb_app.
      rewrite (forallb_weaken isCyan (addEvent st) ws); auto.
      * destruct Ht as [-> | [[p ->] | [p [recp [res ->]]]]]; cbn;
          rewrite ?String.eqb_refl; reflexivity.
      * now intros [].
    + intros st n h0. eexists. rewrite emit2_events.
      split; [reflexivity | reflexivity].
  - rewrite RecipientsRemove_batch.
    apply (batch_all W _ _ _ _
             (fun st t => forallb (removeEvent st) t = true)).
    + reflexivity.
    + intros st a b Ha Hb. now rewrite forallb_app, Ha, Hb.
    + reflexivity.
    + intros st h0.
      destruct (recipientsSelectForRemoval_events W st h0) as [ev [Hs He]].
      exists ev. split; [exact Hs |].
      destruct He as [-> | [t [u [c [a [s ->]]]]]]; reflexivity.
    + intros crypto st r h0.
      destruct (removeBody_shape W crypto st force r h0)
        as [pre [tl [Hs [Hp Ht]]]].
      exists (pre ++ tl). split; [exact Hs |]. rewrite forallb_app.
      rewrite (forallb_weaken isTalk (removeEvent st) pre); auto.
      * destruct Ht as [-> | [[recp [e ->]] | [recp ->]]]; cbn;
          rewrite ?String.eqb_refl; reflexivity.
      * now intros [].
    + intros st n h0. eexists. rewrite emit2_events.
      split; [reflexivity | reflexivity].
Qed.

Lemma talk_count (p : event -> bool) (t : trace) :
  (forall e, isTalk e = true -> p e = false) ->
  forallb isTalk t = true -> count p t = 0.
Proof. intros Hp. now apply count_forallb. Qed.

(** X8: remove-recipients prints the removal warning once for every
    recipient it removed, and prints nothing else on stdout: in every run,
    with or without force, the lines on stdout and the successful calls of
    RemoveRecipient are equally many. *)
Theorem removal_warning_per_removal (W : Env) (store : string) (force : bool)
    (args : list string) (h : trace) :
  exists new,
    snd (RecipientsRemove W store force args h) = h ++ new
    /\ count isStdout new = count isCommitted new.
Proof.
  rewrite RecipientsRemove_batch.
  apply (batch_all W _ _ _ _
           (fun _ t => count isStdout t = count isCommitted t)).
  - reflexivity.
  - intros _ a b Ha Hb. rewrite !count_app. lia.
  - reflexivity.
  - intros st h0.
    destruct (recipientsSelectForRemoval_events W st h0) as [ev [Hs He]].
    exists ev. split; [exact Hs |].
    destruct He as [-> | [t [u [c [a [s ->]]]]]]; reflexivity.
  - intros crypto st r h0.
    destruct (removeBody_shape W crypto st force r h0)
      as [pre [tl [Hs [Hp Ht]]]].
    exists (pre ++ tl). split; [exact Hs |]. rewrite !count_app.
    rewrite (talk_count isStdout pre), (talk_count isCommitted pre); auto.
    + destruct Ht as [-> | [[recp [e ->]] | [recp ->]]]; reflexivity.
    + now intros [].
    + now intros [].
  - intros _ n h0. eexists. rewrite emit2_events.
    split; [reflexivity | reflexivity].
Qed.

(** *** Candidates that match no key *)

Lemma add_unmatched_loop (W : Env) (c : Crypto) (st : string)
    (rs : list string) :
  (forall h r, In r rs -> FindPublicKeys c h [r] = ([], None)) ->
  forall n h,
    forRange (addBody W (Some c) st false) rs n h
    = (Val (inr n), h ++ flat_map noMatchEvents rs).
Proof.
  induction rs as [| r rs IH]; intros Hk n h.
  - cbn. unfold ret. now rewrite app_nil_r.
  - cbn [forRange flat_map]. unfold bind at 1.
    unfold addBody, bind, deref, ret.
    rewrite (resolve_unmatched W c r h (Hk h r (or_introl eq_refl))).
    rewrite IH by (intros h' r' Hin; apply Hk; now right).
    now rewrite <- app_assoc.
Qed.

Lemma remove_unmatched_loop (W : Env) (c : Crypto) (st : string)
    (rs : list string) :
  (forall h r, In r rs -> FindPublicKeys c h [r] = ([], None)) ->
  (forall h r, In r rs -> fst (FindPrivateKeys c h [r]) = []) ->
  forall n h,
    forRange (removeBody W (Some c) st false) rs n h
    = (Val (inr n), h ++ flat_map noMatchEvents rs).
Proof.
  induction rs as [| r rs IH]; intros Hk Hp n h.
  - cbn. unfold ret. now rewrite app_nil_r.
  - cbn [forRange flat_map]. unfold bind at 1.
    unfold removeBody, bind, deref, ret. rewrite selfCheck_run.
    pose proof (Hp h r (or_introl eq_refl)) as Hpr.
    destruct (FindPrivateKeys c h [r]) as [kl e]. cbn in Hpr. subst kl.
    cbn [negb]. unfold removeRest, bind.
    rewrite (resolve_unmatched W c r h (Hk h r (or_introl eq_refl))).
    unfold ret.
    rewrite IH;
      [| intros h' r' Hin; apply Hk; now right
       | intros h' r' Hin; apply Hp; now right].
    now rewrite <- app_assoc.
Qed.

(** X9: when none of the candidates given as arguments matches a key and
    force is not set, add-recipients prints the four lines about the missing
    key for each of them, asks for no confirmation, calls the store for
    nothing and fails with "no key added"; remove-recipients does the same
    with "no key removed" when, besides, none of the candidates is one of the
    operator's own keys. *)
Theorem unmatched_candidates_are_skipped (W : Env) (store : string)
    (args : list string) (h : trace) (c : Crypto) :
  args <> [] ->
  Store_Crypto W (h ++ askEvents W store h) (chosenStore W store h)
  = Some c ->
  (forall h' r, In r args -> FindPublicKeys c h' [r] = ([], None)) ->
  RecipientsAdd W store false args h
  = (Val (Some noKeyAdded),
     h ++ askEvents W store h ++ flat_map noMatchEvents args)
  /\ ((forall h' r, In r args -> fst (FindPrivateKeys c h' [r]) = []) ->
      RecipientsRemove W store false args h
      = (Val (Some noKeyRemoved),
         h ++ askEvents W store h ++ flat_map noMatchEvents args)).
Proof.
  intros Hargs Hc Hk.
  assert (Hlen : (length args <? 1)%nat = false)
    by (destruct args; [contradiction | reflexivity]).
  split; [| intros Hp].
  - unfold RecipientsAdd. unfold bind at 1. rewrite askStore_chosen.
    unfold bind at 1. unfold query at 1. rewrite Hc, Hlen.
    unfold bind at 1. unfold ret at 1.
    unfold bind. rewrite (add_unmatched_loop W c _ args Hk).
    cbn [Nat.ltb Nat.leb]. unfold ret. now rewrite <- app_assoc.
  - unfold RecipientsRemove. unfold bind at 1. rewrite askStore_chosen.
    unfold bind at 1. unfold query at 1. rewrite Hc, Hlen.
    unfold bind at 1. unfold ret at 1.
    unfold bind. rewrite (remove_unmatched_loop W c _ args Hk Hp).
    cbn [Nat.ltb Nat.leb]. unfold ret. now rewrite <- app_assoc.
Qed.

Lemma unmatched_candidates_are_skipped_witness :
  RecipientsAdd emptyKeyringEnv "" false ["alice@example.com"%string] []
  = (Val (Some noKeyAdded),
     [] ++ [EvAskForStore ""] ++ noMatchEvents "alice@example.com" ++ []).
Proof.
  apply (proj1 (unmatched_candidates_are_skipped emptyKeyringEnv "" 
                  ["alice@example.com"%string] [] emptyKeyring
                  ltac:(discriminate) eq_refl
                  (fun _ _ _ => eq_refl))).
Defined.

(** *** A lookup that fails *)

(** X10: when the public-key lookup for a candidate returns an error, the
    keys returned with it are not used: without force the candidate is
    skipped after one warning, by add and by remove alike; with force the
    input itself is taken for the key, so that what is handed to the store
    is [Fingerprint] of the input (in add, after the usual confirmation). *)
Theorem failed_lookup_needs_force (W : Env) (c : Crypto) (store r : string)
    (h : trace) (keys : list string) (e : exterr) :
  FindPublicKeys c h [r] = (keys, Some e) ->
  let h' := h ++ [EvCyan ("WARNING: Failed to list public key '" ++ r
                            ++ "': " ++ Error_ W e)%string] in
  let recp := Fingerprint c h' r in
  addBody W (Some c) store false r h = (Val Skipped, h')
  /\ removeRest W c store false r h = (Val Skipped, h')
  /\ (exists new,
         snd (addBody W (Some c) store true r h) = h' ++ new
         /\ commits new
            = if termio_AskForConfirmation W h'
                   (addPrompt (FormatKey c h' recp) store)
              then [(store, recp)] else [])
  /\ (exists new,
         snd (removeRest W c store true r h) = h' ++ new
         /\ commits new = [(store, recp)]).
Proof.
  intros Hk h' recp.
  pose proof (resolve_failed W c false r h keys e Hk) as Hf.
  pose proof (resolve_failed W c true r h keys e Hk) as Ht.
  cbv zeta in Hf, Ht. fold h' in Hf, Ht. fold recp in Ht.
  split; [| split; [| split]].
  - unfold addBody, bind, deref, ret. now rewrite Hf.
  - unfold removeRest, bind, ret. now rewrite Hf.
  - unfold addBody, bind, deref, ret. rewrite Ht.
    unfold query, AskForConfirmation, call, ret.
    destruct (termio_AskForConfirmation W h' _); cbn.
    + destruct (Store_AddRecipient W _ true store recp); cbn;
        eexists [_; _]; rewrite <- app_assoc; split; reflexivity.
    + eexists [_]. split; reflexivity.
  - unfold removeRest, bind. rewrite Ht. unfold call, emit, ret.
    destruct (Store_RemoveRecipient W h' true store recp); cbn.
    + eexists [_]. split; reflexivity.
    + eexists [_; _]. rewrite <- app_assoc. split; reflexivity.
Qed.

Lemma failed_lookup_needs_force_witness :
  addBody (clockEnv 0) (Some lockedKeyring) "vault" false "bob" []
  = (Val Skipped,
     [] ++ [EvCyan "WARNING: Failed to list public key 'bob': keyring locked"]).
Proof.
  apply (proj1 (failed_lookup_needs_force (clockEnv 0) lockedKeyring "vault"
                  "bob" [] [] (ErrOther "keyring locked") eq_refl)).
Defined.

(** *** What a successful batch reports *)

Section BatchDone.

Variable W : Env.
Variable select : string -> M (list string * option error).
Variable body : option Crypto -> string -> string -> M iter.
Variable noKey : error.
Variable done : nat -> M (option error).
Variable doneEv : nat -> trace.

Hypothesis select_run : forall st h, selectionRun (select st h) h.
Hypothesis body_run : forall crypto st r h,
  exists ev,
    snd (body crypto st r h) = h ++ ev
    /\ commitStep (fst (body crypto st r h)) ev.
Hypothesis done_run : forall n h, done n h = (Val None, h ++ doneEv n).
Hypothesis done_quiet : forall n, tally 0 0 (doneEv n).

Lemma batch_success (store : string) (args : list string) (h : trace)
    (new : trace) :
  batch W select body noKey done store args h = (Val None, h ++ new) ->
  exists pre,
    new = pre ++ doneEv (count isCommitted new)
    /\ 1 <= count isCommitted new.
Proof.
  unfold batch.
  destruct (askStore_run W store h) as [s [e0 [H0 [T0 _]]]].
  unfold bind at 1. rewrite H0. unfold bind at 1. unfold query at 1.
  set (crypto := Store_Crypto W (h ++ e0) s).
  unfold bind at 1.
  assert (Hsel : exists e1,
             snd ((if (length args <? 1)%nat then select s
                   else ret (args, None)) (h ++ e0)) = (h ++ e0) ++ e1
             /\ tally 0 0 e1).
  { destruct (length args <? 1)%nat.
    - destruct (select_run s (h ++ e0)) as [e1 [H1 [T1 _]]]. now exists e1.
    - exists []. unfold ret. cbn. rewrite app_nil_r.
      split; [reflexivity | split; reflexivity]. }
  destruct Hsel as [e1 [H1 T1]].
  destruct ((if (length args <? 1)%nat then select s else ret (args, None))
              (h ++ e0)) as [[[recipients [e |]] |] h1];
    cbn in H1; subst h1; [discriminate | | discriminate].
  unfold bind.
  destruct (batch_loop (body crypto s) (body_run crypto s) recipients
              ((h ++ e0) ++ e1)) as [e2 [H2 T2]].
  destruct (forRange (body crypto s) recipients 0 ((h ++ e0) ++ e1))
    as [[[e | n] |] h2]; cbn in H2, T2; subst h2;
    [discriminate | | discriminate].
  destruct n as [| n]; cbn [Nat.ltb Nat.leb]; [discriminate |].
  rewrite done_run. intros Heq. inversion Heq as [Hn].
  rewrite <- !app_assoc in Hn. apply app_inv_head in Hn. subst new.
  pose proof (tally_app _ _ _ _ _ _ T0
                (tally_app _ _ _ _ _ _ T1
                   (tally_app _ _ _ _ _ _ T2 (done_quiet (S n))))) as [Ho _].
  cbn in Ho. rewrite Nat.add_0_r in Ho. rewrite Ho. exists (e0 ++ e1 ++ e2).
  rewrite <- !app_assoc. split; [reflexivity | lia].
Qed.

End BatchDone.

(** X11: when add-recipients or remove-recipients succeeds, the run ends
    with the green line "Added <n> recipients" / "Removed <n> recipients"
    and the hint to run sync, where <n> is the number of successful calls of
    the store in that run, and at least one. *)
Theorem success_reports_the_commits (W : Env) (store : string) (force : bool)
    (args : list string) (h : trace) (new : trace) :
  (RecipientsAdd W store force args h = (Val None, h ++ new) ->
   1 <= count isCommitted new
   /\ exists pre,
        new = pre ++ [EvGreen ("
Added " ++ itoa (count isCommitted new) ++ " recipients")%string;
                      EvCyan "You need to run 'gopass sync' to push these changes"])
  /\ (RecipientsRemove W store force args h = (Val None, h ++ new) ->
      1 <= count isCommitted new
      /\ exists pre,
           new = pre ++ [EvGreen ("
Removed " ++ itoa (count isCommitted new) ++ " recipients")%string;
                         EvCyan "You need to run 'gopass sync' to push these changes"]).
Proof.
  split; intros Hrun.
  - rewrite RecipientsAdd_batch in Hrun.
    apply batch_success with
      (doneEv := fun n => [EvGreen ("
Added " ++ itoa n ++ " recipients")%string;
                           EvCyan "You need to run 'gopass sync' to push these changes"])
      in Hrun.
    + destruct Hrun as [pre [Hn Hc]]. split; [exact Hc | now exists pre].
    + apply recipientsSelectForAdd_run.
    + intros crypto st. apply addBody_step.
    + intros n h0. apply emit2_events.
    + intros n. split; reflexivity.
  - rewrite RecipientsRemove_batch in Hrun.
    apply batch_success with
      (doneEv := fun n => [EvGreen ("
Removed " ++ itoa n ++ " recipients")%string;
                           EvCyan "You need to run 'gopass sync' to push these changes"])
      in Hrun.
    + destruct Hrun as [pre [Hn Hc]]. split; [exact Hc | now exists pre].
    + apply recipientsSelectForRemoval_run.
    + intros crypto st. apply removeBody_step.
    + intros n h0. apply emit2_events.
    + intros n. split; reflexivity.
Qed.

Lemma success_reports_the_commits_witness :
  1 <= 1
  /\ exists pre,
       [EvConfirm (addPrompt "<FP:K:bob>" "vault") true;
        EvAddRecipient true "vault" "FP:K:bob" None;
        EvGreen "
Added 1 recipients";
        EvCyan "You need to run 'gopass sync' to push these changes"]
       = pre ++ [EvGreen "
Added 1 recipients";
                 EvCyan "You need to run 'gopass sync' to push these changes"].
Proof.
  exact (proj1 (success_reports_the_commits (clockEnv 0) "vault" false
                  ["bob"%string] []
                  [EvConfirm (addPrompt "<FP:K:bob>" "vault") true;
                   EvAddRecipient true "vault" "FP:K:bob" None;
                   EvGreen "
Added 1 recipients";
                   EvCyan "You need to run 'gopass sync' to push these changes"])
           ltac:(vm_compute; reflexivity)).
Defined.

(** *** Running without arguments *)

Lemma pickFrom_nothing (W : Env) title usage c (h : trace) :
  pickFrom W title usage c [] h = (Val ([], None), h).
Proof. reflexivity. Qed.

Lemma pickFrom_escape (W : Env) title usage c (id : string)
    (ids : list string) (h : trace) :
  let choices := map (FormatKey c h) (id :: ids) in
  let act := fst (cui_GetSelection W h title usage choices) in
  let sel := snd (cui_GetSelection W h title usage choices) in
  act <> "default"%string -> act <> "show"%string ->
  pickFrom W title usage c (id :: ids) h
  = (Val ([], Some userAborted),
     h ++ [EvSelection title usage choices act sel]).
Proof.
  intros choices act sel Hd Hs. unfold pickFrom. cbn [map].
  fold (map (FormatKey c h) ids). change (FormatKey c h id :: map (FormatKey c h) ids) with choices.
  fold act sel. unfold selected.
  apply String.eqb_neq in Hd, Hs. now rewrite Hd, Hs.
Qed.

Lemma RecipientsAdd_no_args (W : Env) (store : string) (force : bool)
    (h : trace) (c : Crypto) :
  let h0 := h ++ askEvents W store h in
  let st := chosenStore W store h in
  Store_Crypto W h0 st = Some c ->
  forall e h1,
    pickFrom W addTitle addUsage c (fst (FindPublicKeys c h0 [])) h0
    = (Val ([], e), h1) ->
    RecipientsAdd W store force [] h
    = (Val (Some (match e with Some x => x | None => noKeyAdded end)), h1).
Proof.
  intros h0 st Hc e h1 Hpick.
  unfold RecipientsAdd. unfold bind at 1. rewrite askStore_chosen.
  fold h0 st. unfold bind at 1. unfold query at 1. rewrite Hc.
  cbn [length Nat.ltb Nat.leb]. unfold bind at 1.
  rewrite (recipientsSelectForAdd_pick W st h0 c Hc), Hpick.
  destruct e; reflexivity.
Qed.

Lemma RecipientsRemove_no_args (W : Env) (store : string) (force : bool)
    (h : trace) (c : Crypto) :
  let h0 := h ++ askEvents W store h in
  let st := chosenStore W store h in
  Store_Crypto W h0 st = Some c ->
  forall e h1,
    pickFrom W removeTitle removeUsage c (Store_ListRecipients W h0 st) h0
    = (Val ([], e), h1) ->
    RecipientsRemove W store force [] h
    = (Val (Some (match e with Some x => x | None => noKeyRemoved end)), h1).
Proof.
  intros h0 st Hc e h1 Hpick.
  unfold RecipientsRemove. unfold bind at 1. rewrite askStore_chosen.
  fold h0 st. unfold bind at 1. unfold query at 1. rewrite Hc.
  cbn [length Nat.ltb Nat.leb]. unfold bind at 1.
  rewrite (recipientsSelectForRemoval_pick W st h0 c Hc), Hpick.
  destruct e; reflexivity.
Qed.

(** X12: run without arguments, add-recipients (over all public keys) and
    remove-recipients (over the recipients of the store) fail with "no key
    added" / "no key removed" without asking anything when there is nothing
    to choose from; and when the operator leaves the selection with anything
    but accept or show, the command returns the user-aborted error right
    after the selection: no confirmation is asked and the store is not
    called. *)
Theorem no_arguments_no_choice (W : Env) (store : string) (force : bool)
    (h : trace) (c : Crypto) :
  let h0 := h ++ askEvents W store h in
  let st := chosenStore W store h in
  let keys := fst (FindPublicKeys c h0 []) in
  let recps := Store_ListRecipients W h0 st in
  let shown ids := map (FormatKey c h0) ids in
  Store_Crypto W h0 st = Some c ->
  (keys = [] ->
   RecipientsAdd W store force [] h = (Val (Some noKeyAdded), h0))
  /\ (recps = [] ->
      RecipientsRemove W store force [] h = (Val (Some noKeyRemoved), h0))
  /\ (forall act sel,
         keys <> [] ->
         cui_GetSelection W h0 addTitle addUsage (shown keys) = (act, sel) ->
         act <> "default"%string -> act <> "show"%string ->
         RecipientsAdd W store force [] h
         = (Val (Some userAborted),
            h0 ++ [EvSelection addTitle addUsage (shown keys) act sel]))
  /\ (forall act sel,
         recps <> [] ->
         cui_GetSelection W h0 removeTitle removeUsage (shown recps)
         = (act, sel) ->
         act <> "default"%string -> act <> "show"%string ->
         RecipientsRemove W store force [] h
         = (Val (Some userAborted),
            h0 ++ [EvSelection removeTitle removeUsage (shown recps)
                     act sel])).
Proof.
  intros h0 st keys recps shown Hc.
  split; [| split; [| split]].
  - intros Hk.
    apply (RecipientsAdd_no_args W store force h c Hc None h0).
    fold h0 keys. rewrite Hk. reflexivity.
  - intros Hl.
    apply (RecipientsRemove_no_args W store force h c Hc None h0).
    fold h0 st recps. rewrite Hl. reflexivity.
  - intros act sel Hk Hsel Hd Hs.
    apply (RecipientsAdd_no_args W store force h c Hc (Some userAborted)).
    fold h0 keys. destruct keys as [| k kl] eqn:Hkeys; [contradiction |].
    pose proof (pickFrom_escape W addTitle addUsage c k kl h0) as Hp.
    cbv zeta in Hp. unfold shown in Hsel. rewrite Hsel in Hp.
    now apply Hp.
  - intros act sel Hl Hsel Hd Hs.
    apply (RecipientsRemove_no_args W store force h c Hc (Some userAborted)).
    fold h0 st recps. destruct recps as [| k kl] eqn:Hrecps; [contradiction |].
    pose proof (pickFrom_escape W removeTitle removeUsage c k kl h0) as Hp.
    cbv zeta in Hp. unfold shown in Hsel. rewrite Hsel in Hp.
    now apply Hp.
Qed.

Lemma no_arguments_no_choice_witness :
  RecipientsRemove escapeEnv "vault" false [] []
  = (Val (Some userAborted),
     ([] ++ []) ++ [EvSelection removeTitle removeUsage
                      ["<r1>"%string; "<r2>"%string] "esc" 0]).
Proof.
  apply (proj2 (proj2 (proj2 (no_arguments_no_choice escapeEnv "vault" false
                                [] pubOnly eq_refl)))
           "esc"%string 0%Z);
    [discriminate | reflexivity | discriminate | discriminate].
Defined.

(** *** Reconciliation: nodes that need nothing *)

Lemma updateBody_settled (W : Env) (h : trace) (alias : string) :
  settled W h alias -> updateBody W alias h = (Val Skipped, h).
Proof.
  unfold settled, updateBody, bind, query, ret.
  destruct (Store_GetSubStore W h alias) as [[subs |] [e |]];
    try reflexivity.
  destruct (GetRecipients subs h "") as [recp err]. cbn [snd].
  intros [-> Hh]. apply String.eqb_neq in Hh. now rewrite Hh.
Qed.

Lemma update_settled_loop (W : Env) (h : trace) (nodes : list string) :
  (forall alias, In alias nodes -> settled W h alias) ->
  forall n, forRange (updateBody W) nodes n h = (Val (inr n), h).
Proof.
  induction nodes as [| alias nodes IH]; intros Hs n; [reflexivity |].
  cbn [forRange]. unfold bind.
  rewrite (updateBody_settled W h alias (Hs alias (or_introl eq_refl))).
  apply IH. intros a Hin. apply Hs. now right.
Qed.

(** X13: when every node (every mount point and the root) either does not
    resolve or has readable recipients and a recorded checksum, the
    reconciliation asks nothing, writes nothing, says "Nothing to do" and
    succeeds. *)
Theorem update_without_drift_is_silent (W : Env) (h : trace) :
  (forall alias,
      In alias (updateNodes W (Store_MountPoints W h)) ->
      settled W h alias) ->
  RecipientsUpdate W h = (Val None, h ++ [EvGreen "Nothing to do"]).
Proof.
  intros Hs. unfold RecipientsUpdate. unfold bind at 1. unfold query at 1.
  unfold bind at 1. rewrite (update_settled_loop W h _ Hs 0).
  reflexivity.
Qed.

Lemma update_without_drift_is_silent_witness :
  settled recordedEnv [] "team"
  /\ RecipientsUpdate recordedEnv []
     = (Val None, [] ++ [EvGreen "Nothing to do"]).
Proof.
  split; [split; [reflexivity | discriminate] |].
  apply (update_without_drift_is_silent recordedEnv []).
  intros alias [<- | [<- | [<- | []]]];
    first [exact I | split; [reflexivity | discriminate]].
Defined.

(** *** Reconciliation: what is asked and what is written *)

Lemma print_count (p : event -> bool) (t : trace) :
  (forall e, isPrint e = true -> p e = false) ->
  forallb isPrint t = true -> count p t = 0.
Proof. intros Hp. now apply count_forallb. Qed.

Lemma confirmNode_dialogue (W : Env) alias subs recp h :
  exists ev,
    snd (confirmNode W alias subs recp h) = h ++ ev
    /\ nodeStep alias (fst (confirmNode W alias subs recp h)) ev.
Proof.
  destruct (confirmNode_run W alias subs recp h) as [prints [Hf Hrun]].
  cbv zeta in Hrun. rewrite Hrun.
  assert (Hw : count isWritten prints = 0)
    by (apply print_count; [now intros [] | exact Hf]).
  destruct (termio_AskForConfirmation W _ (trustPrompt alias)).
  - destruct (SetRecipients subs _ recp) as [e |]; cbn [fst snd];
      rewrite <- !app_assoc; eexists; (split; [reflexivity |]); split.
    + right. exists prints. split; [exact Hf |]. right; left.
      now exists recp, e.
    + unfold count in *. cbn. rewrite filter_app, length_app, Hw.
      reflexivity.
    + right. exists prints. split; [exact Hf |]. right; right.
      now exists recp.
    + unfold count in *. cbn. rewrite filter_app, length_app, Hw.
      reflexivity.
  - cbn [fst snd]. rewrite <- !app_assoc. eexists. split; [reflexivity |].
    split.
    + right. exists prints. split; [exact Hf |]. now left.
    + unfold count in *. cbn. rewrite filter_app, length_app, Hw.
      reflexivity.
Qed.

Lemma updateBody_dialogue (W : Env) alias h :
  exists ev,
    snd (updateBody W alias h) = h ++ ev
    /\ nodeStep alias (fst (updateBody W alias h)) ev.
Proof.
  unfold updateBody, bind, query, ret.
  destruct (Store_GetSubStore W h alias) as [[subs |] [e |]];
    try (exists []; rewrite app_nil_r; split;
         [reflexivity | split; [now left | reflexivity]]).
  destruct (GetRecipients subs h "") as [recp [[| msg] |]].
  - apply confirmNode_dialogue.
  - exists []. rewrite app_nil_r. split; [reflexivity |].
    split; [now left | reflexivity].
  - destruct (negb _).
    + exists []. rewrite app_nil_r. split; [reflexivity |].
      split; [now left | reflexivity].
    + apply confirmNode_dialogue.
Qed.

Lemma nodeDialogue_counts (alias : string) (ev : trace) :
  nodeDialogue alias ev ->
  count isSetRecipients ev = count isAccepted ev
  /\ count isConfirm ev <= 1
  /\ count isCommit ev = 0.
Proof.
  intros [-> | [prints [Hf Hev]]]; [repeat split; cbn; lia |].
  assert (Hs : count isSetRecipients prints = 0)
    by (apply print_count; [now intros [] | exact Hf]).
  assert (Ha : count isAccepted prints = 0)
    by (apply print_count; [now intros [] | exact Hf]).
  assert (Hc : count isConfirm prints = 0)
    by (apply print_count; [now intros [] | exact Hf]).
  assert (Hm : count isCommit prints = 0)
    by (apply print_count; [now intros [] | exact Hf]).
  destruct Hev as [-> | [[recp [e ->]] | [recp ->]]];
    rewrite !app_comm_cons, !count_app;
    unfold count in *; cbn; rewrite Hs, Ha, Hc, Hm; cbn; lia.
Qed.

Lemma forRange_count_bound (body : string -> M iter) (p : event -> bool) :
  (forall r h, exists ev, snd (body r h) = h ++ ev /\ count p ev <= 1) ->
  forall rs n h,
  exists new,
    snd (forRange body rs n h) = h ++ new /\ count p new <= length rs.
Proof.
  intros Hb rs. induction rs as [| r rs IH]; intros n h.
  - exists []. cbn. now rewrite app_nil_r.
  - cbn [forRange length]. unfold bind.
    destruct (Hb r h) as [ev [Hs Hev]].
    destruct (body r h) as [[[| | e] |] h1]; cbn in Hs; subst h1.
    + destruct (IH n (h ++ ev)) as [new [Hs' Hn]].
      exists (ev ++ new). rewrite app_assoc, count_app.
      split; [exact Hs' | lia].
    + destruct (IH (S n) (h ++ ev)) as [new [Hs' Hn]].
      exists (ev ++ new). rewrite app_assoc, count_app.
      split; [exact Hs' | lia].
    + exists ev. split; [reflexivity | lia].
    + exists ev. split; [reflexivity | lia].
Qed.

Lemma update_loop_counts (W : Env) (nodes : list string) (h : trace) :
  exists out new,
    forRange (updateBody W) nodes 0 h = (Val out, h ++ new)
    /\ count isSetRecipients new = count isAccepted new
    /\ count isCommit new = 0
    /\ count isConfirm new <= length nodes
    /\ match out with
       | inr changed => count isWritten new = changed
       | inl _ => True
       end.
Proof.
  destruct (forRange_inv (updateBody W)
              (fun n t => count isSetRecipients t = count isAccepted t
                          /\ count isCommit t = 0
                          /\ count isWritten t = n)
              (fun _ t => count isSetRecipients t = count isAccepted t
                          /\ count isCommit t = 0)
              (fun _ => False)) with (rs := nodes) (n := 0) (h := h)
                                     (t := @nil event)
    as [new [Hs Hp]].
  - intros r h0. destruct (updateBody_dialogue W r h0) as [ev [Hs [Hd Hw]]].
    exists ev. split; [exact Hs |]. intros n t [Ha [Hc Hn]].
    destruct (nodeDialogue_counts r ev Hd) as [Ha' [_ Hc']].
    destruct (fst (updateBody W r h0)) as [[| | e] |];
      rewrite ?count_app; try (repeat split; lia); try contradiction.
  - repeat split.
  - cbn [app] in Hp.
    destruct (forRange_count_bound (updateBody W) isConfirm) with
      (rs := nodes) (n := 0) (h := h) as [new' [Hs' Hb]].
    { intros r h0. destruct (updateBody_dialogue W r h0) as [ev [Hs0 [Hd _]]].
      exists ev. split; [exact Hs0 |].
      now destruct (nodeDialogue_counts r ev Hd) as [_ [Hc _]]. }
    rewrite Hs in Hs'. apply app_inv_head in Hs'. subst new'.
    destruct (forRange (updateBody W) nodes 0 h) as [[[e | n] |] h1];
      cbn in Hs, Hp; subst h1; [| | contradiction].
    + exists (inl e), new. split; [reflexivity |].
      destruct Hp as [Ha Hc]. repeat split; auto.
    + exists (inr n), new. split; [reflexivity |].
      destruct Hp as [Ha [Hc Hn]]. repeat split; auto.
Qed.

(** X14: the reconciliation always returns (it cannot panic); in every run
    the calls of SetRecipients and the accepted confirmations are equally
    many, so that no recipient list is written without a yes and every yes
    is followed by the write; it asks at most one question per node; and it
    never adds or removes a recipient. *)
Theorem update_writes_once_per_yes (W : Env) (h : trace) :
  exists out new,
    RecipientsUpdate W h = (Val out, h ++ new)
    /\ count isSetRecipients new = count isAccepted new
    /\ count isConfirm new
       <= length (updateNodes W (Store_MountPoints W h))
    /\ count isCommit new = 0.
Proof.
  unfold RecipientsUpdate. unfold bind at 1. unfold query at 1.
  unfold bind at 1.
  destruct (update_loop_counts W (updateNodes W (Store_MountPoints W h)) h)
    as [out [new [Hl [Ha [Hc [Hb _]]]]]].
  rewrite Hl. destruct out as [e | changed].
  - exists (Some e), new. now split.
  - unfold bind, emit, ret.
    destruct (0 <? changed)%nat; eexists None, (new ++ [_]);
      rewrite app_assoc; (split; [reflexivity |]);
      rewrite !count_app; unfold count in *; cbn; repeat split; lia.
Qed.

(** X15: when the reconciliation succeeds, its last line reports the
    number of recipient lists it wrote in that run: "Updated <n> stores"
    when SetRecipients succeeded for n > 0 nodes, "Nothing to do" when it
    succeeded for none. *)
Theorem update_reports_the_writes (W : Env) (h : trace) (new : trace) :
  RecipientsUpdate W h = (Val None, h ++ new) ->
  exists pre,
    new = pre ++ [EvGreen (if (0 <? count isWritten new)%nat
                           then ("Updated " ++ itoa (count isWritten new)
                                   ++ " stores")%string
                           else "Nothing to do")].
Proof.
  unfold RecipientsUpdate. unfold bind at 1. unfold query at 1.
  unfold bind at 1.
  destruct (update_loop_counts W (updateNodes W (Store_MountPoints W h)) h)
    as [out [pre [Hl [_ [_ [_ Hw]]]]]].
  rewrite Hl. destruct out as [e | changed]; [discriminate |].
  unfold bind, emit, ret.
  assert (Hc : forall g, count isWritten (pre ++ [EvGreen g]) = changed).
  { intros g. rewrite count_app, Hw. unfold count. cbn. lia. }
  destruct (0 <? changed)%nat eqn:Hpos; intros Heq;
    inversion Heq as [Hn]; rewrite <- app_assoc in Hn;
    apply app_inv_head in Hn; subst new; rewrite Hc, Hpos;
    now exists pre.
Qed.

Lemma update_reports_the_writes_witness :
  exists pre,
    [EvCyan "Please confirm Recipients for <root>:";
     EvPrint "- <FP:1>";
     EvConfirm "Do you trust these recipients for <root>?" true;
     EvSetRecipients "" ["FP:1"%string] None;
     EvPrint "";
     EvGreen "Updated 1 stores"]
    = pre ++ [EvGreen "Updated 1 stores"].
Proof.
  exact (update_reports_the_writes acceptingEnv []
           [EvCyan "Please confirm Recipients for <root>:";
            EvPrint "- <FP:1>";
            EvConfirm "Do you trust these recipients for <root>?" true;
            EvSetRecipients "" ["FP:1"%string] None;
            EvPrint "";
            EvGreen "Updated 1 stores"]
           ltac:(vm_compute; reflexivity)).
Defined.

(** *** Reconciliation: the dialogue about one node *)

Lemma printRecipients_exact (c : Crypto) (recp : list string) :
  forall h, printRecipients c recp h = (Val tt, h ++ printEvents c h recp).
Proof.
  induction recp as [| r recp IH]; intros h.
  - cbn. unfold ret. now rewrite app_nil_r.
  - cbn [printRecipients printEvents]. unfold bind, query, emit.
    rewrite IH. now rewrite <- app_assoc.
Qed.

Lemma printEvents_length (c : Crypto) (recp : list string) :
  forall h, length (printEvents c h recp) = length recp.
Proof.
  induction recp as [| r recp IH]; intros h; [reflexivity |].
  cbn. now rewrite IH.
Qed.

(** X16: for a node that resolves and whose recipients were fetched with the
    drift signal, or without error while no checksum is recorded, the
    reconciliation prints the header and one line per fetched recipient, in
    order, and asks once; on a yes it calls SetRecipients with exactly the
    fetched list and counts the node when the call succeeds, while an error
    of that call ends the whole reconciliation with that error; on a no it
    goes on to the next node. *)
Theorem node_is_written_as_shown (W : Env) (alias : string)
    (subs : SubStore) (recp : list string) (h : trace) :
  Store_GetSubStore W h alias = (Some subs, None) ->
  GetRecipients subs h "" = (recp, Some ErrRecipientChecksumChanged)
  \/ (GetRecipients subs h "" = (recp, None)
      /\ cfg_GetRecipientHash W h alias (IDFile (sub_Crypto subs))
         = ""%string) ->
  let shown := printEvents (sub_Crypto subs)
                 (h ++ [EvCyan (confirmHeader alias)]) recp in
  let h1 := h ++ EvCyan (confirmHeader alias) :: shown in
  let a := termio_AskForConfirmation W h1 (trustPrompt alias) in
  let h2 := h1 ++ [EvConfirm (trustPrompt alias) a] in
  length shown = length recp
  /\ updateBody W alias h
     = (if a then
          match SetRecipients subs h2 recp with
          | Some e =>
              (Val (Returned (External e)),
               h2 ++ [EvSetRecipients alias recp (Some e)])
          | None =>
              (Val Committed,
               h2 ++ [EvSetRecipients alias recp None; EvPrint ""])
          end
        else (Val Skipped, h2))
  /\ (forall e rest n,
         a = true -> SetRecipients subs h2 recp = Some e ->
         forRange (updateBody W) (alias :: rest) n h
         = (Val (inl (External e)),
            h2 ++ [EvSetRecipients alias recp (Some e)])).
Proof.
  intros Hs Hfetch shown h1 a h2.
  assert (Hbody : updateBody W alias h
                  = (if a then
                       match SetRecipients subs h2 recp with
                       | Some e =>
                           (Val (Returned (External e)),
                            h2 ++ [EvSetRecipients alias recp (Some e)])
                       | None =>
                           (Val Committed,
                            h2 ++ [EvSetRecipients alias recp None;
                                   EvPrint ""])
                       end
                     else (Val Skipped, h2))).
  { assert (Hc : updateBody W alias h = confirmNode W alias subs recp h).
    { unfold updateBody, bind, query, ret. rewrite Hs.
      destruct Hfetch as [Hr | [Hr Hh]]; rewrite Hr; [reflexivity |].
      now rewrite Hh. }
    rewrite Hc. unfold confirmNode. unfold bind at 1. unfold emit at 1.
    unfold bind at 1. rewrite printRecipients_exact. fold shown.
    rewrite <- app_assoc. cbn [app]. fold h1.
    unfold bind, AskForConfirmation, call, emit, ret. fold a. fold h2.
    destruct a; cbn [negb]; cbv beta; [| reflexivity].
    destruct (SetRecipients subs h2 recp); [reflexivity |].
    now rewrite <- app_assoc. }
  split; [apply printEvents_length |]. split; [exact Hbody |].
  intros e rest n Ha He. cbn [forRange]. unfold bind.
  now rewrite Hbody, Ha, He.
Qed.

Lemma node_is_written_as_shown_witness :
  updateBody acceptingEnv "" []
  = (Val Committed,
     (([] ++ [EvCyan (confirmHeader ""); EvPrint "- <FP:1>"])
        ++ [EvConfirm (trustPrompt "") true])
       ++ [EvSetRecipients "" ["FP:1"%string] None; EvPrint ""]).
Proof.
  exact (proj1 (proj2 (node_is_written_as_shown acceptingEnv "" driftStore
                         ["FP:1"%string] [] eq_refl
                         (or_introl eq_refl)))).
Defined.

(** *** Listing the recipients *)

Lemma printLines_run (vs : list string) :
  forall h,
    printLines vs h
    = (Val tt, h ++ map (fun v => EvStdout (v ++ "
")%string) vs).
Proof.
  induction vs as [| v vs IH]; intros h.
  - cbn. unfold ret. now rewrite app_nil_r.
  - cbn [printLines map]. unfold bind, emit. rewrite IH.
    now rewrite <- app_assoc.
Qed.

(** X17: the completion prints the entries of the plain recipients tree
    (asked for with hidden output), one per line and in the order of the
    list, and nothing else; when the tree cannot be built it prints the
    error instead and still returns normally. *)
Theorem complete_prints_the_list (W : Env) (T : TreeOracle) (h : trace) :
  (forall tree,
      T h true false = (Some tree, None) ->
      RecipientsComplete W T h
      = (Val tt,
         h ++ map (fun v => EvStdout (v ++ "
")%string) (Tree_List tree 0)))
  /\ (forall tree e,
         T h true false = (tree, Some e) ->
         RecipientsComplete W T h
         = (Val tt, h ++ [EvStdout (Error_ W e ++ "
")%string])).
Proof.
  split.
  - intros tree Ht. unfold RecipientsComplete, bind, query, deref, ret.
    rewrite Ht. cbn [fst snd]. apply printLines_run.
  - intros tree e Ht. unfold RecipientsComplete, bind, query.
    rewrite Ht. reflexivity.
Qed.

Lemma complete_prints_the_list_witness :
  RecipientsComplete (clockEnv 0) twoEntries []
  = (Val tt, [] ++ [EvStdout "0xA
"; EvStdout "0xB
"]).
Proof.
  exact (proj1 (complete_prints_the_list (clockEnv 0) twoEntries []) _
           eq_refl).
Defined.

(** X18: printing the recipients always starts with the hint about sync;
    when the tree cannot be built the command fails with the list exit code
    and the error text and prints nothing on stdout; when it is built the
    command prints the formatted tree as its only line on stdout and
    succeeds. *)
Theorem print_lists_or_fails (W : Env) (T : TreeOracle) (h : trace) :
  let hint :=
    EvCyan "Hint: run 'gopass sync' to import any missing public keys" in
  (forall tree e,
      T (h ++ [hint]) false true = (tree, Some e) ->
      RecipientsPrint W T h
      = (Val (Some (ExitError ExitList
                      ("failed to list recipients: " ++ Error_ W e)%string)),
         h ++ [hint]))
  /\ (forall tree,
         T (h ++ [hint]) false true = (Some tree, None) ->
         RecipientsPrint W T h
         = (Val None, h ++ [hint; EvStdout (Tree_Format tree 0 ++ "
")%string]))
  /\ exists out new,
       RecipientsPrint W T h = (out, h ++ hint :: new)
       /\ (out = Val None <-> count isStdout new = 1)
       /\ count isStdout new <= 1.
Proof.
  intros hint. unfold RecipientsPrint, bind, query, emit, deref, ret, panic.
  fold hint.
  split; [| split].
  - intros tree e Ht. now rewrite Ht.
  - intros tree Ht. rewrite Ht. cbn [fst snd]. now rewrite <- app_assoc.
  - destruct (T (h ++ [hint]) false true) as [[tree |] [e |]]; cbn [fst snd].
    + eexists _, []. split; [reflexivity |].
      split; [split; discriminate | cbn; lia].
    + eexists _, [_]. rewrite <- !app_assoc. split; [reflexivity |].
      split; [split; reflexivity | cbn; lia].
    + eexists _, []. split; [reflexivity |].
      split; [split; discriminate | cbn; lia].
    + eexists _, []. split; [reflexivity |].
      split; [split; discriminate | cbn; lia].
Qed.

Lemma print_lists_or_fails_witness :
  RecipientsPrint (clockEnv 0) noTree []
  = (Val (Some (ExitError ExitList "failed to list recipients: no store")),
     [] ++ [EvCyan "Hint: run 'gopass sync' to import any missing public keys"]).
Proof.
  exact (proj1 (print_lists_or_fails (clockEnv 0) noTree []) None
           (ErrOther "no store") eq_refl).
Defined.

(** *** The dialogue about one candidate *)

Lemma removeRest_outcome (W : Env) c store force r h :
  exists out ws tl,
    removeRest W c store force r h = (out, h ++ ws ++ tl)
    /\ forallb isCyan ws = true
    /\ removeOutcome W store r out tl.
Proof.
  unfold removeRest, bind.
  destruct (resolve_trace W c force r h) as [v [ws [Hr Hws]]].
  rewrite Hr.
  destruct v as [recp |]; unfold call, emit, ret.
  - destruct (Store_RemoveRecipient W _ true store recp) as [e |]; cbn.
    + eexists _, ws, [_]. rewrite <- !app_assoc. split; [reflexivity |].
      split; [exact Hws |]. eexists _, _. split; reflexivity.
    + eexists _, ws, [_; _]. rewrite <- !app_assoc. split; [reflexivity |].
      split; [exact Hws |]. eexists. reflexivity.
  - exists (Val Skipped), ws, []. rewrite app_nil_r.
    split; [reflexivity |]. split; [exact Hws | reflexivity].
Qed.

(** X19: with a crypto backend, the handling of one candidate never panics
    and appends warnings and questions first and the call of the store
    last.  In add-recipients the call of AddRecipient comes right after the
    accepted confirmation; in remove-recipients a successful call of
    RemoveRecipient is followed at once by the removal warning about the
    candidate; a failed call ends the batch with a recipients error (naming
    the input in add, the fingerprint in remove); every call is made for
    the store of the command with the storage-layer prompt switched off. *)
Theorem candidate_dialogue (W : Env) (c : Crypto) (store : string)
    (force : bool) (r : string) (h : trace) :
  (exists out ws tl,
      addBody W (Some c) store force r h = (out, h ++ ws ++ tl)
      /\ forallb isCyan ws = true
      /\ addOutcome W store r out tl)
  /\ (exists out pre tl,
         removeBody W (Some c) store force r h = (out, h ++ pre ++ tl)
         /\ forallb isTalk pre = true
         /\ removeOutcome W store r out tl).
Proof.
  split.
  - unfold addBody, bind, deref, ret.
    destruct (resolve_trace W c force r h) as [v [ws [Hr Hws]]].
    rewrite Hr.
    destruct v as [recp |]; unfold query, AskForConfirmation, call, ret.
    + destruct (termio_AskForConfirmation W _ _); cbn.
      * destruct (Store_AddRecipient W _ true store recp) as [e |]; cbn;
          eexists _, ws, [_; _]; rewrite <- !app_assoc;
          (split; [reflexivity |]); (split; [exact Hws |]).
        -- eexists _, _, _. split; reflexivity.
        -- eexists _, _. reflexivity.
      * eexists _, ws, [_]. rewrite <- !app_assoc. split; [reflexivity |].
        split; [exact Hws |]. right. eexists. reflexivity.
    + exists (Val Skipped), ws, []. rewrite app_nil_r.
      split; [reflexivity |]. split; [exact Hws | now left].
  - unfold removeBody, bind, deref, ret. rewrite selfCheck_run.
    assert (Hrest : forall h0, exists out pre tl,
               removeRest W c store force r h0 = (out, h0 ++ pre ++ tl)
               /\ forallb isTalk pre = true
               /\ removeOutcome W store r out tl).
    { intros h0. destruct (removeRest_outcome W c store force r h0)
        as [out [ws [tl [Hs [Hws Ht]]]]].
      exists out, ws, tl. split; [exact Hs |].
      split; [now apply cyan_talk | exact Ht]. }
    destruct (FindPrivateKeys c h [r]) as [[| k kl] [e |]]; cbn;
      try apply Hrest.
    destruct (termio_AskForConfirmation W h (selfPrompt r)); cbn.
    + destruct (Hrest (h ++ [EvConfirm (selfPrompt r) true]))
        as [out [pre [tl [Hs [Hp Ht]]]]].
      exists out, (EvConfirm (selfPrompt r) true :: pre), tl.
      rewrite Hs, <- !app_assoc. split; [reflexivity |].
      split; [exact Hp | exact Ht].
    + exists (Val Skipped), [EvConfirm (selfPrompt r) false], [].
      split; [reflexivity |]. split; reflexivity.
Qed.
